(** * llm-simulator: a shallow embedding of the streaming response simulator

    The development follows the Go sources:
    - [internal/mock]  : [RandIntn], [RandFloat64], [RandID], [trim],
                         [pickErrorStatus], [lastUserMessage],
                         [BuildOutput], [ApproxTokens];
    - [internal/grpc]  : [ChatCompletion], [ChatCompletionStream] and their
                         helpers ([pickTargetTokens], [shouldFail], the timing
                         knobs, [buildPromptForTokens]);
    - [internal/grpc]  : the text-event-stream front end
                         ([ChatCompletionSSEHandler], [serveChatCompletionSSE],
                         [writeSSE] with what [json.Marshal] makes of a chunk);
    - [internal/config]: [LoadConfig] and its readers, [ApplyPresetOverrides],
                         and the configuration [main] starts with.

    Go values are modelled as the code has them: [int] is a 64-bit two's
    complement integer (a [Z] with its wrap-around written out), [int32] a
    32-bit one, [float64] an IEEE-754 binary64 value ([spec_float], computed
    with the operations of [SpecFloat]), a [string] a sequence of bytes. *)

From Stdlib Require Import ZArith Ascii String Lia Bool Arith.
From Stdlib Require Import Floats.SpecFloat.
From Stdlib Require Floats.PrimFloat Floats.FloatOps.
From Stdlib Require Import List.
Import ListNotations.

Set Warnings "-inexact-float".
Local Open Scope Z_scope.

(** ** Machine integers *)

Module Go.

(** Two's complement reduction of an unbounded integer to [w] bits. *)
Definition wrap (w : Z) (z : Z) : Z :=
  (z + 2 ^ (w - 1)) mod 2 ^ w - 2 ^ (w - 1).

(** Conversions [int(x)] and [int32(x)]; every arithmetic result of type
    [int] (resp. [int32]) goes through them. *)
Definition int (z : Z) : Z := wrap 64 z.
Definition int32 (z : Z) : Z := wrap 32 z.

Definition min_int : Z := - 2 ^ 63.
Definition max_int : Z := 2 ^ 63 - 1.
Definition min_int32 : Z := - 2 ^ 31.
Definition max_int32 : Z := 2 ^ 31 - 1.

Definition is_int (z : Z) : Prop := min_int <= z <= max_int.
Definition is_int32 (z : Z) : Prop := min_int32 <= z <= max_int32.

Definition is_intb (z : Z) : bool := (min_int <=? z) && (z <=? max_int).

(** The largest object the runtime allocates on a 64-bit platform; the
    length of a string that exists at run time stays below it. *)
Definition maxAlloc : Z := 2 ^ 48.

End Go.

(** ** Strings *)

(** A Go string is an immutable sequence of bytes. *)
Definition gostring : Type := list ascii.

Definition bytes (s : string) : gostring := list_ascii_of_string s.

(** [len(s)] *)
Definition len (s : gostring) : Z := Z.of_nat (length s).

Definition byte_val (c : ascii) : Z := Z.of_N (N_of_ascii c).
Definition byte_of (z : Z) : ascii := ascii_of_N (Z.to_N (z mod 256)).

Definition LF : gostring := [byte_of 10].

(** [s == t] on strings. *)
Fixpoint gostring_eqb (s t : gostring) : bool :=
  match s, t with
  | [], [] => true
  | c :: s', d :: t' => Ascii.eqb c d && gostring_eqb s' t'
  | _, _ => false
  end.

(** A slice expression [s[lo:hi]]: it panics ([None]) unless
    [0 <= lo <= hi <= len(s)]. *)
Definition slice (s : gostring) (lo hi : Z) : option gostring :=
  if (0 <=? lo) && (lo <=? hi) && (hi <=? len s)
  then Some (firstn (Z.to_nat (hi - lo)) (skipn (Z.to_nat lo) s))
  else None.

(** ** The parts of the Go standard library the simulator calls *)

Module utf8.

Definition RuneError : Z := 65533.

Definition cont (lo hi : Z) (c : ascii) : bool :=
  (lo <=? byte_val c) && (byte_val c <=? hi).

Definition low6 (c : ascii) : Z := Z.land (byte_val c) 63.

(** [utf8.DecodeRuneInString]: the first rune of [s] and its width in
    bytes. An empty string gives [(RuneError, 0)], an ill-formed or
    truncated sequence [(RuneError, 1)]. *)
Definition DecodeRuneInString (s : gostring) : Z * nat :=
  match s with
  | [] => (RuneError, 0%nat)
  | c0 :: t =>
    let b0 := byte_val c0 in
    if b0 <? 128 then (b0, 1%nat)
    else if (194 <=? b0) && (b0 <=? 223) then
      match t with
      | c1 :: _ =>
        if cont 128 191 c1
        then (Z.lor (Z.shiftl (Z.land b0 31) 6) (low6 c1), 2%nat)
        else (RuneError, 1%nat)
      | _ => (RuneError, 1%nat)
      end
    else if (224 <=? b0) && (b0 <=? 239) then
      let lo := if b0 =? 224 then 160 else 128 in
      let hi := if b0 =? 237 then 159 else 191 in
      match t with
      | c1 :: c2 :: _ =>
        if cont lo hi c1 && cont 128 191 c2
        then (Z.lor (Z.shiftl (Z.land b0 15) 12)
                    (Z.lor (Z.shiftl (low6 c1) 6) (low6 c2)), 3%nat)
        else (RuneError, 1%nat)
      | _ => (RuneError, 1%nat)
      end
    else if (240 <=? b0) && (b0 <=? 244) then
      let lo := if b0 =? 240 then 144 else 128 in
      let hi := if b0 =? 244 then 143 else 191 in
      match t with
      | c1 :: c2 :: c3 :: _ =>
        if cont lo hi c1 && cont 128 191 c2 && cont 128 191 c3
        then (Z.lor (Z.shiftl (Z.land b0 7) 18)
                    (Z.lor (Z.shiftl (low6 c1) 12)
                           (Z.lor (Z.shiftl (low6 c2) 6) (low6 c3))), 4%nat)
        else (RuneError, 1%nat)
      | _ => (RuneError, 1%nat)
      end
    else (RuneError, 1%nat)
  end.

(** [utf8.RuneStart]: the byte is not a continuation byte. *)
Definition RuneStart (c : ascii) : bool :=
  negb (Z.land (byte_val c) 192 =? 128).

(** The backwards scan of [utf8.DecodeLastRuneInString]:
    [for start--; start >= lim; start-- { if RuneStart(s[start]) { break } }],
    entered after the decrement. *)
Fixpoint scanBack (fuel : nat) (s : gostring) (start lim : Z) : Z :=
  match fuel with
  | O => start
  | S f =>
    if start <? lim then start
    else if RuneStart (nth (Z.to_nat start) s Ascii.zero) then start
    else scanBack f s (start - 1) lim
  end.

(** [utf8.DecodeLastRuneInString] *)
Definition DecodeLastRuneInString (s : gostring) : Z * nat :=
  let e := len s in
  if e =? 0 then (RuneError, 0%nat)
  else
    let r := byte_val (nth (Z.to_nat (e - 1)) s Ascii.zero) in
    if r <? 128 then (r, 1%nat)
    else
      let lim := if e - 4 <? 0 then 0 else e - 4 in
      let start := scanBack 4 s (e - 2) lim in
      let start := if start <? 0 then 0 else start in
      let '(r, size) := DecodeRuneInString (skipn (Z.to_nat start) s) in
      if start + Z.of_nat size =? e then (r, size) else (RuneError, 1%nat).

(** The conversion [[]rune(s)]: decode rune after rune; [skip] counts the
    bytes of the current rune that remain to be passed over. *)
Fixpoint runes_from (skip : nat) (s : gostring) : list Z :=
  match s with
  | [] => []
  | _ :: t =>
    match skip with
    | S k => runes_from k t
    | O => let '(r, w) := DecodeRuneInString s in r :: runes_from (w - 1) t
    end
  end.

Definition runes (s : gostring) : list Z := runes_from 0 s.

(** [utf8.AppendRune] on an empty buffer: surrogates and values outside
    the Unicode range are encoded as [RuneError]. *)
Definition encode3 (r : Z) : gostring :=
  [byte_of (Z.lor 224 (Z.shiftr r 12));
   byte_of (Z.lor 128 (Z.land (Z.shiftr r 6) 63));
   byte_of (Z.lor 128 (Z.land r 63))].

Definition EncodeRune (r : Z) : gostring :=
  if (0 <=? r) && (r <=? 127) then [byte_of r]
  else if (0 <=? r) && (r <=? 2047) then
    [byte_of (Z.lor 192 (Z.shiftr r 6)); byte_of (Z.lor 128 (Z.land r 63))]
  else if (r <? 0) || (1114111 <? r) || ((55296 <=? r) && (r <=? 57343))
  then encode3 RuneError
  else if r <=? 65535 then encode3 r
  else
    [byte_of (Z.lor 240 (Z.shiftr r 18));
     byte_of (Z.lor 128 (Z.land (Z.shiftr r 12) 63));
     byte_of (Z.lor 128 (Z.land (Z.shiftr r 6) 63));
     byte_of (Z.lor 128 (Z.land r 63))].

(** The conversion [string(rs)] of a rune slice. *)
Definition string_of_runes (rs : list Z) : gostring :=
  concat (map EncodeRune rs).

End utf8.

Module unicode.

(** [unicode.IsSpace]: the Latin-1 spaces and the code points with the
    White_Space property. *)
Definition IsSpace (r : Z) : bool :=
  ((9 <=? r) && (r <=? 13)) || (r =? 32) || (r =? 133) || (r =? 160)
  || (r =? 5760) || ((8192 <=? r) && (r <=? 8202))
  || (r =? 8232) || (r =? 8233) || (r =? 8239) || (r =? 8287) || (r =? 12288).

End unicode.

Module strings.

(** [strings.TrimLeftFunc(s, unicode.IsSpace)] *)
Fixpoint trimLeftSpace (fuel : nat) (s : gostring) : gostring :=
  match fuel with
  | O => s
  | S f =>
    let '(r, w) := utf8.DecodeRuneInString s in
    match w with
    | O => s
    | _ => if unicode.IsSpace r then trimLeftSpace f (skipn w s) else s
    end
  end.

(** [strings.TrimRightFunc(s, unicode.IsSpace)] *)
Fixpoint trimRightSpace (fuel : nat) (s : gostring) : gostring :=
  match fuel with
  | O => s
  | S f =>
    let '(r, w) := utf8.DecodeLastRuneInString s in
    match w with
    | O => s
    | _ => if unicode.IsSpace r
           then trimRightSpace f (firstn (length s - w) s) else s
    end
  end.

(** [strings.TrimSpace]: all leading and trailing white space removed. Each
    round removes at least one byte, so [length s] rounds are enough. *)
Definition TrimSpace (s : gostring) : gostring :=
  let s := trimLeftSpace (length s) s in
  trimRightSpace (length s) s.

(** [strings.Map]: a negative result of [f] drops the rune; an ill-formed
    byte is read as [RuneError] and written back as its three bytes. *)
Definition Map (f : Z -> Z) (s : gostring) : gostring :=
  concat (map (fun c => let r := f c in
                        if r <? 0 then [] else utf8.EncodeRune r)
              (utf8.runes s)).

Definition isASCII (s : gostring) : bool :=
  forallb (fun c => byte_val c <? 128) s.

Definition lowerByte (c : ascii) : ascii :=
  if (65 <=? byte_val c) && (byte_val c <=? 90)
  then byte_of (byte_val c + 32) else c.

(** [strings.ToLower]: bytewise on ASCII text, [Map(unicode.ToLower, s)]
    otherwise; the case table [unicode.ToLower] is a parameter. *)
Definition ToLower (unicode_ToLower : Z -> Z) (s : gostring) : gostring :=
  if isASCII s then map lowerByte s else Map unicode_ToLower s.

End strings.

Module strconv.

Definition digit (c : ascii) : option Z :=
  let b := byte_val c in
  if (48 <=? b) && (b <=? 57) then Some (b - 48) else None.

Fixpoint digits (acc : Z) (s : gostring) : option Z :=
  match s with
  | [] => Some acc
  | c :: t =>
    match digit c with
    | Some d => digits (acc * 10 + d) t
    | None => None
    end
  end.

(** [strconv.Atoi]: an optional sign and at least one decimal digit; a
    value outside [int] is an error ([None]) as well. *)
Definition Atoi (s : gostring) : option Z :=
  let '(neg, ds) :=
    match s with
    | c :: t =>
      if byte_val c =? 45 then (true, t)
      else if byte_val c =? 43 then (false, t)
      else (false, s)
    | [] => (false, s)
    end in
  match ds with
  | [] => None
  | _ =>
    match digits 0 ds with
    | Some n =>
      let v := if neg then - n else n in
      if Go.is_intb v then Some v else None
    | None => None
    end
  end.

End strconv.

Module url.

(** [url.Values], as the pairs of the query in their order. *)
Definition Values : Type := list (gostring * gostring).

(** [Values.Get]: the first value of the key, or the empty string. *)
Fixpoint Get (q : Values) (key : gostring) : gostring :=
  match q with
  | [] => []
  | (k, v) :: q' => if gostring_eqb k key then v else Get q' key
  end.

End url.

(** ** float64 *)

Definition float64 : Type := spec_float.

Module F64.

Import PrimFloat.

Definition prec : Z := 53.
Definition emax : Z := 1024.

Definition ltb (x y : float64) : bool := SFltb x y.
Definition leb (x y : float64) : bool := SFleb x y.
Definition add (x y : float64) : float64 := SFadd prec emax x y.
Definition sub (x y : float64) : float64 := SFsub prec emax x y.
Definition mul (x y : float64) : float64 := SFmul prec emax x y.

(** The conversion [float64(n)] of an integer: rounding to nearest even. *)
Definition of_int (n : Z) : float64 := binary_normalize prec emax n 0 false.

(** The integer part of a finite float, rounded toward zero. *)
Definition trunc (x : float64) : option Z :=
  match x with
  | S754_zero _ => Some 0
  | S754_finite s m e =>
    let a := if 0 <=? e then Z.pos m * 2 ^ e else Z.pos m / 2 ^ (- e) in
    Some (if s then - a else a)
  | _ => None
  end.

(** The conversion [int32(x)] of a float: the fraction is discarded; a
    value that does not fit (or a NaN) gives the "integer indefinite"
    value of the amd64 conversion instruction. *)
Definition to_int32 (x : float64) : Z :=
  match trunc x with
  | Some z => if (Go.min_int32 <=? z) && (z <=? Go.max_int32) then z
              else Go.min_int32
  | None => Go.min_int32
  end.

(** The constants of the sources, each the binary64 value nearest to the
    decimal literal. *)
Definition c0_0 : float64 := S754_zero false.
Definition c1_00 : float64 := Eval cbv in FloatOps.Prim2SF 1.00%float.
Definition c0_58 : float64 := Eval cbv in FloatOps.Prim2SF 0.58%float.
Definition c0_34 : float64 := Eval cbv in FloatOps.Prim2SF 0.34%float.
Definition c0_07 : float64 := Eval cbv in FloatOps.Prim2SF 0.07%float.
Definition c0_01 : float64 := Eval cbv in FloatOps.Prim2SF 0.01%float.
Definition c0_10 : float64 := Eval cbv in FloatOps.Prim2SF 0.10%float.
Definition c0_06 : float64 := Eval cbv in FloatOps.Prim2SF 0.06%float.
Definition c0_03 : float64 := Eval cbv in FloatOps.Prim2SF 0.03%float.
Definition c0_04 : float64 := Eval cbv in FloatOps.Prim2SF 0.04%float.
Definition c0_02 : float64 := Eval cbv in FloatOps.Prim2SF 0.02%float.
Definition c0_05 : float64 := Eval cbv in FloatOps.Prim2SF 0.05%float.
Definition c0_22 : float64 := Eval cbv in FloatOps.Prim2SF 0.22%float.
Definition c0_62 : float64 := Eval cbv in FloatOps.Prim2SF 0.62%float.
Definition c0_92 : float64 := Eval cbv in FloatOps.Prim2SF 0.92%float.

End F64.

(** ** Data model *)

(** [config.Config] *)
Record Config : Type := mkConfig {
  Port : Z;
  Profile : gostring;
  Preset : gostring;
  BaseDelayMs : Z;
  JitterMs : Z;
  PerTokenDelayMs : Z;
  ErrorRate : float64;
  ErrorMode : gostring;
  DefaultTokens : Z;
  ChunkSize : Z;
  StreamDelayMinMs : Z;
  StreamDelayMaxMs : Z;
  EchoPrompt : bool;
  Randomize : bool;
  TTFTMinMs : Z;
  TTFTMaxMs : Z;
  TokensPerSec : Z;
  DebugOutputChars : Z;
  MaxOutputChars : Z;
  StrictTokenMode : bool
}.

(** The zero value [config.Config{}]. *)
Definition Config_zero : Config :=
  mkConfig 0 [] [] 0 0 0 F64.c0_0 [] 0 0 0 0 false false 0 0 0 0 0 false.

(** Every [int] field holds a 64-bit value. *)
Definition Config_wf (c : Config) : Prop :=
  Go.is_int (BaseDelayMs c) /\ Go.is_int (JitterMs c) /\
  Go.is_int (PerTokenDelayMs c) /\ Go.is_int (DefaultTokens c) /\
  Go.is_int (ChunkSize c) /\ Go.is_int (StreamDelayMinMs c) /\
  Go.is_int (StreamDelayMaxMs c) /\ Go.is_int (TTFTMinMs c) /\
  Go.is_int (TTFTMaxMs c) /\ Go.is_int (TokensPerSec c) /\
  Go.is_int (DebugOutputChars c) /\ Go.is_int (MaxOutputChars c).

(** [llmv1.ChatMessage] and [llmv1.ChatCompletionRequest] (generated
    message types; [MaxTokens] is an [int32]). *)
Record ChatMessage : Type := mkChatMessage {
  Role : gostring;
  Content : gostring
}.

Record ChatCompletionRequest : Type := mkRequest {
  Model : gostring;
  SystemPrompt : gostring;
  UserPrompt : gostring;
  Context : list ChatMessage;
  MaxTokens : Z
}.

(** [llmv1.ChatCompletionResponse] *)
Record ChatCompletionResponse : Type := mkResponse {
  OutputText : gostring;
  RespFinishReason : gostring;
  RespPromptTokens : Z;
  RespCompletionTokens : Z;
  RespTotalTokens : Z;
  RespLatencyMs : Z
}.

(** [llmv1.ChatCompletionChunkResponse] *)
Record ChatCompletionChunkResponse : Type := mkChunk {
  Type_ : gostring;
  Text : gostring;
  Index : Z;
  FinishReason : gostring;
  PromptTokens : Z;
  CompletionTokens : Z;
  TotalTokens : Z;
  LatencyMs : Z
}.

(** [mock.StreamChunk] with its single choice: the delta (content, role)
    and the optional finish reason. *)
Record StreamChunk : Type := mkStreamChunk {
  ID : gostring;
  Object : gostring;
  Created : Z;
  ChunkModel : gostring;
  DeltaContent : gostring;
  DeltaRole : gostring;
  ChoiceFinishReason : option gostring
}.

(** ** encoding/json *)

Module json.

(** A Go string as [json.Marshal] writes it, kept as the text a decoder
    reads back from the JSON. The encoder walks the string with
    [utf8.DecodeRuneInString] and writes the six characters of the escape
    of [U+FFFD] for every byte at which the decoder returns
    [(RuneError, 1)]; all it writes for the other characters (themselves
    or an escape) decodes to those characters. That is the conversion
    [string([]rune(s))]. *)
Definition validString (s : gostring) : gostring :=
  utf8.string_of_runes (utf8.runes s).

(** [json.Marshal] of a [mock.StreamChunk], kept as the chunk a decoder
    reads back: the integers are written in full, the strings as above;
    [omitempty] drops an empty content or role, which a decoder reads as
    the empty string again. No field of the struct makes [Marshal] fail. *)
Definition Marshal (v : StreamChunk) : StreamChunk :=
  mkStreamChunk (validString (ID v)) (validString (Object v)) (Created v)
                (validString (ChunkModel v)) (validString (DeltaContent v))
                (validString (DeltaRole v))
                (option_map validString (ChoiceFinishReason v)).

End json.

(** Errors the service returns. *)
Inductive ctxError : Type := Canceled | DeadlineExceeded.

Inductive Code : Type := ResourceExhausted | Internal.

Inductive error : Type :=
| ErrContext (e : ctxError)               (* ctx.Err() *)
| ErrStatus (c : Code) (desc : gostring)  (* status.Error(c, desc) *)
| ErrSend (desc : gostring).              (* an error of stream.Send *)

Definition Code_String (c : Code) : gostring :=
  match c with
  | ResourceExhausted => bytes "ResourceExhausted"
  | Internal => bytes "Internal"
  end.

(** [err.Error()] *)
Definition Error (e : error) : gostring :=
  match e with
  | ErrContext Canceled => bytes "context canceled"
  | ErrContext DeadlineExceeded => bytes "context deadline exceeded"
  | ErrStatus c desc =>
    bytes "rpc error: code = " ++ Code_String c ++ bytes " desc = " ++ desc
  | ErrSend desc => desc
  end.

(** ** The world a call runs in *)

(** One frame of an HTTP response body. *)
Inductive Frame : Type :=
| FrameText (s : gostring)        (* plain text written by http.Error *)
| FrameData (c : StreamChunk)
    (* data: <json>\n\n, the JSON text kept as the chunk it decodes to *)
| FrameDone.                      (* data: [DONE]\n\n *)

(** What the surroundings decide: the draws of the shared generator, the
    moment the call's context is done, the result of each transport
    operation and the time that passes between two clock readings. *)
Record Env : Type := mkEnv {
  rng_int : nat -> Z;              (* raw integer of the k-th draw *)
  rng_float : nat -> float64;      (* Float64 value of the k-th draw *)
  ctx_done : option (nat * ctxError);
    (* [Some (n, e)]: the context is done, with error [e], from the moment
       [n] messages have been handed to the transport *)
  send_err : nat -> option gostring;
    (* the error of the k-th stream.Send, if it fails *)
  io_err : nat -> bool;            (* the k-th buffered write or flush fails *)
  can_flush : bool;                (* the ResponseWriter is an http.Flusher *)
  elapse : nat -> N                (* nanoseconds before the k-th reading *)
}.

Record State : Type := mkState {
  rng_pos : nat;                         (* draws made so far *)
  sent : list ChatCompletionChunkResponse; (* handed to stream.Send *)
  io_ops : nat;                          (* writes and flushes so far *)
  buffered : list Frame;                 (* in the bufio.Writer *)
  body : list Frame;                     (* written to the response *)
  status : option Z;                     (* HTTP status, once written *)
  content_type : gostring;               (* Content-Type header *)
  clock_reads : nat;
  now : Z                                (* monotonic clock, nanoseconds *)
}.

Definition init : State := mkState 0 [] 0 [] [] None [] 0 0.

Definition set_rng_pos (n : nat) (s : State) : State :=
  mkState n (sent s) (io_ops s) (buffered s) (body s) (status s)
          (content_type s) (clock_reads s) (now s).

Definition set_sent (l : list ChatCompletionChunkResponse) (s : State) : State :=
  mkState (rng_pos s) l (io_ops s) (buffered s) (body s) (status s)
          (content_type s) (clock_reads s) (now s).

Definition set_clock (k : nat) (t : Z) (s : State) : State :=
  mkState (rng_pos s) (sent s) (io_ops s) (buffered s) (body s) (status s)
          (content_type s) k t.

Definition set_io (k : nat) (buf bdy : list Frame) (st : option Z)
    (s : State) : State :=
  mkState (rng_pos s) (sent s) k buf bdy st (content_type s)
          (clock_reads s) (now s).

Definition set_content_type (ct : gostring) (s : State) : State :=
  mkState (rng_pos s) (sent s) (io_ops s) (buffered s) (body s) (status s)
          ct (clock_reads s) (now s).

(** Messages handed to the transport so far, on either front end. *)
Definition handed (s : State) : nat := (length (sent s) + length (body s))%nat.

(** A computation ends with a value, with a run-time panic, or is cut off
    when the loop bound given to the model is used up. *)
Inductive Res (A : Type) : Type :=
| Val (a : A)
| Panic
| OutOfFuel.

Arguments Val {A} a.
Arguments Panic {A}.
Arguments OutOfFuel {A}.

Definition M (A : Type) : Type := Env -> State -> Res A * State.

Definition ret {A} (a : A) : M A := fun _ s => (Val a, s).

Definition bind {A B} (c : M A) (k : A -> M B) : M B :=
  fun env s =>
    match c env s with
    | (Val a, s') => k a env s'
    | (Panic, s') => (Panic, s')
    | (OutOfFuel, s') => (OutOfFuel, s')
    end.

Definition panic {A} : M A := fun _ s => (Panic, s).
Definition out_of_fuel {A} : M A := fun _ s => (OutOfFuel, s).

Declare Scope go_scope.
Delimit Scope go_scope with go.
Notation "x <- c ;; k" := (bind c (fun x => k))
  (at level 61, c at next level, right associativity) : go_scope.
Notation "c ;;; k" := (bind c (fun _ => k))
  (at level 61, right associativity) : go_scope.
Local Open Scope go_scope.

(** A value the run-time may refuse to produce. *)
Definition orPanic {A} (o : option A) : M A :=
  match o with Some a => ret a | None => panic end.

(** *** Context *)

(** Both [ctx.Err()] and a non-blocking receive on [ctx.Done()]. *)
Definition ctxErr : M (option ctxError) :=
  fun env s =>
    match ctx_done env with
    | Some (n, e) =>
      if (n <=? handed s)%nat then (Val (Some e), s) else (Val None, s)
    | None => (Val None, s)
    end.

(** [sleepWithContext(ctx, d)] waits for the timer or for the context and
    returns nothing; the passing of time shows at the next clock reading. *)
Definition sleepWithContext (d : Z) : M unit := ret tt.

(** *** Clock *)

(** [time.Now()] *)
Definition time_Now : M Z :=
  fun env s =>
    let t := now s + Z.of_N (elapse env (clock_reads s)) in
    (Val t, set_clock (S (clock_reads s)) t s).

(** [time.Since(start).Milliseconds()]; a [Duration] saturates. *)
Definition time_Since_ms (start : Z) : M Z :=
  t <- time_Now ;;
  ret (Z.quot (Z.min (t - start) Go.max_int) 1000000).

(** [time.Duration(ms) * time.Millisecond] *)
Definition Milliseconds (ms : Z) : Z := Go.int (ms * 1000000).

(** *** Transport *)

(** [stream.Send(res)] *)
Definition Send (res : ChatCompletionChunkResponse) : M (option error) :=
  fun env s =>
    (Val (option_map ErrSend (send_err env (length (sent s)))),
     set_sent (sent s ++ [res]) s).

(** ** Package mock *)

(** [RandIntn]: 0 for [n <= 0], otherwise a draw of the shared generator
    in [[0, n)]. *)
Definition RandIntn (n : Z) : M Z :=
  if n <=? 0 then ret 0
  else fun env s =>
    (Val (rng_int env (rng_pos s) mod n), set_rng_pos (S (rng_pos s)) s).

(** [RandFloat64] *)
Definition RandFloat64 : M float64 :=
  fun env s => (Val (rng_float env (rng_pos s)), set_rng_pos (S (rng_pos s)) s).

(** [pickErrorStatus]: the HTTP status of an injected failure. *)
Definition pickErrorStatus (mode : gostring) : M Z :=
  if gostring_eqb mode (bytes "429") then ret 429
  else if gostring_eqb mode (bytes "500") then ret 500
  else
    r <- RandIntn 2 ;;
    if r =? 0 then ret 429 else ret 500.

(** [mock.ChatRequest]; a message is a role and a content. The optional
    overrides ([Mock]) are read by no function of the package. *)
Record ChatRequest : Type := mkChatRequest {
  ReqModel : gostring;
  ReqStream : bool;
  ReqMaxTokens : Z;
  Messages : list ChatMessage
}.

(** [lastUserMessage]: the loop
    [for i := len(req.Messages) - 1; i >= 0; i--], with [n] standing for
    [i + 1]; the index [n - 1] is always in range. *)
Fixpoint lastUserMessage_loop (msgs : list ChatMessage) (n : nat) : gostring :=
  match n with
  | O => []
  | S i =>
    match nth_error msgs i with
    | Some m =>
      if gostring_eqb (Role m) (bytes "user") then Content m
      else lastUserMessage_loop msgs i
    | None => []
    end
  end.

Definition lastUserMessage (req : ChatRequest) : gostring :=
  lastUserMessage_loop (Messages req) (length (Messages req)).

Definition letters : gostring := bytes "abcdefghijklmnopqrstuvwxyz0123456789".

(** [RandID]: ten draws, each picking one of the 36 letters. *)
Fixpoint RandID_loop (n : nat) (b : gostring) : M gostring :=
  match n with
  | O => ret b
  | S n' =>
    k <- RandIntn (len letters) ;;
    RandID_loop n' (b ++ [nth (Z.to_nat k) letters Ascii.zero])
  end.

Definition RandID : M gostring := RandID_loop 10 [].

Definition ellipsis : gostring := [byte_of 226; byte_of 128; byte_of 166].

(** [trim(s, n)], called with [n = 140] only (a negative [n] would make
    the slice expression [rs[:n]] panic). *)
Definition trim (s : gostring) (n : Z) : gostring :=
  let rs := utf8.runes s in
  if Z.of_nat (length rs) <=? n then s
  else utf8.string_of_runes (firstn (Z.to_nat n) rs) ++ ellipsis.

Definition boilerplate : gostring :=
  bytes "This is a server-streaming mock response for benchmarking Kafka/worker throughput. "
  ++ LF ++
  bytes "It simulates latency, errors, and chunked deltas. " ++ LF.

Definition mock_token : gostring := bytes "[mock-token] ".

(** [for len(s) < target { s += "[mock-token] " }]. Every round adds 13
    bytes, so [target] rounds are always enough (see [fill_reaches]). *)
Fixpoint fill (fuel : nat) (s : gostring) (target : Z) : gostring :=
  match fuel with
  | O => s
  | S f => if len s <? target then fill f (s ++ mock_token) target else s
  end.

(** The sizing rules at the head of [BuildOutput]. *)
Definition targetLen (maxTokens : Z) (strictTokenMode : bool)
    (debugChars maxChars : Z) : Z :=
  let target := debugChars in
  let target := if target =? 0 then 512 else target in
  let target :=
    if strictTokenMode then
      let maxTokens := if maxTokens <=? 0 then 128 else maxTokens in
      Go.int (maxTokens * 4)
    else target in
  let target := if target <? 64 then 64 else target in
  let cap := maxChars in
  let cap := if cap =? 0 then 4096 else cap in
  if (0 <? cap) && (cap <? target) then cap else target.

(** [ApproxTokens] *)
Definition ApproxTokens (s : gostring) : Z :=
  match s with
  | [] => 0
  | _ => let r := Z.of_nat (length (utf8.runes s)) in
         Z.quot (Go.int (r + 3)) 4
  end.

(** [defaultInt] *)
Definition defaultInt (v def : Z) : Z := if v =? 0 then def else v.

(** Instances of the two standard-library tables for closed examples:
    [quoteASCII] is [strconv.Quote] on text of printable characters, ASCII
    or not (the quote and the backslash are the only characters escaped
    there, every other byte is kept), [lowerASCII] is [unicode.ToLower] on
    ASCII. *)
Definition quoteByte (c : ascii) : gostring :=
  if (byte_val c =? 34) || (byte_val c =? 92) then [byte_of 92; c] else [c].

Definition quoteASCII (s : gostring) : gostring :=
  [byte_of 34] ++ concat (map quoteByte s) ++ [byte_of 34].

Definition lowerASCII (r : Z) : Z :=
  if (65 <=? r) && (r <=? 90) then r + 32 else r.

(** Surroundings in which nothing goes wrong: no cancellation, a transport
    and a response that take everything, a generator that draws zeros and
    a clock that advances by a millisecond between two readings. *)
Definition quietEnv : Env :=
  mkEnv (fun _ => 0) (fun _ => F64.c0_0) None (fun _ => None)
        (fun _ => false) true (fun _ => 1000000%N).

(** The same, with the context cancelled once [n] messages went out. *)
Definition cancelAfter (n : nat) : Env :=
  mkEnv (fun _ => 0) (fun _ => F64.c0_0) (Some (n, Canceled)) (fun _ => None)
        (fun _ => false) true (fun _ => 1000000%N).

(** The configurations and requests of the tests of the repository. *)
Definition streamCfg : Config :=
  mkConfig 0 [] [] 0 0 0 F64.c0_0 (bytes "mixed") 0 7 0 0 false false
           0 0 0 0 0 false.

Definition streamReq : ChatCompletionRequest :=
  mkRequest (bytes "mock-stream") (bytes "sys") (bytes "stream this content")
            [] 10.

Definition unaryCfg : Config :=
  mkConfig 0 [] [] 0 0 0 F64.c0_0 (bytes "mixed") 0 16 0 0 false false
           0 0 0 0 0 true.

Definition unaryReq : ChatCompletionRequest :=
  mkRequest (bytes "gpt-mock") (bytes "you are helpful")
            (bytes "tell me a joke")
            [mkChatMessage (bytes "user") (bytes "hi");
             mkChatMessage (bytes "assistant") (bytes "hello")] 12.

Definition failingCfg : Config :=
  mkConfig 0 [] [] 0 0 0 F64.c1_00 (bytes "500") 0 7 0 0 false false
           0 0 0 0 0 false.

(** Strict token mode with a default budget of 5 tokens and a request
    that leaves the budget to the service. *)
Definition defaultsCfg : Config :=
  mkConfig 0 [] [] 0 0 0 F64.c0_0 (bytes "mixed") 5 7 0 0 false false
           0 0 0 0 256 true.

Definition defaultsReq : ChatCompletionRequest :=
  mkRequest (bytes "mock-stream") [] (bytes "sse prompt") [] 0.


Definition noFlushEnv : Env :=
  mkEnv (fun _ => 0) (fun _ => F64.c0_0) None (fun _ => None)
        (fun _ => false) false (fun _ => 1000000%N).

(** Configurations with timing knobs and randomization, with tokens per
    second that wrap to 0 as an [int32], and with randomized strict
    sizing; a request with a budget of 32 tokens. *)
Definition timedCfg : Config :=
  mkConfig 0 [] [] 10 5 0 F64.c0_0 (bytes "mixed") 0 7 2 9 false true
           100 300 50 0 0 false.

Definition wrapTpsCfg : Config :=
  mkConfig 0 [] [] 0 0 0 F64.c0_0 (bytes "mixed") 0 7 0 0 false false
           0 0 (2 ^ 32) 0 0 false.

Definition randomCfg : Config :=
  mkConfig 0 [] [] 0 0 0 F64.c0_0 (bytes "mixed") 0 7 0 0 false true
           0 0 0 0 0 true.

Definition budgetReq : ChatCompletionRequest :=
  mkRequest (bytes "gpt-mock") [] (bytes "tell me a joke") [] 32.

(** A configuration as read from an empty environment, with the preset
    "vllm"; an empty environment and one that sets [CHUNK_SIZE]; a float
    parser that accepts nothing. *)
Definition vllmCfg : Config :=
  mkConfig 8787 (bytes "default") (bytes "vllm") 0 0 0 F64.c0_0
           (bytes "mixed") 128 12 0 0 false false 0 0 120 0 16384 true.

Definition emptyEnviron : gostring -> gostring := fun _ => [].

Definition chunkEnviron : gostring -> gostring :=
  fun k => if gostring_eqb k (bytes "CHUNK_SIZE") then bytes "99" else [].

Definition parseNone : gostring -> option float64 := fun _ => None.

(** A chat request of the HTTP model and the query of an event-stream
    request. *)
Definition chatReq : ChatRequest :=
  mkChatRequest (bytes "gpt-mock") true 16
    [mkChatMessage (bytes "user") (bytes "first");
     mkChatMessage (bytes "assistant") (bytes "answer");
     mkChatMessage (bytes "user") (bytes "second");
     mkChatMessage (bytes "system") (bytes "note")].

(** The configuration [main] starts with under [ECHO_PROMPT=true] (every
    other variable unset; the preset "openai" sets the chunk size 16), a
    prompt of thirteen letters and an accented one (U+00E9, two bytes),
    the query of the request that carries it, and U+FFFD in UTF-8. *)
Definition echoCfg : Config :=
  mkConfig 8787 (bytes "default") (bytes "openai") 0 0 0 F64.c0_0
           (bytes "mixed") 128 16 8 45 true false 120 800 35 0 12288 true.

Definition accentPrompt : gostring :=
  bytes "aaaaaaaaaaaaa" ++ [byte_of 195; byte_of 169].

Definition accentQuery : url.Values :=
  [(bytes "prompt", accentPrompt); (bytes "max_tokens", bytes "16")].

Definition replacement : gostring := [byte_of 239; byte_of 191; byte_of 189].

Definition sseQuery : url.Values :=
  [(bytes "prompt", bytes "sse prompt"); (bytes "max_tokens", bytes "10");
   (bytes "chunk_size", bytes "7"); (bytes "model", bytes "mock-model")].

Section Simulator.

(** [strconv.Quote], which formats the verb [%q], and the case table
    [unicode.ToLower]: standard library tables, taken as parameters. *)
Variable strconv_Quote : gostring -> gostring.
Variable unicode_ToLower : Z -> Z.

(** [BuildOutput] *)
Definition BuildOutput (prompt : gostring) (maxTokens : Z)
    (echoPrompt strictTokenMode : bool) (debugChars maxChars : Z) : gostring :=
  let target := targetLen maxTokens strictTokenMode debugChars maxChars in
  let prefix :=
    if echoPrompt then
      let p := trim prompt 140 in
      bytes "Mock answer for: " ++ strconv_Quote p ++ LF ++ LF
    else [] in
  let s := prefix ++ boilerplate in
  let s := fill (Z.to_nat target) s target in
  firstn (Z.to_nat target) s.

(** ** Package grpc: the service helpers *)

(** [shouldFail] *)
Definition shouldFail (rate : float64) : M bool :=
  if F64.leb rate F64.c0_0 then ret false
  else if F64.leb F64.c1_00 rate then ret true
  else r <- RandFloat64 ;; ret (F64.ltb r rate).

(** [pickGrpcErrorCode] *)
Definition pickGrpcErrorCode (mode : gostring) : M Code :=
  let m := strings.ToLower unicode_ToLower (strings.TrimSpace mode) in
  if gostring_eqb m (bytes "429") || gostring_eqb m (bytes "resource_exhausted")
     || gostring_eqb m (bytes "rate_limit") || gostring_eqb m (bytes "rate limit")
  then ret ResourceExhausted
  else if gostring_eqb m (bytes "500") || gostring_eqb m (bytes "internal")
          || gostring_eqb m (bytes "server_error")
  then ret Internal
  else
    r <- RandIntn 2 ;;
    if r =? 0 then ret ResourceExhausted else ret Internal.

(** The closure [pickFrac] of [pickTargetTokens]; [maxTokens], [minT] and
    [maxT] are [int32] values. *)
Definition pickFrac (maxTokens : Z) (minF maxF : float64) : M Z :=
  let minT := F64.to_int32 (F64.mul (F64.of_int maxTokens) minF) in
  let maxT := F64.to_int32 (F64.mul (F64.of_int maxTokens) maxF) in
  let minT := if minT <? 1 then 1 else minT in
  let maxT := if maxT <? minT then minT else maxT in
  if maxT =? minT then ret minT
  else
    r <- RandIntn (Go.int (Go.int32 (Go.int32 (maxT - minT) + 1))) ;;
    ret (Go.int32 (minT + Go.int32 r)).

(** [pickTargetTokens] *)
Definition pickTargetTokens (maxTokens : Z) (promptRunes : Z) : M Z :=
  let maxTokens := if maxTokens <=? 0 then 128 else maxTokens in
  let pShort := F64.c0_58 in
  let pNormal := F64.c0_34 in
  let pLong := F64.c0_07 in
  let pMaxed := F64.c0_01 in
  let '(pShort, pNormal, pLong, pMaxed) :=
    if 1200 <? promptRunes then
      (F64.sub pShort F64.c0_10, F64.add pNormal F64.c0_06,
       F64.add pLong F64.c0_03, F64.add pMaxed F64.c0_01)
    else if 600 <? promptRunes then
      (F64.sub pShort F64.c0_06, F64.add pNormal F64.c0_04,
       F64.add pLong F64.c0_02, pMaxed)
    else (pShort, pNormal, pLong, pMaxed) in
  let pShort := if F64.ltb pShort F64.c0_10 then F64.c0_10 else pShort in
  let pMaxed := if F64.ltb pMaxed F64.c0_0 then F64.c0_0 else pMaxed in
  r <- RandFloat64 ;;
  if F64.ltb r pShort then pickFrac maxTokens F64.c0_05 F64.c0_22
  else if F64.ltb r (F64.add pShort pNormal)
  then pickFrac maxTokens F64.c0_22 F64.c0_62
  else if F64.ltb r (F64.add (F64.add pShort pNormal) pLong)
  then pickFrac maxTokens F64.c0_62 F64.c0_92
  else pickFrac maxTokens F64.c0_92 F64.c1_00.

(** The timing knobs, methods of the service (its only field is [cfg]). *)
Definition baseDelayMs (cfg : Config) : Z := defaultInt (BaseDelayMs cfg) 0.

Definition jitterMs (cfg : Config) : M Z :=
  let j := defaultInt (JitterMs cfg) 0 in
  if j <=? 0 then ret 0 else RandIntn (Go.int (j + 1)).

Definition perTokenDelayMs (cfg : Config) (maxTokens : Z) : Z :=
  defaultInt (PerTokenDelayMs cfg) 0.

Definition chunkSize (cfg : Config) : Z := defaultInt (ChunkSize cfg) 12.

Definition ttftMs (cfg : Config) : M Z :=
  let min := defaultInt (TTFTMinMs cfg) 0 in
  let max := defaultInt (TTFTMaxMs cfg) 0 in
  if (min <=? 0) && (max <=? 0) then ret 0
  else
    let min := if min <=? 0 then max else min in
    let max := if max <=? 0 then min else max in
    let max := if max <? min then min else max in
    if max =? min then ret min
    else r <- RandIntn (Go.int (Go.int (max - min) + 1)) ;; ret (Go.int (min + r)).

Definition tokensPerSec (cfg : Config) : Z := defaultInt (TokensPerSec cfg) 0.

(** The pacing computed by [sleepStreamGap] and by [sleepSSEStreamGap],
    which read the same knobs in the same way. *)
Definition streamGapMs (cfg : Config) (delta : gostring) : M Z :=
  let ms := 0 in
  let min := defaultInt (StreamDelayMinMs cfg) 0 in
  let max := defaultInt (StreamDelayMaxMs cfg) 0 in
  ms <- (if 0 <? max then
           let max := if max <? min then min else max in
           let ms := Go.int (ms + min) in
           if min <? max
           then r <- RandIntn (Go.int (Go.int (max - min) + 1)) ;;
                ret (Go.int (ms + r))
           else ret ms
         else ret ms) ;;
  let tps := tokensPerSec cfg in
  let ms :=
    if 0 <? tps then
      let toks := ApproxTokens delta in
      let toks := if toks <? 1 then 1 else toks in
      let msPerTok := Z.quot 1000 tps in
      let msPerTok := if msPerTok <? 1 then 1 else msPerTok in
      Go.int (ms + Go.int (toks * msPerTok))
    else ms in
  let per := defaultInt (PerTokenDelayMs cfg) 0 in
  let ms :=
    if 0 <? per then
      let toks := ApproxTokens delta in
      let toks := if toks <? 1 then 1 else toks in
      Go.int (ms + Go.int (per * toks))
    else ms in
  ret ms.

(** [sleepStreamGap] *)
Definition sleepStreamGap (cfg : Config) (delta : gostring) : M unit :=
  ms <- streamGapMs cfg delta ;;
  sleepWithContext (Milliseconds ms).

(** [buildPromptForTokens] *)
Definition writeMessage (b : gostring) (m : ChatMessage) : gostring :=
  let role := strings.TrimSpace (Role m) in
  let content := strings.TrimSpace (Content m) in
  if gostring_eqb role [] && gostring_eqb content [] then b
  else
    let b := b ++ bytes "[" in
    let role := if gostring_eqb role [] then bytes "unknown" else role in
    b ++ role ++ bytes "]" ++ LF ++ content ++ LF ++ LF.

Definition buildPromptForTokens (req : ChatCompletionRequest) : gostring :=
  let b := [] in
  let sp := strings.TrimSpace (SystemPrompt req) in
  let b := if negb (gostring_eqb sp [])
           then b ++ bytes "[system]" ++ LF ++ sp ++ LF ++ LF else b in
  let b := fold_left writeMessage (Context req) b in
  let up := strings.TrimSpace (UserPrompt req) in
  if negb (gostring_eqb up []) then b ++ bytes "[user]" ++ LF ++ up else b.

(** ** The unary call *)

(** Integer division of [int32] values: a zero divisor panics. *)
Definition div32 (a b : Z) : M Z :=
  if b =? 0 then panic else ret (Go.int32 (Z.quot a b)).

(** [ChatCompletion]: the response and the error it returns. *)
Definition ChatCompletion (cfg : Config) (req : ChatCompletionRequest)
    : M (option ChatCompletionResponse * option error) :=
  start <- time_Now ;;
  fail <- shouldFail (ErrorRate cfg) ;;
  if fail then
    c <- pickGrpcErrorCode (ErrorMode cfg) ;;
    ret (None, Some (ErrStatus c (bytes "mock error")))
  else
    let maxTokens := MaxTokens req in
    let maxTokens :=
      if maxTokens <=? 0 then Go.int32 (defaultInt (DefaultTokens cfg) 128)
      else maxTokens in
    let effectiveMaxTokens := maxTokens in
    let prompt := buildPromptForTokens req in
    effectiveMaxTokens <-
      (if Randomize cfg
       then pickTargetTokens maxTokens (Z.of_nat (length (utf8.runes prompt)))
       else ret effectiveMaxTokens) ;;
    let out := BuildOutput prompt effectiveMaxTokens (EchoPrompt cfg)
                 (StrictTokenMode cfg) (DebugOutputChars cfg)
                 (MaxOutputChars cfg) in
    let pt := Go.int32 (ApproxTokens prompt) in
    let ct := Go.int32 (ApproxTokens out) in
    j <- jitterMs cfg ;;
    t <- ttftMs cfg ;;
    let computeMs := Go.int (Go.int (baseDelayMs cfg + j) + t) in
    let computeMs :=
      Go.int (computeMs + Go.int (perTokenDelayMs cfg ct * ct)) in
    computeMs <-
      (let tps := tokensPerSec cfg in
       if 0 <? tps then
         q <- div32 (Go.int32 (ct * 1000)) (Go.int32 tps) ;;
         ret (Go.int (computeMs + q))
       else ret computeMs) ;;
    sleepWithContext (Milliseconds computeMs) ;;;
    e <- ctxErr ;;
    match e with
    | Some e => ret (None, Some (ErrContext e))
    | None =>
      latency <- time_Since_ms start ;;
      ret (Some (mkResponse out (bytes "stop") pt ct (Go.int32 (pt + ct))
                            latency), None)
    end.

(** ** The streaming call *)

Definition deltaChunk (delta : gostring) : ChatCompletionChunkResponse :=
  mkChunk (bytes "output_text.delta") delta 0 [] 0 0 0 0.

Definition doneChunk (pt ct latency : Z) : ChatCompletionChunkResponse :=
  mkChunk (bytes "output_text.done") [] 0 (bytes "stop") pt ct
          (Go.int32 (pt + ct)) latency.

Definition failedChunk (reason : gostring) : ChatCompletionChunkResponse :=
  mkChunk (bytes "failed") [] 0 reason 0 0 0 0.

(** The chunk size of the stream: the configured size (12 when unset or
    not positive), varied by a third either way when randomizing. *)
Definition streamChunkSize (cfg : Config) : M Z :=
  let chunkSize := chunkSize cfg in
  let chunkSize := if chunkSize <=? 0 then 12 else chunkSize in
  if Randomize cfg then
    if 1 <? chunkSize then
      let j := Z.quot chunkSize 3 in
      let j := if j <? 1 then 1 else j in
      r <- RandIntn (Go.int (Go.int (j * 2) + 1)) ;;
      let chunkSize := Go.int (Go.int (chunkSize - j) + r) in
      ret (if chunkSize <? 1 then 1 else chunkSize)
    else ret chunkSize
  else ret chunkSize.

(** [for i := 0; i < len(out); i += chunkSize { ... }]: the loop ends by
    itself ([None]) or the function returns from inside it ([Some err]). *)
Fixpoint streamLoop (fuel : nat) (cfg : Config) (out : gostring)
    (chunkSize : Z) (i : Z) : M (option error) :=
  match fuel with
  | O => out_of_fuel
  | S f =>
    if i <? len out then
      d <- ctxErr ;;
      match d with
      | Some e => ret (Some (ErrContext e))
      | None =>
        let end_ := Go.int (i + chunkSize) in
        let end_ := if len out <? end_ then len out else end_ in
        delta <- orPanic (slice out i end_) ;;
        err <- Send (deltaChunk delta) ;;
        match err with
        | Some e => ret (Some e)
        | None =>
          sleepStreamGap cfg delta ;;;
          err <- ctxErr ;;
          match err with
          | Some e => ret (Some (ErrContext e))
          | None => streamLoop f cfg out chunkSize (Go.int (i + chunkSize))
          end
        end
      end
    else ret None
  end.

(** The plan of a stream once the first-token delay has passed: prompt,
    token budget, chunk size and output. *)
Definition streamPlan (cfg : Config) (req : ChatCompletionRequest)
    : M (gostring * gostring * Z) :=
  let maxTokens := MaxTokens req in
  let maxTokens :=
    if maxTokens <=? 0 then Go.int32 (defaultInt (DefaultTokens cfg) 128)
    else maxTokens in
  let effectiveMaxTokens := maxTokens in
  let prompt := buildPromptForTokens req in
  effectiveMaxTokens <-
    (if Randomize cfg
     then pickTargetTokens maxTokens (Z.of_nat (length (utf8.runes prompt)))
     else ret effectiveMaxTokens) ;;
  chunkSize <- streamChunkSize cfg ;;
  let out := BuildOutput prompt effectiveMaxTokens (EchoPrompt cfg)
               (StrictTokenMode cfg) (DebugOutputChars cfg)
               (MaxOutputChars cfg) in
  ret (prompt, out, chunkSize).

(** The body of [ChatCompletionStream], up to the value it returns. *)
Definition streamBody (cfg : Config) (req : ChatCompletionRequest)
    (start : Z) : M (option error) :=
  fail <- shouldFail (ErrorRate cfg) ;;
  if fail then
    c <- pickGrpcErrorCode (ErrorMode cfg) ;;
    ret (Some (ErrStatus c (bytes "mock error")))
  else
    j <- jitterMs cfg ;;
    t <- ttftMs cfg ;;
    let pre := Milliseconds (Go.int (Go.int (baseDelayMs cfg + j) + t)) in
    err <- (if 0 <? pre then sleepWithContext pre ;;; ctxErr else ret None) ;;
    match err with
    | Some e => ret (Some (ErrContext e))
    | None =>
      plan <- streamPlan cfg req ;;
      let '(prompt, out, chunkSize) := plan in
      let pt := Go.int32 (ApproxTokens prompt) in
      let ct := Go.int32 (ApproxTokens out) in
      err <- streamLoop (S (length out)) cfg out chunkSize 0 ;;
      match err with
      | Some e => ret (Some e)
      | None =>
        latency <- time_Since_ms start ;;
        Send (doneChunk pt ct latency)
      end
    end.

(** [ChatCompletionStream]: the body, then the deferred function, which
    hands a "failed" chunk to the stream whenever the error is not nil
    and discards the result of that [Send]. *)
Definition ChatCompletionStream (cfg : Config) (req : ChatCompletionRequest)
    : M (option error) :=
  start <- time_Now ;;
  err <- streamBody cfg req start ;;
  match err with
  | Some e => Send (failedChunk (Error e)) ;;; ret err
  | None => ret None
  end.

(** ** The text-event-stream front end *)

(** [http.Error]: the first status written stands; the message goes out
    as plain text followed by a newline. *)
Definition http_Error (msg : gostring) (code : Z) : M unit :=
  fun _ s =>
    let st := match status s with None => Some code | Some c => Some c end in
    let s := match status s with
             | Some _ => s
             | None => set_content_type (bytes "text/plain; charset=utf-8") s
             end in
    (Val tt, set_io (io_ops s) (buffered s) (body s ++ [FrameText (msg ++ LF)])
                    st s).

(** [w.Header().Set("Content-Type", v)] *)
Definition setContentType (v : gostring) : M unit :=
  fun _ s =>
    (Val tt, match status s with
             | Some _ => s
             | None => set_content_type v s
             end).

(** [fmt.Fprint(bw, ...)] and [fmt.Fprintf(bw, ...)]: the frame goes into
    the buffered writer; [false] when the write reports an error. *)
Definition Fprint (f : Frame) : M bool :=
  fun env s =>
    if io_err env (io_ops s)
    then (Val false, set_io (S (io_ops s)) (buffered s) (body s) (status s) s)
    else (Val true, set_io (S (io_ops s)) (buffered s ++ [f]) (body s)
                           (status s) s).

(** [writeSSE(bw, v)]: [json.Marshal(v)], written as a data frame. *)
Definition writeSSE (v : StreamChunk) : M bool :=
  Fprint (FrameData (json.Marshal v)).

(** [bw.Flush()]: what is buffered reaches the response, with status 200
    if none was written before. *)
Definition Flush : M bool :=
  fun env s =>
    if io_err env (io_ops s)
    then (Val false, set_io (S (io_ops s)) (buffered s) (body s) (status s) s)
    else (Val true,
          set_io (S (io_ops s)) [] (body s ++ buffered s)
                 (match status s with None => Some 200 | Some c => Some c end)
                 s).

(** [sleepSSEStreamGap] *)
Definition sleepSSEStreamGap (cfg : Config) (delta : gostring) : M unit :=
  ms <- streamGapMs cfg delta ;;
  sleepWithContext (Milliseconds ms).

Definition roleChunk (id : gostring) (created : Z) (model : gostring)
    : StreamChunk :=
  mkStreamChunk id (bytes "chat.completion.chunk") created model []
                (bytes "assistant") None.

Definition contentChunk (id : gostring) (created : Z) (model part : gostring)
    : StreamChunk :=
  mkStreamChunk id (bytes "chat.completion.chunk") created model part [] None.

Definition lastChunk (id : gostring) (created : Z) (model : gostring)
    : StreamChunk :=
  mkStreamChunk id (bytes "chat.completion.chunk") created model [] []
                (Some (bytes "stop")).

(** The chunk size of [serveChatCompletionSSE]. *)
Definition sseChunkSize (cfg : Config) (chunkSize : Z) : M Z :=
  let chunkSize := defaultInt chunkSize (defaultInt (ChunkSize cfg) 12) in
  if Randomize cfg && (1 <? chunkSize) then
    let j := Z.quot chunkSize 3 in
    let j := if j <? 1 then 1 else j in
    r <- RandIntn (Go.int (Go.int (j * 2) + 1)) ;;
    let chunkSize := Go.int (Go.int (chunkSize - j) + r) in
    ret (if chunkSize <? 1 then 1 else chunkSize)
  else ret chunkSize.

(** The content loop of [serveChatCompletionSSE]: [true] when the loop
    ends by itself, [false] when the function returns from inside it. *)
Fixpoint sseLoop (fuel : nat) (cfg : Config) (id : gostring) (created : Z)
    (model content : gostring) (chunkSize : Z) (i : Z) : M bool :=
  match fuel with
  | O => out_of_fuel
  | S f =>
    if i <? len content then
      d <- ctxErr ;;
      match d with
      | Some _ => ret false
      | None =>
        let end_ := Go.int (i + chunkSize) in
        let end_ := if len content <? end_ then len content else end_ in
        part <- orPanic (slice content i end_) ;;
        ok <- writeSSE (contentChunk id created model part) ;;
        if negb ok then ret false
        else
          ok <- Flush ;;
          if negb ok then ret false
          else
            sleepSSEStreamGap cfg part ;;;
            sseLoop f cfg id created model content chunkSize
                    (Go.int (i + chunkSize))
      end
    else ret true
  end.

(** [serveChatCompletionSSE] *)
Definition serveChatCompletionSSE (model prompt : gostring) (maxTokens : Z)
    (cfg : Config) (chunkSize : Z) : M unit :=
  fun env =>
  (if negb (can_flush env)
   then http_Error (bytes "streaming unsupported") 500
   else
     setContentType (bytes "text/event-stream") ;;;
     r <- RandID ;;
     let id := bytes "chatcmpl_mock_" ++ r in
     t <- time_Now ;;
     let created := Z.quot t 1000000000 in
     chunkSize <- sseChunkSize cfg chunkSize ;;
     let content := BuildOutput prompt maxTokens (EchoPrompt cfg)
                      (StrictTokenMode cfg) (DebugOutputChars cfg)
                      (MaxOutputChars cfg) in
     ok <- writeSSE (roleChunk id created model) ;;
     if negb ok then ret tt
     else
       ok <- Flush ;;
       if negb ok then ret tt
       else
         fin <- sseLoop (S (length content)) cfg id created model content
                        chunkSize 0 ;;
         if negb fin then ret tt
         else
           ok <- writeSSE (lastChunk id created model) ;;
           if negb ok then ret tt
           else
             ok <- Fprint FrameDone ;;
             if negb ok then ret tt
             else Flush ;;; ret tt) env.

(** [ChatCompletionSSEHandler(cfg)], applied to the query of a request. *)
Definition ChatCompletionSSEHandler (cfg : Config) (q : url.Values) : M unit :=
  let model := url.Get q (bytes "model") in
  let model := if gostring_eqb model [] then bytes "mock-sse" else model in
  let prompt := url.Get q (bytes "prompt") in
  if gostring_eqb prompt [] then
    http_Error (bytes "prompt is required") 400
  else
    let maxTokens := DefaultTokens cfg in
    let maxTokens :=
      let v := url.Get q (bytes "max_tokens") in
      if negb (gostring_eqb v []) then
        match strconv.Atoi v with Some n => n | None => maxTokens end
      else maxTokens in
    let chunkSize := ChunkSize cfg in
    let chunkSize :=
      let v := url.Get q (bytes "chunk_size") in
      if negb (gostring_eqb v []) then
        match strconv.Atoi v with Some n => n | None => chunkSize end
      else chunkSize in
    serveChatCompletionSSE model prompt maxTokens cfg chunkSize.

(** ** Package config *)

(** The process environment as [os.Getenv] reads it: the value of a
    variable, the empty string when it is not set. *)
Definition Environ : Type := gostring -> gostring.

(** [getEnvInt] *)
Definition getEnvInt (getenv : Environ) (k : gostring) (def : Z) : Z :=
  let v := getenv k in
  if negb (gostring_eqb v []) then
    match strconv.Atoi v with Some n => n | None => def end
  else def.

(** [getEnvFloat]; [strconv.ParseFloat(v, 64)] is a parameter. *)
Definition getEnvFloat (getenv : Environ)
    (strconv_ParseFloat : gostring -> option float64)
    (k : gostring) (def : float64) : float64 :=
  let v := getenv k in
  if negb (gostring_eqb v []) then
    match strconv_ParseFloat v with Some f => f | None => def end
  else def.

(** [getEnvStr] *)
Definition getEnvStr (getenv : Environ) (k def : gostring) : gostring :=
  let v := getenv k in
  if negb (gostring_eqb v []) then v else def.

(** [getBool] *)
Definition getBool (getenv : Environ) (k : gostring) (def : bool) : bool :=
  let v := getenv k in
  if negb (gostring_eqb v []) then
    let l := strings.ToLower unicode_ToLower v in
    if gostring_eqb l (bytes "1") || gostring_eqb l (bytes "true")
       || gostring_eqb l (bytes "yes") || gostring_eqb l (bytes "y")
       || gostring_eqb l (bytes "on")
    then true
    else if gostring_eqb l (bytes "0") || gostring_eqb l (bytes "false")
            || gostring_eqb l (bytes "no") || gostring_eqb l (bytes "n")
            || gostring_eqb l (bytes "off")
    then false
    else def
  else def.

(** [LoadConfig] *)
Definition LoadConfig (getenv : Environ)
    (strconv_ParseFloat : gostring -> option float64) : Config :=
  {| Port := getEnvInt getenv (bytes "PORT") 8787;
     Profile := getEnvStr getenv (bytes "PROFILE") (bytes "default");
     Preset := strings.ToLower unicode_ToLower
                 (getEnvStr getenv (bytes "PRESET") (bytes "openai"));
     BaseDelayMs := getEnvInt getenv (bytes "BASE_DELAY_MS") 0;
     JitterMs := getEnvInt getenv (bytes "JITTER_MS") 0;
     PerTokenDelayMs := getEnvInt getenv (bytes "PER_TOKEN_DELAY_MS") 0;
     ErrorRate := getEnvFloat getenv strconv_ParseFloat (bytes "ERROR_RATE")
                              F64.c0_0;
     ErrorMode := strings.ToLower unicode_ToLower
                    (getEnvStr getenv (bytes "ERROR_MODE") (bytes "mixed"));
     DefaultTokens := getEnvInt getenv (bytes "DEFAULT_TOKENS") 128;
     ChunkSize := getEnvInt getenv (bytes "CHUNK_SIZE") 12;
     StreamDelayMinMs := getEnvInt getenv (bytes "STREAM_DELAY_MIN_MS") 0;
     StreamDelayMaxMs := getEnvInt getenv (bytes "STREAM_DELAY_MAX_MS") 0;
     EchoPrompt := getBool getenv (bytes "ECHO_PROMPT") false;
     Randomize := getBool getenv (bytes "RANDOMIZE") false;
     TTFTMinMs := getEnvInt getenv (bytes "TTFT_MIN_MS") 0;
     TTFTMaxMs := getEnvInt getenv (bytes "TTFT_MAX_MS") 0;
     TokensPerSec := getEnvInt getenv (bytes "TOKENS_PER_SEC") 120;
     DebugOutputChars := getEnvInt getenv (bytes "DEBUG_OUTPUT_CHARS") 0;
     MaxOutputChars := getEnvInt getenv (bytes "MAX_OUTPUT_CHARS") 16384;
     StrictTokenMode := getBool getenv (bytes "STRICT_TOKEN_MODE") true |}.

(** The eight assignments of one case of [ApplyPresetOverrides]. *)
Definition setPreset (cfg : Config)
    (ttftMin ttftMax tps chunk delayMin delayMax maxOut : Z) : Config :=
  {| Port := Port cfg;
     Profile := Profile cfg;
     Preset := Preset cfg;
     BaseDelayMs := BaseDelayMs cfg;
     JitterMs := JitterMs cfg;
     PerTokenDelayMs := PerTokenDelayMs cfg;
     ErrorRate := ErrorRate cfg;
     ErrorMode := ErrorMode cfg;
     DefaultTokens := DefaultTokens cfg;
     ChunkSize := chunk;
     StreamDelayMinMs := delayMin;
     StreamDelayMaxMs := delayMax;
     EchoPrompt := EchoPrompt cfg;
     Randomize := Randomize cfg;
     TTFTMinMs := ttftMin;
     TTFTMaxMs := ttftMax;
     TokensPerSec := tps;
     DebugOutputChars := DebugOutputChars cfg;
     MaxOutputChars := maxOut;
     StrictTokenMode := true |}.

(** [ApplyPresetOverrides(&cfg)]: the configuration it leaves in [cfg]. *)
Definition ApplyPresetOverrides (cfg : Config) : Config :=
  if gostring_eqb (Preset cfg) (bytes "openai")
  then setPreset cfg 120 800 35 16 8 45 12288
  else if gostring_eqb (Preset cfg) (bytes "vllm")
  then setPreset cfg 30 200 90 48 0 15 16384
  else if gostring_eqb (Preset cfg) (bytes "hybrid")
  then setPreset cfg 120 700 35 16 8 50 12288
  else cfg.

(** The configuration [main] starts the service with:
    [cfg := config.LoadConfig(); config.ApplyPresetOverrides(&cfg)]. *)
Definition main_cfg (getenv : Environ)
    (strconv_ParseFloat : gostring -> option float64) : Config :=
  ApplyPresetOverrides (LoadConfig getenv strconv_ParseFloat).

(** ** Vocabulary of the specification *)

(** [ceil(a / b)] *)
Definition ceil_div (a b : Z) : Z := - ((- a) / b).

(** [runeLength(text)] *)
Definition runeLength (s : gostring) : Z := Z.of_nat (length (utf8.runes s)).

(** The target length the specification gives for [buildOutput], its
    ceiling ([None]: unbounded) and the clamp of a target between the
    floor and the ceiling. *)
Definition spec_target (strictTokenMode : bool) (debugChars maxTokens : Z) : Z :=
  if strictTokenMode then (if maxTokens <=? 0 then 128 else maxTokens) * 4
  else if debugChars =? 0 then 512 else debugChars.

Definition spec_ceiling (maxChars : Z) : option Z :=
  if maxChars =? 0 then Some 4096
  else if maxChars <? 0 then None else Some maxChars.

Definition clamp (target floor : Z) (ceiling : option Z) : Z :=
  match ceiling with
  | Some c => Z.min (Z.max target floor) c
  | None => Z.max target floor
  end.

(** The consecutive slices of [s] of [size] bytes, the last one possibly
    shorter: the chunks the specification plans. *)
Fixpoint chunksOf_aux (fuel size : nat) (s : gostring) : list gostring :=
  match fuel with
  | O => []
  | S f =>
    match s with
    | [] => []
    | _ :: _ => firstn size s :: chunksOf_aux f size (skipn size s)
    end
  end.

Definition chunksOf (size : Z) (s : gostring) : list gostring :=
  chunksOf_aux (length s) (Z.to_nat size) s.

(** The texts of the content chunks handed to [stream.Send]. *)
Definition isDelta (c : ChatCompletionChunkResponse) : bool :=
  gostring_eqb (Type_ c) (bytes "output_text.delta").

Definition contentTexts (l : list ChatCompletionChunkResponse) : list gostring :=
  map Text (filter isDelta l).

(** The texts of the content events of a text-event-stream body: the data
    frames that carry neither a role nor a finish reason. *)
Definition isContentFrame (f : Frame) : bool :=
  match f with
  | FrameData c =>
    gostring_eqb (DeltaRole c) [] &&
    match ChoiceFinishReason c with None => true | Some _ => false end
  | _ => false
  end.

(** The content text a frame carries to the client. *)
Definition frameText (f : Frame) : gostring :=
  match f with
  | FrameData c => DeltaContent c
  | _ => []
  end.

Definition sseContentTexts (l : list Frame) : list gostring :=
  map frameText (filter isContentFrame l).

Definition isStreamFrame (f : Frame) : bool :=
  match f with
  | FrameText _ => false
  | _ => true
  end.

(** What the chunk loop of the stream does with the planned chunks [cl]
    when every [Send] succeeds and [h] messages went out before: the error
    it returns from inside the loop, if any, and the chunks it sends. *)
Definition loopOutcome (done : option (nat * ctxError)) (h : nat)
    (cl : list gostring) : option error * list gostring :=
  match done with
  | None => (None, cl)
  | Some (n, e) =>
    match cl with
    | [] => (None, [])
    | _ :: _ =>
      if (n <=? h + length cl)%nat
      then (Some (ErrContext e), firstn (n - h) cl)
      else (None, cl)
    end
  end.

(** A computation that always ends with a value satisfying [P] and
    changes nothing but the position of the generator. *)
Definition rng_only {A} (c : M A) (P : A -> Prop) : Prop :=
  forall env st, exists v p, c env st = (Val v, set_rng_pos p st) /\ P v.

(** ** Assumptions on the surroundings of a call *)

(** The request carries an [int32] token budget. *)
Definition Request_wf (req : ChatCompletionRequest) : Prop :=
  Go.is_int32 (MaxTokens req).

(** Whatever the token budget, the output the configuration asks for is a
    string the run-time can hold. *)
Definition outputFits (cfg : Config) : Prop :=
  forall maxTokens, Go.is_int32 maxTokens ->
    targetLen maxTokens (StrictTokenMode cfg) (DebugOutputChars cfg)
              (MaxOutputChars cfg) < Go.maxAlloc.

(** The transport accepts every message. *)
Definition sendsSucceed (env : Env) : Prop := forall k, send_err env k = None.

(** No write and no flush of the response fails, and the response can be
    flushed. *)
Definition writesSucceed (env : Env) : Prop :=
  can_flush env = true /\ forall k, io_err env k = false.

(** The error injector lets the call pass. *)
Definition noInject (cfg : Config) (env : Env) : Prop :=
  fst (shouldFail (ErrorRate cfg) env init) = Val false.

(** The token budget and the chunk size of a stream without
    randomization. *)
Definition baseTokens (cfg : Config) (req : ChatCompletionRequest) : Z :=
  if MaxTokens req <=? 0 then Go.int32 (defaultInt (DefaultTokens cfg) 128)
  else MaxTokens req.

Definition baseChunkSize (cfg : Config) : Z :=
  if chunkSize cfg <=? 0 then 12 else chunkSize cfg.

(** The output of a call with effective token budget [eff]. *)
Definition outputOf (cfg : Config) (prompt : gostring) (eff : Z) : gostring :=
  BuildOutput prompt eff (EchoPrompt cfg) (StrictTokenMode cfg)
              (DebugOutputChars cfg) (MaxOutputChars cfg).

(** The chunk size the text-event-stream front end starts from. *)
Definition sseBaseChunkSize (cfg : Config) (chunkSize : Z) : Z :=
  defaultInt chunkSize (defaultInt (ChunkSize cfg) 12).

(** The data frames of the stream [id], as [writeSSE] writes them. *)
Definition roleFrame (id : gostring) (created : Z) (model : gostring) : Frame :=
  FrameData (json.Marshal (roleChunk id created model)).

Definition contentFrame (id : gostring) (created : Z) (model part : gostring)
    : Frame :=
  FrameData (json.Marshal (contentChunk id created model part)).

Definition lastFrame (id : gostring) (created : Z) (model : gostring) : Frame :=
  FrameData (json.Marshal (lastChunk id created model)).

(** A text that [json.Marshal] leaves as it is: well-formed UTF-8. A slice
    of a text that starts or ends inside a multi-byte character is not. *)
Definition intact (s : gostring) : bool :=
  gostring_eqb (json.validString s) s.

(** No slice of [out] at the size [cs] starts or ends inside a multi-byte
    character. *)
Definition chunksIntact (cs : Z) (out : gostring) : Prop :=
  forallb intact (chunksOf cs out) = true.

(** A message other than the terminal "failed" event. *)
Definition notFailed (c : ChatCompletionChunkResponse) : Prop :=
  Type_ c <> bytes "failed".

(** [st'] extends the messages of [st] by messages that are not "failed"
    events. *)
Definition sent_ext (st st' : State) : Prop :=
  exists l, sent st' = sent st ++ l /\ Forall notFailed l.

Definition preserves {A} (c : M A) : Prop :=
  forall env st, sent_ext st (snd (c env st)).

(** The order of the chunks: the [k]-th text is the [k]-th slice. *)
Definition inOrder (cs : Z) (out : gostring) (texts : list gostring) : Prop :=
  forall k, (k < length texts)%nat ->
    nth k texts [] = firstn (Z.to_nat cs) (skipn (k * Z.to_nat cs) out).

(** What the specification asks of the content chunks of an output. *)
Definition chunkProps (cs : Z) (out : gostring) (texts : list gostring) : Prop :=
  1 <= cs /\
  concat texts = out /\
  Z.of_nat (length texts) = ceil_div (len out) cs /\
  Forall (fun c => 1 <= len c <= cs) texts /\
  inOrder cs out texts.


(** A postcondition on the value of a computation, when it ends with one. *)
Definition post {A} (c : M A) (Q : A -> Prop) : Prop :=
  forall env st, match fst (c env st) with Val a => Q a | _ => True end.

(** The divisor of the generation time of the unary call is not zero. *)
Definition tpsDivides (cfg : Config) : Prop :=
  tokensPerSec cfg <= 0 \/ Go.int32 (tokensPerSec cfg) <> 0.

(** A fraction constant of [pickTargetTokens]: a positive normal float
    that is at most 1 and at least 1/32. *)
Definition frac (c : float64) : Prop :=
  exists mc ec, c = S754_finite false mc ec /\
    Z.pos mc < 2 ^ 53 /\ -57 <= ec <= -52 /\ Z.pos mc <= 2 ^ (- ec).

(** The absolute token bounds of a bucket of [pickTargetTokens]: the
    fractions of [M], the lower one floored at 1. *)
Definition bucketRange (M : Z) (minF maxF : float64) : Z * Z :=
  let minT := Z.max 1 (F64.to_int32 (F64.mul (F64.of_int M) minF)) in
  let maxT := Z.max minT (F64.to_int32 (F64.mul (F64.of_int M) maxF)) in
  (minT, maxT).

(** short 5-22%, normal 22-62%, long 62-92%, maxed 92-100% *)
Definition buckets : list (float64 * float64) :=
  [(F64.c0_05, F64.c0_22); (F64.c0_22, F64.c0_62);
   (F64.c0_62, F64.c0_92); (F64.c0_92, F64.c1_00)].

(** The echo prefix of [BuildOutput]:
    [fmt.Sprintf("Mock answer for: %q\n\n", trim(prompt, 140))]. *)
Definition echoPrefix (prompt : gostring) : gostring :=
  bytes "Mock answer for: " ++ strconv_Quote (trim prompt 140) ++ LF ++ LF.

(** The HTTP status that stands for a gRPC failure class. *)
Definition statusCode (c : Code) : Z :=
  match c with
  | ResourceExhausted => 429
  | Internal => 500
  end.

(** The form in which [pickGrpcErrorCode] reads an error mode, and the
    modes it knows. *)
Definition normalMode (mode : gostring) : gostring :=
  strings.ToLower unicode_ToLower (strings.TrimSpace mode).

Definition grpcAliases : list gostring :=
  [bytes "429"; bytes "resource_exhausted"; bytes "rate_limit";
   bytes "rate limit"; bytes "500"; bytes "internal"; bytes "server_error"].

(** The presets [ApplyPresetOverrides] knows, and the environment
    variables whose fields it overwrites. *)
Definition presets : list gostring :=
  [bytes "openai"; bytes "vllm"; bytes "hybrid"].

Definition presetKeys : list gostring :=
  [bytes "TTFT_MIN_MS"; bytes "TTFT_MAX_MS"; bytes "TOKENS_PER_SEC";
   bytes "CHUNK_SIZE"; bytes "STREAM_DELAY_MIN_MS";
   bytes "STREAM_DELAY_MAX_MS"; bytes "MAX_OUTPUT_CHARS";
   bytes "STRICT_TOKEN_MODE"].

(** What the content loop of the text-event stream does with the planned
    chunks [cl] when no write fails and [h] frames went out before:
    whether it runs to its end, and the chunks it writes. The context is
    looked at before each chunk only. *)
Definition sseOutcome (done : option (nat * ctxError)) (h : nat)
    (cl : list gostring) : bool * list gostring :=
  match done with
  | None => (true, cl)
  | Some (n, _) =>
    if (n - h <? length cl)%nat then (false, firstn (n - h) cl)
    else (true, cl)
  end.

(** What a computation adds to the messages handed to the transport,
    together with the way it ends. *)
Definition emits {A} (c : M A)
    (Q : Res A -> list ChatCompletionChunkResponse -> Prop) : Prop :=
  forall env st,
    exists l, sent (snd (c env st)) = sent st ++ l /\ Q (fst (c env st)) l.

(** Content chunks and nothing else. *)
Definition onlyDeltas (l : list ChatCompletionChunkResponse) : Prop :=
  exists ds, l = map deltaChunk ds.

(** A description of messages that stays true when content chunks are
    sent before them, and that allows a run cut short after content
    chunks. *)
Definition prefixClosed {A}
    (Q : Res A -> list ChatCompletionChunkResponse -> Prop) : Prop :=
  (forall r l ds, Q r l -> Q r (map deltaChunk ds ++ l)) /\
  (forall ds, Q Panic (map deltaChunk ds)) /\
  (forall ds, Q OutOfFuel (map deltaChunk ds)).

(** The messages of the body of a stream: content chunks, followed by the
    "done" event when the body returns no error, and possibly by it when
    the body returns one (the error of that very [Send]). *)
Definition bodyMessages (r : Res (option error))
    (l : list ChatCompletionChunkResponse) : Prop :=
  exists ds tail,
    l = map deltaChunk ds ++ tail /\
    match r with
    | Val None => exists pt ct latency, tail = [doneChunk pt ct latency]
    | Val (Some _) =>
      tail = [] \/ exists pt ct latency, tail = [doneChunk pt ct latency]
    | _ => tail = []
    end.

(** The frames given to the buffered writer of the response so far,
    flushed or not. *)
Definition written (s : State) : list Frame := body s ++ buffered s.

(** What a computation adds to the frames given to the buffered writer,
    together with the way it ends. *)
Definition writes {A} (c : M A) (Q : Res A -> list Frame -> Prop) : Prop :=
  forall env st,
    exists l, written (snd (c env st)) = written st ++ l /\ Q (fst (c env st)) l.

(** The ways the text-event stream [id] can end after its content chunks:
    cut short, with the closing chunk, or with the closing chunk and the
    [DONE] marker. *)
Definition sseTail (id : gostring) (created : Z) (model : gostring)
    (tail : list Frame) : Prop :=
  tail = [] \/
  tail = [lastFrame id created model] \/
  tail = [lastFrame id created model; FrameDone].

(** Content frames of the stream [id], then one of its endings. *)
Definition sseFrames (id : gostring) (created : Z) (model : gostring)
    (l : list Frame) : Prop :=
  exists parts tail,
    l = map (contentFrame id created model) parts ++ tail /\
    sseTail id created model tail.

(** A text that is empty once [strings.TrimSpace] has gone over it. *)
Definition blank (s : gostring) : Prop := strings.TrimSpace s = [].

(** The environment variables [LoadConfig] reads as integers, and the
    configuration of an environment that sets nothing. *)
Definition intKeys : list gostring :=
  [bytes "PORT"; bytes "BASE_DELAY_MS"; bytes "JITTER_MS";
   bytes "PER_TOKEN_DELAY_MS"; bytes "DEFAULT_TOKENS"; bytes "CHUNK_SIZE";
   bytes "STREAM_DELAY_MIN_MS"; bytes "STREAM_DELAY_MAX_MS";
   bytes "TTFT_MIN_MS"; bytes "TTFT_MAX_MS"; bytes "TOKENS_PER_SEC";
   bytes "DEBUG_OUTPUT_CHARS"; bytes "MAX_OUTPUT_CHARS"].

Definition defaultConfig : Config :=
  mkConfig 8787 (bytes "default") (bytes "openai") 0 0 0 F64.c0_0
           (bytes "mixed") 128 12 0 0 false false 0 0 120 0 16384 true.

(** A message of a [mock.ChatRequest] with role "user". *)
Definition isUser (m : ChatMessage) : bool :=
  gostring_eqb (Role m) (bytes "user").

(** * Properties *)

(** Case analysis on the innermost test of a conditional, and the
    comparisons read as propositions. *)
Ltac break_if :=
  match goal with
  | |- context [if ?b then _ else _] =>
    lazymatch b with
    | context [if _ then _ else _] => fail
    | _ => destruct b eqn:?
    end
  | H : context [if ?b then _ else _] |- _ =>
    lazymatch b with
    | context [if _ then _ else _] => fail
    | _ => destruct b eqn:?
    end
  end.

Ltac to_prop :=
  repeat match goal with
         | H : (_ && _)%bool = true |- _ => apply andb_prop in H; destruct H
         | H : (_ && _)%bool = false |- _ => apply andb_false_iff in H; destruct H
         | H : (_ || _)%bool = false |- _ => apply orb_false_iff in H; destruct H
         | H : (_ <? _) = true |- _ => apply Z.ltb_lt in H
         | H : (_ <? _) = false |- _ => apply Z.ltb_ge in H
         | H : (_ <=? _) = true |- _ => apply Z.leb_le in H
         | H : (_ <=? _) = false |- _ => apply Z.leb_gt in H
         | H : (_ =? _) = true |- _ => apply Z.eqb_eq in H
         | H : (_ =? _) = false |- _ => apply Z.eqb_neq in H
         end.

(** ** Machine integers *)

Lemma wrap_id (w z : Z) :
  0 < w -> - 2 ^ (w - 1) <= z < 2 ^ (w - 1) -> Go.wrap w z = z.
Proof.
  intros Hw Hz. unfold Go.wrap.
  assert (E : 2 ^ w = 2 * 2 ^ (w - 1)).
  { replace w with (Z.succ (w - 1)) at 1 by lia. apply Z.pow_succ_r. lia. }
  rewrite Z.mod_small; lia.
Qed.

Lemma int_id (z : Z) : Go.is_int z -> Go.int z = z.
Proof.
  unfold Go.is_int, Go.min_int, Go.max_int, Go.int. intros H.
  apply wrap_id; simpl in *; lia.
Qed.

Lemma int32_id (z : Z) : Go.is_int32 z -> Go.int32 z = z.
Proof.
  unfold Go.is_int32, Go.min_int32, Go.max_int32, Go.int32. intros H.
  apply wrap_id; simpl in *; lia.
Qed.

Lemma int_small (z : Z) : - 2 ^ 63 <= z < 2 ^ 63 -> Go.int z = z.
Proof. intros H. apply int_id. unfold Go.is_int, Go.min_int, Go.max_int. lia. Qed.

Lemma int32_small (z : Z) : - 2 ^ 31 <= z < 2 ^ 31 -> Go.int32 z = z.
Proof.
  intros H. apply int32_id.
  unfold Go.is_int32, Go.min_int32, Go.max_int32. lia.
Qed.

Lemma int_is_int (z : Z) : Go.is_int (Go.int z).
Proof.
  unfold Go.is_int, Go.min_int, Go.max_int, Go.int, Go.wrap.
  pose proof (Z.mod_pos_bound (z + 2 ^ (64 - 1)) (2 ^ 64) ltac:(lia)).
  simpl in *. lia.
Qed.

Lemma len_app (s t : gostring) : len (s ++ t) = len s + len t.
Proof. unfold len. rewrite length_app. lia. Qed.

Lemma len_nonneg (s : gostring) : 0 <= len s.
Proof. unfold len. lia. Qed.

(** ** Token estimate *)

Lemma runes_from_length (s : gostring) :
  forall skip, (length (utf8.runes_from skip s) <= length s)%nat.
Proof.
  induction s as [|c t IH]; intros skip; [simpl; lia|].
  cbn [utf8.runes_from]. destruct skip as [|k].
  - destruct (utf8.DecodeRuneInString (c :: t)) as [r w].
    cbn [length]. specialize (IH (w - 1)%nat). lia.
  - cbn [length]. specialize (IH k). lia.
Qed.

Lemma runes_length_le (s : gostring) :
  (length (utf8.runes s) <= length s)%nat.
Proof. apply runes_from_length. Qed.

(** A text with [r] runes is estimated at the least [k] with [r <= 4 k]. *)
Lemma ApproxTokens_ceil (s : gostring) :
  len s < Go.maxAlloc ->
  let r := Z.of_nat (length (utf8.runes s)) in
  4 * (ApproxTokens s - 1) < r <= 4 * ApproxTokens s.
Proof.
  intros Hfit r. subst r. unfold ApproxTokens.
  destruct s as [|c t]; [simpl; lia|].
  set (r := Z.of_nat (length (utf8.runes (c :: t)))).
  assert (Hr : 0 <= r <= len (c :: t)).
  { unfold r, len. pose proof (runes_length_le (c :: t)). lia. }
  unfold Go.maxAlloc in Hfit.
  rewrite int_small by lia.
  rewrite Z.quot_div_nonneg by lia.
  pose proof (Z.div_mod (r + 3) 4 ltac:(lia)).
  pose proof (Z.mod_pos_bound (r + 3) 4 ltac:(lia)).
  lia.
Qed.

(** ** Output synthesizer *)

Lemma fill_reaches (fuel : nat) :
  forall s target,
    target - len s <= Z.of_nat fuel -> target <= len (fill fuel s target).
Proof.
  induction fuel as [|f IH]; intros s target H.
  - simpl. lia.
  - cbn [fill]. destruct (len s <? target) eqn:E.
    + apply IH. rewrite len_app. apply Z.ltb_lt in E.
      change (len mock_token) with 13. lia.
    + apply Z.ltb_ge in E. exact E.
Qed.

Lemma targetLen_pos (maxTokens : Z) (strict : bool) (debugChars maxChars : Z) :
  1 <= targetLen maxTokens strict debugChars maxChars.
Proof.
  unfold targetLen.
  repeat match goal with
         | |- context [if ?b then _ else _] => destruct b eqn:?
         end;
  repeat match goal with
         | H : (_ && _)%bool = true |- _ => apply andb_prop in H; destruct H
         | H : (_ <? _) = true |- _ => apply Z.ltb_lt in H
         | H : (_ <? _) = false |- _ => apply Z.ltb_ge in H
         end; lia.
Qed.

(** The output has exactly the target length, whatever the prefix. *)
Lemma BuildOutput_len (prompt : gostring) (maxTokens : Z) (echo strict : bool)
    (debugChars maxChars : Z) :
  len (BuildOutput prompt maxTokens echo strict debugChars maxChars)
  = targetLen maxTokens strict debugChars maxChars.
Proof.
  unfold BuildOutput.
  set (target := targetLen maxTokens strict debugChars maxChars).
  pose proof (targetLen_pos maxTokens strict debugChars maxChars) as Hpos.
  fold target in Hpos.
  match goal with
  | |- len (firstn _ (fill _ ?s0 _)) = _ =>
    pose proof (fill_reaches (Z.to_nat target) s0 target) as Hfill
  end.
  unfold len in *. rewrite length_firstn.
  match type of Hfill with
  | ?P -> _ => assert (HP : P) by lia; specialize (Hfill HP)
  end.
  lia.
Qed.

(** ** Chunk planner *)

Lemma ceil_div_spec (a b : Z) :
  0 < b -> (ceil_div a b - 1) * b < a <= ceil_div a b * b.
Proof.
  intros Hb. unfold ceil_div.
  pose proof (Z.div_mod (- a) b ltac:(lia)).
  pose proof (Z.mod_pos_bound (- a) b Hb). nia.
Qed.

Lemma ceil_div_unique (a b n : Z) :
  0 < b -> (n - 1) * b < a <= n * b -> ceil_div a b = n.
Proof.
  intros Hb Hn. pose proof (ceil_div_spec a b Hb). nia.
Qed.

Section Chunks.

Variable size : nat.
Hypothesis size_pos : (1 <= size)%nat.

Lemma chunksOf_aux_concat (fuel : nat) :
  forall s, (length s <= fuel)%nat -> concat (chunksOf_aux fuel size s) = s.
Proof.
  induction fuel as [|f IH]; intros s H.
  - destruct s; [reflexivity | simpl in H; lia].
  - destruct s as [|c t]; [reflexivity|].
    cbn [chunksOf_aux concat]. rewrite IH.
    + apply firstn_skipn.
    + rewrite length_skipn. cbn [length] in *. lia.
Qed.

Lemma chunksOf_aux_sizes (fuel : nat) :
  forall s, Forall (fun c => (1 <= length c <= size)%nat)
                   (chunksOf_aux fuel size s).
Proof.
  induction fuel as [|f IH]; intros s; [constructor|].
  destruct s as [|c t]; [constructor|].
  cbn [chunksOf_aux]. constructor; [|apply IH].
  rewrite length_firstn. cbn [length]. lia.
Qed.

Lemma chunksOf_aux_count (fuel : nat) :
  forall s, (length s <= fuel)%nat ->
    Z.of_nat (length (chunksOf_aux fuel size s))
    = ceil_div (len s) (Z.of_nat size).
Proof.
  induction fuel as [|f IH]; intros s H.
  - destruct s; [|simpl in H; lia]. reflexivity.
  - destruct s as [|c t]; [reflexivity|].
    cbn [chunksOf_aux length]. rewrite Nat2Z.inj_succ, IH.
    + symmetry. apply ceil_div_unique; [lia|].
      pose proof (ceil_div_spec (len (skipn size (c :: t))) (Z.of_nat size)
                                ltac:(lia)) as Hc.
      assert (Hl : len (skipn size (c :: t))
                   = Z.max 0 (len (c :: t) - Z.of_nat size)).
      { unfold len. rewrite length_skipn. lia. }
      assert (Hpos : 1 <= len (c :: t)) by (unfold len; cbn [length]; lia).
      destruct (Z.le_gt_cases (len (c :: t)) (Z.of_nat size)) as [Hle|Hgt].
      * rewrite Z.max_l in Hl by lia. rewrite Hl in Hc.
        assert (ceil_div 0 (Z.of_nat size) = 0)
          by (apply ceil_div_unique; lia).
        rewrite Hl. nia.
      * rewrite Z.max_r in Hl by lia. rewrite Hl in *. nia.
    + rewrite length_skipn. cbn [length] in *. lia.
Qed.

Lemma chunksOf_aux_fuel (fuel1 : nat) :
  forall fuel2 s, (length s <= fuel1)%nat -> (length s <= fuel2)%nat ->
    chunksOf_aux fuel1 size s = chunksOf_aux fuel2 size s.
Proof.
  induction fuel1 as [|f1 IH]; intros fuel2 s H1 H2.
  - destruct s; [|simpl in H1; lia]. destruct fuel2; reflexivity.
  - destruct s as [|c t]; [destruct fuel2; reflexivity|].
    destruct fuel2 as [|f2]; [simpl in H2; lia|].
    cbn [chunksOf_aux]. f_equal. apply IH; rewrite length_skipn; cbn [length] in *; lia.
Qed.

End Chunks.

Lemma chunksOf_nil (size : Z) : chunksOf size [] = [].
Proof. reflexivity. Qed.

Lemma chunksOf_cons (size : Z) (s : gostring) :
  1 <= size -> s <> [] ->
  chunksOf size s
  = firstn (Z.to_nat size) s :: chunksOf size (skipn (Z.to_nat size) s).
Proof.
  intros Hs Hne. unfold chunksOf. destruct s as [|c t]; [congruence|].
  cbn [length chunksOf_aux]. f_equal.
  apply chunksOf_aux_fuel; [lia | | lia].
  rewrite length_skipn. cbn [length]. lia.
Qed.

Lemma chunksOf_concat (size : Z) (s : gostring) :
  1 <= size -> concat (chunksOf size s) = s.
Proof. intros H. apply chunksOf_aux_concat; lia. Qed.

Lemma chunksOf_sizes (size : Z) (s : gostring) :
  1 <= size -> Forall (fun c => 1 <= len c <= size) (chunksOf size s).
Proof.
  intros H. unfold chunksOf.
  pose proof (chunksOf_aux_sizes (Z.to_nat size) ltac:(lia) (length s) s) as F.
  eapply Forall_impl; [|exact F]. cbv beta. unfold len. intros c Hc. lia.
Qed.

Lemma chunksOf_count (size : Z) (s : gostring) :
  1 <= size -> Z.of_nat (length (chunksOf size s)) = ceil_div (len s) size.
Proof.
  intros H. unfold chunksOf. rewrite chunksOf_aux_count by lia.
  rewrite Z2Nat.id by lia. reflexivity.
Qed.

(** ** Computations that only draw random numbers *)

Lemma set_rng_pos_self (st : State) : set_rng_pos (rng_pos st) st = st.
Proof. destruct st; reflexivity. Qed.

Lemma rng_only_ret {A} (a : A) (P : A -> Prop) : P a -> rng_only (ret a) P.
Proof.
  intros H env st. exists a, (rng_pos st). split; [|exact H].
  unfold ret. now rewrite set_rng_pos_self.
Qed.

Lemma rng_only_bind {A B} (c : M A) (k : A -> M B) (P : A -> Prop)
    (Q : B -> Prop) :
  rng_only c P -> (forall a, P a -> rng_only (k a) Q) -> rng_only (bind c k) Q.
Proof.
  intros Hc Hk env st. destruct (Hc env st) as (a & p & E & Ha).
  destruct (Hk a Ha env (set_rng_pos p st)) as (b & q & E' & Hb).
  exists b, q. split; [|exact Hb]. unfold bind. rewrite E, E'. reflexivity.
Qed.

Lemma rng_only_weaken {A} (c : M A) (P Q : A -> Prop) :
  rng_only c P -> (forall a, P a -> Q a) -> rng_only c Q.
Proof.
  intros Hc HPQ env st. destruct (Hc env st) as (a & p & E & Ha).
  exists a, p. auto.
Qed.

Lemma RandIntn_rng (n : Z) :
  rng_only (RandIntn n) (fun v => (0 < n -> 0 <= v < n) /\ (n <= 0 -> v = 0)).
Proof.
  unfold RandIntn. destruct (n <=? 0) eqn:E.
  - apply rng_only_ret. apply Z.leb_le in E. split; [lia | reflexivity].
  - apply Z.leb_gt in E. intros env st.
    exists (rng_int env (rng_pos st) mod n), (S (rng_pos st)).
    split; [reflexivity|]. split; [|lia].
    intros _. apply Z.mod_pos_bound. lia.
Qed.

Lemma RandFloat64_rng : rng_only RandFloat64 (fun _ => True).
Proof.
  intros env st. exists (rng_float env (rng_pos st)), (S (rng_pos st)).
  split; [reflexivity | exact I].
Qed.

Lemma sleepWithContext_rng (d : Z) : rng_only (sleepWithContext d) (fun _ => True).
Proof. apply rng_only_ret. exact I. Qed.

Ltac rng_step :=
  lazymatch goal with
  | |- rng_only (bind _ _) _ =>
    eapply rng_only_bind with (P := fun _ => True); [|intros ? ?]
  | |- rng_only (ret _) _ => apply rng_only_ret
  | |- rng_only (if ?b then _ else _) _ => destruct b eqn:?
  | |- rng_only (RandIntn _) _ =>
    eapply rng_only_weaken; [apply RandIntn_rng | cbv beta; intros ? ?]
  | |- rng_only RandFloat64 _ =>
    eapply rng_only_weaken; [apply RandFloat64_rng | cbv beta; intros ? ?]
  | |- rng_only (sleepWithContext _) _ =>
    eapply rng_only_weaken; [apply sleepWithContext_rng | cbv beta; intros ? ?]
  end.

Lemma jitterMs_rng (cfg : Config) : rng_only (jitterMs cfg) (fun _ => True).
Proof. unfold jitterMs. repeat rng_step; exact I. Qed.

Lemma ttftMs_rng (cfg : Config) : rng_only (ttftMs cfg) (fun _ => True).
Proof. unfold ttftMs. repeat rng_step; exact I. Qed.

Lemma streamGapMs_rng (cfg : Config) (delta : gostring) :
  rng_only (streamGapMs cfg delta) (fun _ => True).
Proof. unfold streamGapMs. repeat rng_step; exact I. Qed.

Lemma sleepStreamGap_rng (cfg : Config) (delta : gostring) :
  rng_only (sleepStreamGap cfg delta) (fun _ => True).
Proof.
  unfold sleepStreamGap. eapply rng_only_bind; [apply streamGapMs_rng|].
  intros ms _. apply sleepWithContext_rng.
Qed.

Lemma sleepSSEStreamGap_rng (cfg : Config) (delta : gostring) :
  rng_only (sleepSSEStreamGap cfg delta) (fun _ => True).
Proof. exact (sleepStreamGap_rng cfg delta). Qed.

Lemma pickGrpcErrorCode_rng (mode : gostring) :
  rng_only (pickGrpcErrorCode mode) (fun _ => True).
Proof. unfold pickGrpcErrorCode. repeat rng_step; exact I. Qed.

Lemma shouldFail_rng (rate : float64) : rng_only (shouldFail rate) (fun _ => True).
Proof. unfold shouldFail. repeat rng_step; exact I. Qed.

(** The chunk size of a stream is a positive [int]. *)
Lemma streamChunkSize_rng (cfg : Config) :
  Go.is_int (ChunkSize cfg) ->
  rng_only (streamChunkSize cfg)
    (fun cs => 1 <= cs <= Go.max_int /\
               (Randomize cfg = false ->
                cs = if chunkSize cfg <=? 0 then 12 else chunkSize cfg)).
Proof.
  intros Hwf. unfold streamChunkSize.
  set (base := if chunkSize cfg <=? 0 then 12 else chunkSize cfg).
  assert (Hbase : 1 <= base <= Go.max_int).
  { unfold base, chunkSize, defaultInt, Go.is_int, Go.max_int in *.
    destruct (ChunkSize cfg =? 0) eqn:E0; simpl; [lia|].
    destruct (ChunkSize cfg <=? 0) eqn:E1; [lia|].
    apply Z.leb_gt in E1. lia. }
  destruct (Randomize cfg).
  - destruct (1 <? base) eqn:E1.
    + eapply rng_only_bind; [apply RandIntn_rng|]. intros r Hr.
      apply rng_only_ret.
      split; [|discriminate].
      match goal with
      | |- context [Go.int (?x + ?y)] =>
        pose proof (int_is_int (x + y)) as Hi
      end.
      unfold Go.is_int, Go.min_int, Go.max_int in *.
      match goal with
      | |- context [if ?b then _ else _] => destruct b eqn:E2
      end; [lia|]. apply Z.ltb_ge in E2. lia.
    + apply rng_only_ret. split; [exact Hbase | discriminate].
  - apply rng_only_ret. split; [exact Hbase | reflexivity].
Qed.

(** ** The chunk loop of the stream *)

Lemma loopOutcome_cons (done : option (nat * ctxError)) (h : nat)
    (c : gostring) (cl : list gostring) :
  loopOutcome done h (c :: cl)
  = match done with
    | None => (None, c :: cl)
    | Some (n, e) =>
      if (n <=? h)%nat then (Some (ErrContext e), [])
      else if (n <=? S h)%nat then (Some (ErrContext e), [c])
      else (fst (loopOutcome done (S h) cl),
            c :: snd (loopOutcome done (S h) cl))
    end.
Proof.
  destruct done as [[n e]|]; [|reflexivity].
  unfold loopOutcome.
  destruct (n <=? h)%nat eqn:E1.
  - apply Nat.leb_le in E1.
    replace (n <=? h + length (c :: cl))%nat with true
      by (symmetry; apply Nat.leb_le; lia).
    replace (n - h)%nat with 0%nat by lia. reflexivity.
  - apply Nat.leb_gt in E1. destruct (n <=? S h)%nat eqn:E2.
    + apply Nat.leb_le in E2.
      replace (n <=? h + length (c :: cl))%nat with true
        by (symmetry; apply Nat.leb_le; cbn [length]; lia).
      replace (n - h)%nat with 1%nat by lia. reflexivity.
    + apply Nat.leb_gt in E2. destruct cl as [|c' cl'].
      * replace (n <=? h + length [c])%nat with false
          by (symmetry; apply Nat.leb_gt; cbn [length]; lia).
        reflexivity.
      * replace (h + length (c :: c' :: cl'))%nat
          with (S h + length (c' :: cl'))%nat by (cbn [length]; lia).
        destruct (n <=? S h + length (c' :: cl'))%nat; cbn [fst snd];
          [|reflexivity].
        replace (n - h)%nat with (S (n - S h)) by lia. reflexivity.
Qed.

Lemma slice_chunk (out : gostring) (i cs : Z) :
  0 <= i < len out -> 1 <= cs -> i + cs <= Go.max_int ->
  slice out i (if len out <? Go.int (i + cs) then len out else Go.int (i + cs))
  = Some (firstn (Z.to_nat cs) (skipn (Z.to_nat i) out)).
Proof.
  intros Hi Hcs Hmax. unfold Go.max_int in Hmax.
  rewrite int_small by lia. unfold slice.
  destruct (len out <? i + cs) eqn:E.
  - apply Z.ltb_lt in E.
    replace ((0 <=? i) && (i <=? len out) && (len out <=? len out))
      with true by (symmetry; rewrite !andb_true_iff, !Z.leb_le; lia).
    f_equal. rewrite !firstn_all2; try reflexivity;
      rewrite length_skipn; unfold len in *; lia.
  - apply Z.ltb_ge in E.
    replace ((0 <=? i) && (i <=? i + cs) && (i + cs <=? len out))
      with true by (symmetry; rewrite !andb_true_iff, !Z.leb_le; lia).
    f_equal. f_equal. lia.
Qed.

Lemma skipn_next (out : gostring) (i cs : Z) :
  0 <= i -> 0 <= cs ->
  skipn (Z.to_nat (i + cs)) out
  = skipn (Z.to_nat cs) (skipn (Z.to_nat i) out).
Proof.
  intros Hi Hcs. rewrite skipn_skipn. f_equal. lia.
Qed.

Lemma skipn_nonempty (out : gostring) (i : Z) :
  0 <= i < len out -> skipn (Z.to_nat i) out <> [].
Proof.
  intros Hi E. apply (f_equal (@length ascii)) in E.
  rewrite length_skipn in E. unfold len in Hi. simpl in E. lia.
Qed.

Lemma skipn_empty (out : gostring) (i : Z) :
  len out <= i -> skipn (Z.to_nat i) out = [].
Proof. intros Hi. apply skipn_all2. unfold len in Hi. lia. Qed.

Lemma handed_sent (st : State) (p : nat) (c : ChatCompletionChunkResponse) :
  handed (set_rng_pos p (set_sent (sent st ++ [c]) st)) = S (handed st).
Proof.
  unfold handed. cbn [sent body set_rng_pos set_sent].
  rewrite length_app. cbn [length]. lia.
Qed.

(** With a transport that accepts every message, the loop sends the
    planned chunks in order until it sees the context done. *)
Lemma streamLoop_run (cfg : Config) (out : gostring) (cs : Z) (env : Env) :
  1 <= cs <= Go.max_int -> len out < Go.maxAlloc ->
  (forall k, send_err env k = None) ->
  forall fuel i st,
    0 <= i -> (i < len out -> i + cs <= Go.max_int) ->
    Z.max 0 (len out - i) < Z.of_nat fuel ->
    let cl := chunksOf cs (skipn (Z.to_nat i) out) in
    let o := loopOutcome (ctx_done env) (handed st) cl in
    exists p,
      streamLoop fuel cfg out cs i env st
      = (Val (fst o),
         set_rng_pos p (set_sent (sent st ++ map deltaChunk (snd o)) st)).
Proof.
  intros Hcs Hfit Hsend. unfold Go.maxAlloc in Hfit.
  induction fuel as [|f IH]; intros i st Hi Hov Hfuel cl o; [lia|].
  cbn [streamLoop]. destruct (i <? len out) eqn:Ei.
  - apply Z.ltb_lt in Ei. specialize (Hov Ei).
    assert (Hcl : cl = firstn (Z.to_nat cs) (skipn (Z.to_nat i) out)
                       :: chunksOf cs (skipn (Z.to_nat (i + cs)) out)).
    { unfold cl. rewrite chunksOf_cons; [|lia|apply skipn_nonempty; lia].
      rewrite skipn_next by lia. reflexivity. }
    set (c0 := firstn (Z.to_nat cs) (skipn (Z.to_nat i) out)) in *.
    set (cl' := chunksOf cs (skipn (Z.to_nat (i + cs)) out)) in *.
    unfold o. rewrite Hcl, loopOutcome_cons.
    unfold bind at 1. unfold ctxErr at 1.
    destruct (sleepStreamGap_rng cfg c0 env
                (set_sent (sent st ++ [deltaChunk c0]) st))
      as ([] & p1 & Egap & _).
    assert (Hnext : exists p,
      streamLoop f cfg out cs (Go.int (i + cs)) env
        (set_rng_pos p1 (set_sent (sent st ++ [deltaChunk c0]) st))
      = (Val (fst (loopOutcome (ctx_done env) (S (handed st)) cl')),
         set_rng_pos p
           (set_sent (sent st ++ map deltaChunk
                        (c0 :: snd (loopOutcome (ctx_done env)
                                                (S (handed st)) cl'))) st))).
    { unfold Go.max_int in Hov. rewrite int_small by lia.
      destruct (IH (i + cs)
                   (set_rng_pos p1 (set_sent (sent st ++ [deltaChunk c0]) st)))
        as (p & E); [lia | unfold Go.max_int; lia | lia |].
      exists p. rewrite E, handed_sent. fold cl'.
      cbn [sent set_rng_pos set_sent map]. rewrite <- app_assoc.
      reflexivity. }
    destruct Hnext as (p2 & Enext).
    assert (Hbody : forall d,
      (forall n e, d = Some (n, e) -> (n <=? S (handed st))%nat = false) ->
      ctx_done env = d ->
      bind (orPanic (slice out i
                (if len out <? Go.int (i + cs) then len out
                 else Go.int (i + cs))))
        (fun delta =>
           bind (Send (deltaChunk delta))
             (fun err =>
                match err with
                | Some e => ret (Some e)
                | None =>
                  bind (sleepStreamGap cfg delta)
                    (fun _ =>
                       bind ctxErr
                         (fun err =>
                            match err with
                            | Some e => ret (Some (ErrContext e))
                            | None =>
                              streamLoop f cfg out cs (Go.int (i + cs))
                            end))
                end)) env st
      = streamLoop f cfg out cs (Go.int (i + cs)) env
          (set_rng_pos p1 (set_sent (sent st ++ [deltaChunk c0]) st))).
    { intros d Hd Ed. rewrite slice_chunk by lia. fold c0.
      unfold orPanic. unfold bind at 1. unfold ret at 1.
      unfold bind at 1. unfold Send at 1. rewrite Hsend. cbn [option_map].
      unfold bind at 1. rewrite Egap.
      unfold bind at 1. unfold ctxErr at 1. rewrite Ed.
      destruct d as [[n e]|]; [|reflexivity].
      rewrite handed_sent, (Hd n e eq_refl). reflexivity. }
    destruct (ctx_done env) as [[n e]|] eqn:Ed.
    + destruct (n <=? handed st)%nat eqn:E1.
      * exists (rng_pos st). cbn [fst snd map].
        rewrite app_nil_r. unfold ret.
        f_equal. destruct st; reflexivity.
      * destruct (n <=? S (handed st))%nat eqn:E2.
        -- exists p1. cbn [fst snd map].
           rewrite slice_chunk by lia. fold c0.
           unfold orPanic. unfold bind at 1. unfold ret at 1.
           unfold bind at 1. unfold Send at 1. rewrite Hsend. cbn [option_map].
           unfold bind at 1. rewrite Egap.
           unfold bind at 1. unfold ctxErr at 1. rewrite Ed.
           rewrite handed_sent, E2. reflexivity.
        -- exists p2. cbn [fst snd].
           rewrite (Hbody (Some (n, e))); [exact Enext | | reflexivity].
           intros n' e' H'. inversion H'; subst. exact E2.
    + exists p2. rewrite <- Ed in *.
      rewrite (Hbody (ctx_done env)); [|rewrite Ed; discriminate|reflexivity].
      rewrite Enext. rewrite Ed. reflexivity.
  - apply Z.ltb_ge in Ei. exists (rng_pos st).
    unfold o, cl. rewrite skipn_empty by lia. rewrite chunksOf_nil.
    assert (E : loopOutcome (ctx_done env) (handed st) [] = (None, [])).
    { unfold loopOutcome. destruct (ctx_done env) as [[n e]|]; reflexivity. }
    rewrite E. cbn [fst snd map]. rewrite app_nil_r. unfold ret.
    f_equal. destruct st; reflexivity.
Qed.

(** ** The plan of a stream *)

Lemma int32_is_int32 (z : Z) : Go.is_int32 (Go.int32 z).
Proof.
  unfold Go.is_int32, Go.min_int32, Go.max_int32, Go.int32, Go.wrap.
  pose proof (Z.mod_pos_bound (z + 2 ^ (32 - 1)) (2 ^ 32) ltac:(lia)).
  simpl in *. lia.
Qed.

Lemma to_int32_is_int32 (x : float64) : Go.is_int32 (F64.to_int32 x).
Proof.
  unfold F64.to_int32, Go.is_int32.
  destruct (F64.trunc x) as [z|].
  - destruct ((Go.min_int32 <=? z) && (z <=? Go.max_int32)) eqn:E.
    + apply andb_prop in E. destruct E as [E1 E2].
      apply Z.leb_le in E1, E2. lia.
    + unfold Go.min_int32, Go.max_int32. lia.
  - unfold Go.min_int32, Go.max_int32. lia.
Qed.

Lemma pickFrac_rng (maxTokens : Z) (minF maxF : float64) :
  rng_only (pickFrac maxTokens minF maxF) Go.is_int32.
Proof.
  unfold pickFrac.
  set (a := F64.to_int32 (F64.mul (F64.of_int maxTokens) minF)).
  pose proof (to_int32_is_int32 (F64.mul (F64.of_int maxTokens) minF)) as Ha.
  fold a in Ha.
  match goal with
  | |- rng_only (if ?b then _ else _) _ => destruct b
  end.
  - apply rng_only_ret. unfold Go.is_int32, Go.min_int32, Go.max_int32 in *.
    destruct (a <? 1) eqn:E; [lia|]. apply Z.ltb_ge in E. lia.
  - rng_step; [rng_step; exact I|]. apply rng_only_ret. apply int32_is_int32.
Qed.

Lemma pickTargetTokens_rng (maxTokens promptRunes : Z) :
  rng_only (pickTargetTokens maxTokens promptRunes) Go.is_int32.
Proof.
  unfold pickTargetTokens.
  repeat match goal with
         | |- context [let '(_, _) := ?x in _] => destruct x
         | |- rng_only (let '(_, _) := ?x in _) _ => destruct x
         end.
  rng_step; [rng_step; exact I|].
  repeat match goal with
         | |- rng_only (if ?b then _ else _) _ => destruct b
         end; apply pickFrac_rng.
Qed.

Lemma baseTokens_is_int32 (cfg : Config) (req : ChatCompletionRequest) :
  Request_wf req -> Go.is_int32 (baseTokens cfg req).
Proof.
  intros H. unfold baseTokens.
  destruct (MaxTokens req <=? 0); [apply int32_is_int32 | exact H].
Qed.

Lemma streamPlan_rng (cfg : Config) (req : ChatCompletionRequest) :
  Request_wf req -> Go.is_int (ChunkSize cfg) ->
  rng_only (streamPlan cfg req)
    (fun plan =>
       exists eff cs,
         plan = (buildPromptForTokens req,
                 outputOf cfg (buildPromptForTokens req) eff, cs)
         /\ Go.is_int32 eff /\ 1 <= cs <= Go.max_int
         /\ (Randomize cfg = false ->
              eff = baseTokens cfg req /\ cs = baseChunkSize cfg)).
Proof.
  intros Hreq Hcs. unfold streamPlan. fold (baseTokens cfg req).
  eapply rng_only_bind with
    (P := fun eff => Go.is_int32 eff /\
                     (Randomize cfg = false -> eff = baseTokens cfg req)).
  - destruct (Randomize cfg).
    + eapply rng_only_weaken; [apply pickTargetTokens_rng|].
      intros a Ha. split; [exact Ha | discriminate].
    + apply rng_only_ret. split; [|reflexivity].
      apply baseTokens_is_int32. exact Hreq.
  - intros eff [Heff Hbase].
    eapply rng_only_bind; [apply streamChunkSize_rng; exact Hcs|].
    intros cs [Hrange Hcsbase]. apply rng_only_ret.
    exists eff, cs. split; [reflexivity|]. split; [exact Heff|].
    split; [exact Hrange|]. intros HR. split; [apply Hbase | apply Hcsbase];
      exact HR.
Qed.

Lemma outputOf_fits (cfg : Config) (prompt : gostring) (eff : Z) :
  outputFits cfg -> Go.is_int32 eff ->
  len (outputOf cfg prompt eff) < Go.maxAlloc.
Proof.
  intros Hfit Heff. unfold outputOf. rewrite BuildOutput_len.
  apply Hfit. exact Heff.
Qed.

Lemma outputOf_nonempty (cfg : Config) (prompt : gostring) (eff : Z) :
  1 <= len (outputOf cfg prompt eff).
Proof. unfold outputOf. rewrite BuildOutput_len. apply targetLen_pos. Qed.

Lemma shouldFail_eq (rate : float64) (env : Env) (st : State) :
  shouldFail rate env st
  = if F64.leb rate F64.c0_0 then (Val false, st)
    else if F64.leb F64.c1_00 rate then (Val true, st)
    else (Val (F64.ltb (rng_float env (rng_pos st)) rate),
          set_rng_pos (S (rng_pos st)) st).
Proof.
  unfold shouldFail.
  destruct (F64.leb rate F64.c0_0); [reflexivity|].
  destruct (F64.leb F64.c1_00 rate); reflexivity.
Qed.

(** The decision of the injector depends on the generator alone. *)
Lemma shouldFail_noInject (cfg : Config) (env : Env) (st : State) :
  noInject cfg env -> rng_pos st = 0%nat ->
  exists p, shouldFail (ErrorRate cfg) env st = (Val false, set_rng_pos p st).
Proof.
  unfold noInject. intros H Hp. rewrite shouldFail_eq in *.
  destruct (F64.leb (ErrorRate cfg) F64.c0_0).
  - exists (rng_pos st). now rewrite set_rng_pos_self.
  - destruct (F64.leb F64.c1_00 (ErrorRate cfg)); [discriminate|].
    exists (S (rng_pos st)). rewrite Hp. cbn [fst init rng_pos] in H.
    inversion H as [H']. rewrite H'. reflexivity.
Qed.

(** ** The streaming call as a whole *)

Lemma bind_val {A B} (c : M A) (k : A -> M B) (env : Env) (st st' : State)
    (a : A) :
  c env st = (Val a, st') -> bind c k env st = k a env st'.
Proof. intros E. unfold bind. rewrite E. reflexivity. Qed.

Lemma time_Since_ms_run (start : Z) (env : Env) (st : State) :
  start <= now st ->
  exists latency k t,
    time_Since_ms start env st = (Val latency, set_clock k t st)
    /\ 0 <= latency.
Proof.
  intros H. unfold time_Since_ms, bind, time_Now, ret.
  eexists _, _, _. split; [reflexivity|].
  apply Z.quot_pos; [|lia]. unfold Go.max_int. lia.
Qed.

(** A stream on which no failure is injected, over a transport that
    accepts every message, whose context is not done before the first
    message: the planned chunks go out in order until the context is seen
    done; then the error is returned, or else the "done" chunk is sent. *)
Lemma streamBody_run (cfg : Config) (req : ChatCompletionRequest) (env : Env) :
  Request_wf req -> Go.is_int (ChunkSize cfg) -> outputFits cfg ->
  sendsSucceed env -> noInject cfg env ->
  (forall n e, ctx_done env = Some (n, e) -> (1 <= n)%nat) ->
  forall start st0,
    sent st0 = [] -> body st0 = [] -> rng_pos st0 = 0%nat -> start <= now st0 ->
    exists eff cs latency st1,
      Go.is_int32 eff /\ 1 <= cs <= Go.max_int /\
      (Randomize cfg = false ->
       eff = baseTokens cfg req /\ cs = baseChunkSize cfg) /\
      0 <= latency /\
      let prompt := buildPromptForTokens req in
      let out := outputOf cfg prompt eff in
      let o := loopOutcome (ctx_done env) 0 (chunksOf cs out) in
      streamBody cfg req start env st0 = (Val (fst o), st1) /\
      sent st1 = map deltaChunk (snd o) ++
                 match fst o with
                 | Some _ => []
                 | None => [doneChunk (Go.int32 (ApproxTokens prompt))
                                      (Go.int32 (ApproxTokens out)) latency]
                 end.
Proof.
  intros Hreq Hcs Hfit Hsend Hno Hctx start st0 Hsent Hbody Hpos Hnow.
  destruct (shouldFail_noInject cfg env st0 Hno Hpos) as (p1 & E1).
  destruct (jitterMs_rng cfg env (set_rng_pos p1 st0)) as (j & p2 & E2 & _).
  destruct (ttftMs_rng cfg env (set_rng_pos p2 (set_rng_pos p1 st0)))
    as (t & p3 & E3 & _).
  set (st3 := set_rng_pos p3 (set_rng_pos p2 (set_rng_pos p1 st0))) in *.
  assert (Hh3 : handed st3 = 0%nat).
  { unfold handed, st3. cbn [sent body set_rng_pos]. now rewrite Hsent, Hbody. }
  assert (Epre : forall pre,
    (if 0 <? pre then sleepWithContext pre ;;; ctxErr else ret None) env st3
    = (Val None, st3)).
  { intros pre. assert (Ec : ctxErr env st3 = (Val None, st3)).
    { unfold ctxErr. destruct (ctx_done env) as [[n e]|] eqn:Ed; [|reflexivity].
      rewrite Hh3. specialize (Hctx n e eq_refl).
      destruct (n <=? 0)%nat eqn:En; [|reflexivity].
      apply Nat.leb_le in En. lia. }
    destruct (0 <? pre); [|reflexivity].
    unfold bind, sleepWithContext, ret. exact Ec. }
  destruct (streamPlan_rng cfg req Hreq Hcs env st3)
    as (plan & p4 & E4 & eff & cs & Eplan & Heff & Hcsr & Hbase).
  subst plan.
  set (prompt := buildPromptForTokens req) in *.
  set (out := outputOf cfg prompt eff) in *.
  pose proof (outputOf_fits cfg prompt eff Hfit Heff) as Hout. fold out in Hout.
  destruct (streamLoop_run cfg out cs env Hcsr Hout Hsend (S (length out)) 0
              (set_rng_pos p4 st3))
    as (p5 & E5); [lia | lia | unfold len; lia |].
  assert (Hh4 : handed (set_rng_pos p4 st3) = 0%nat) by exact Hh3.
  rewrite Hh4 in E5. cbn [Z.to_nat skipn] in E5.
  replace (skipn 0 out) with out in E5 by reflexivity.
  set (o := loopOutcome (ctx_done env) 0 (chunksOf cs out)) in *.
  assert (Hs4 : sent (set_rng_pos p4 st3) = []) by exact Hsent.
  rewrite Hs4 in E5. cbn [app] in E5.
  set (st5 := set_rng_pos p5 (set_sent (map deltaChunk (snd o))
                                       (set_rng_pos p4 st3))) in *.
  destruct (time_Since_ms_run start env st5) as (latency & k & tm & E6 & Hlat).
  { exact Hnow. }
  assert (Estart :
    streamBody cfg req start env st0
    = match fst o with
      | Some e => (Val (Some e), st5)
      | None =>
        (latency <- time_Since_ms start ;;
         Send (doneChunk (Go.int32 (ApproxTokens prompt))
                         (Go.int32 (ApproxTokens out)) latency)) env st5
      end).
  { unfold streamBody.
    rewrite (bind_val _ _ _ _ _ _ E1). cbv iota.
    rewrite (bind_val _ _ _ _ _ _ E2).
    rewrite (bind_val _ _ _ _ _ _ E3). fold st3.
    rewrite (bind_val _ _ _ _ _ _ (Epre _)).
    rewrite (bind_val _ _ _ _ _ _ E4). cbv iota beta.
    fold prompt. fold out.
    rewrite (bind_val _ _ _ _ _ _ E5).
    destruct (fst o); reflexivity. }
  exists eff, cs, latency. cbv zeta. fold prompt. fold out. fold o.
  rewrite Estart. destruct (fst o) as [e|] eqn:Eo.
  - exists st5. split; [exact Heff|]. split; [exact Hcsr|].
    split; [exact Hbase|]. split; [exact Hlat|].
    split; [reflexivity|]. unfold st5.
    cbn [sent set_rng_pos set_sent]. now rewrite app_nil_r.
  - rewrite (bind_val _ _ _ _ _ _ E6). unfold Send. rewrite Hsend.
    eexists. split; [exact Heff|]. split; [exact Hcsr|].
    split; [exact Hbase|]. split; [exact Hlat|].
    split; [reflexivity|]. cbn [sent set_rng_pos set_sent set_clock st5].
    reflexivity.
Qed.

Lemma stream_run (cfg : Config) (req : ChatCompletionRequest) (env : Env) :
  Request_wf req -> Go.is_int (ChunkSize cfg) -> outputFits cfg ->
  sendsSucceed env -> noInject cfg env ->
  (forall n e, ctx_done env = Some (n, e) -> (1 <= n)%nat) ->
  exists eff cs latency st',
    Go.is_int32 eff /\ 1 <= cs <= Go.max_int /\
    (Randomize cfg = false ->
     eff = baseTokens cfg req /\ cs = baseChunkSize cfg) /\
    0 <= latency /\
    let prompt := buildPromptForTokens req in
    let out := outputOf cfg prompt eff in
    let o := loopOutcome (ctx_done env) 0 (chunksOf cs out) in
    ChatCompletionStream cfg req env init = (Val (fst o), st') /\
    sent st' = map deltaChunk (snd o) ++
               [match fst o with
                | Some e => failedChunk (Error e)
                | None => doneChunk (Go.int32 (ApproxTokens prompt))
                                    (Go.int32 (ApproxTokens out)) latency
                end].
Proof.
  intros Hreq Hcs Hfit Hsend Hno Hctx.
  set (t0 := now init + Z.of_N (elapse env (clock_reads init))).
  destruct (streamBody_run cfg req env Hreq Hcs Hfit Hsend Hno Hctx t0
              (set_clock 1 t0 init))
    as (eff & cs & latency & st1 & Heff & Hcsr & Hbase & Hlat & Hrun);
    [reflexivity | reflexivity | reflexivity | cbn [now set_clock]; lia |].
  cbv zeta in Hrun. destruct Hrun as [Erun Hsent1].
  exists eff, cs, latency. cbv zeta.
  unfold ChatCompletionStream.
  rewrite (bind_val _ _ _ _ _ _ (eq_refl : time_Now env init
                                   = (Val t0, set_clock 1 t0 init))).
  rewrite (bind_val _ _ _ _ _ _ Erun).
  destruct (fst (loopOutcome (ctx_done env) 0 _)) as [e|].
  - unfold bind, Send, ret. eexists.
    split; [exact Heff|]. split; [exact Hcsr|]. split; [exact Hbase|].
    split; [exact Hlat|]. split; [reflexivity|].
    cbn [sent set_sent]. rewrite Hsent1, app_nil_r. reflexivity.
  - unfold ret. exists st1.
    split; [exact Heff|]. split; [exact Hcsr|]. split; [exact Hbase|].
    split; [exact Hlat|]. split; [reflexivity | exact Hsent1].
Qed.

(** ** The text-event stream as a whole *)

Lemma RandID_loop_rng (n : nat) :
  forall b, rng_only (RandID_loop n b) (fun _ => True).
Proof.
  induction n as [|n IH]; intros b; cbn [RandID_loop].
  - apply rng_only_ret. exact I.
  - rng_step; [rng_step; exact I|]. apply IH.
Qed.

Lemma sseChunkSize_rng (cfg : Config) (chunkSize : Z) :
  1 <= sseBaseChunkSize cfg chunkSize <= Go.max_int ->
  rng_only (sseChunkSize cfg chunkSize)
    (fun cs => 1 <= cs <= Go.max_int /\
               (Randomize cfg = false -> cs = sseBaseChunkSize cfg chunkSize)).
Proof.
  intros Hbase. unfold sseChunkSize. fold (sseBaseChunkSize cfg chunkSize).
  set (base := sseBaseChunkSize cfg chunkSize) in *.
  destruct (Randomize cfg); cbn [andb].
  - destruct (1 <? base) eqn:E1.
    + eapply rng_only_bind; [apply RandIntn_rng|]. intros r Hr.
      apply rng_only_ret. split; [|discriminate].
      match goal with
      | |- context [Go.int (?x + ?y)] =>
        pose proof (int_is_int (x + y)) as Hi
      end.
      unfold Go.is_int, Go.min_int, Go.max_int in *.
      match goal with
      | |- context [if ?b then _ else _] => destruct b eqn:E2
      end; [lia|]. apply Z.ltb_ge in E2. lia.
    + apply rng_only_ret. split; [exact Hbase | discriminate].
  - apply rng_only_ret. split; [exact Hbase | reflexivity].
Qed.

(** With a response that takes every write and a context that is never
    done, the content loop writes the planned chunks in order. *)
Lemma sseLoop_run (cfg : Config) (id : gostring) (created : Z)
    (model content : gostring) (cs : Z) (env : Env) :
  1 <= cs <= Go.max_int -> len content < Go.maxAlloc ->
  (forall k, io_err env k = false) -> ctx_done env = None ->
  forall fuel i st,
    0 <= i -> (i < len content -> i + cs <= Go.max_int) ->
    Z.max 0 (len content - i) < Z.of_nat fuel ->
    buffered st = [] -> status st = Some 200 ->
    exists p k,
      sseLoop fuel cfg id created model content cs i env st
      = (Val true,
         set_rng_pos p
           (set_io k []
              (body st ++ map (contentFrame id created model)
                              (chunksOf cs (skipn (Z.to_nat i) content)))
              (Some 200) st)).
Proof.
  intros Hcs Hfit Hio Hctx. unfold Go.maxAlloc in Hfit.
  induction fuel as [|f IH]; intros i st Hi Hov Hfuel Hbuf Hst; [lia|].
  cbn [sseLoop]. destruct (i <? len content) eqn:Ei.
  - apply Z.ltb_lt in Ei. specialize (Hov Ei).
    rewrite chunksOf_cons; [|lia|apply skipn_nonempty; lia].
    rewrite <- skipn_next by lia.
    set (c0 := firstn (Z.to_nat cs) (skipn (Z.to_nat i) content)).
    set (st1 := set_io (S (S (io_ops st))) []
                       (body st ++ [contentFrame id created model c0])
                       (Some 200) st).
    destruct (sleepSSEStreamGap_rng cfg c0 env st1) as ([] & p1 & Egap & _).
    destruct (IH (i + cs) (set_rng_pos p1 st1)) as (p & k & E);
      [lia | unfold Go.max_int in *; lia | lia | reflexivity | reflexivity |].
    exists p, k.
    unfold bind at 1. unfold ctxErr at 1. rewrite Hctx.
    rewrite slice_chunk by lia. fold c0.
    unfold orPanic. unfold bind at 1. unfold ret at 1.
    unfold bind at 1. unfold writeSSE at 1. unfold Fprint at 1. rewrite Hio.
  cbn [negb].
    unfold bind at 1. unfold Flush at 1.
    cbn [io_ops set_io buffered body status]. rewrite Hio, Hbuf, Hst.
    cbn [negb app]. fold (contentFrame id created model c0).
    replace (set_io (S (S (io_ops st))) [] _ (Some 200)
                    (set_io (S (io_ops st))
                            [contentFrame id created model c0] (body st)
                            (Some 200) st))
      with st1 by reflexivity.
    unfold bind at 1. rewrite Egap.
    unfold Go.max_int in Hov. rewrite int_small by lia.
    rewrite E. cbn [body set_rng_pos set_io st1 map].
    rewrite <- app_assoc. reflexivity.
  - apply Z.ltb_ge in Ei. exists (rng_pos st), (io_ops st).
    rewrite skipn_empty by lia. rewrite chunksOf_nil. cbn [map].
    rewrite app_nil_r. unfold ret. f_equal.
    destruct st; cbn in *; subst; reflexivity.
Qed.

Lemma serveChatCompletionSSE_run (model prompt : gostring) (maxTokens : Z)
    (cfg : Config) (chunkSize : Z) (env : Env) :
  1 <= sseBaseChunkSize cfg chunkSize <= Go.max_int ->
  len (outputOf cfg prompt maxTokens) < Go.maxAlloc ->
  writesSucceed env -> ctx_done env = None ->
  exists cs id created st',
    1 <= cs <= Go.max_int /\
    (Randomize cfg = false -> cs = sseBaseChunkSize cfg chunkSize) /\
    serveChatCompletionSSE model prompt maxTokens cfg chunkSize env init
    = (Val tt, st') /\
    status st' = Some 200 /\
    body st' = roleFrame id created model
               :: map (contentFrame id created model)
                      (chunksOf cs (outputOf cfg prompt maxTokens))
               ++ [lastFrame id created model; FrameDone].
Proof.
  intros Hbase Hfit [Hflush Hio] Hctx.
  unfold serveChatCompletionSSE. rewrite Hflush. cbn [negb].
  set (st0 := set_content_type (bytes "text/event-stream") init).
  destruct (RandID_loop_rng 10 [] env st0) as (r & p1 & E1 & _).
  fold RandID in E1.
  set (id := bytes "chatcmpl_mock_" ++ r).
  set (t := now (set_rng_pos p1 st0)
            + Z.of_N (elapse env (clock_reads (set_rng_pos p1 st0)))).
  set (created := Z.quot t 1000000000).
  set (st2 := set_clock (S (clock_reads (set_rng_pos p1 st0))) t
                        (set_rng_pos p1 st0)).
  destruct (sseChunkSize_rng cfg chunkSize Hbase env st2)
    as (cs & p3 & E3 & Hcs & Hcsbase).
  set (content := outputOf cfg prompt maxTokens) in *.
  set (st4 := set_io 2 [] [roleFrame id created model] (Some 200)
                     (set_rng_pos p3 st2)).
  destruct (sseLoop_run cfg id created model content cs env Hcs Hfit Hio Hctx
              (S (length content)) 0 st4)
    as (p5 & k5 & E5);
    [lia | lia | unfold len; lia | reflexivity | reflexivity |].
  cbn [Z.to_nat skipn] in E5. replace (skipn 0 content) with content in E5
    by reflexivity.
  exists cs, id, created. eexists.
  split; [exact Hcs|]. split; [exact Hcsbase|].
  rewrite (bind_val _ _ _ _ _ _ (eq_refl : setContentType _ env init
                                           = (Val tt, st0))).
  rewrite (bind_val _ _ _ _ _ _ E1). fold id.
  rewrite (bind_val _ _ _ _ _ _ (eq_refl : time_Now env (set_rng_pos p1 st0)
                                           = (Val t, st2))).
  fold created.
  rewrite (bind_val _ _ _ _ _ _ E3).
  fold (outputOf cfg prompt maxTokens). fold content.
  unfold bind at 1. unfold writeSSE at 1. unfold Fprint at 1. rewrite Hio.
  cbn [negb].
  unfold bind at 1. unfold Flush at 1. rewrite Hio. cbn [negb].
  match goal with
  | |- bind _ _ env ?s = _ /\ _ => replace s with st4 by reflexivity
  end.
  rewrite (bind_val _ _ _ _ _ _ E5). cbn [negb].
  unfold bind at 1. unfold writeSSE at 1. unfold Fprint at 1. rewrite Hio.
  cbn [negb].
  unfold bind at 1. unfold Fprint at 1. rewrite Hio. cbn [negb].
  unfold bind at 1. unfold Flush at 1. rewrite Hio.
  unfold ret. split; [reflexivity|].
  cbn [status body buffered set_io set_rng_pos st4 app].
  split; [reflexivity|]. reflexivity.
Qed.

(** ** What a stream sends before it returns, in any surroundings *)

Lemma sent_ext_refl (st : State) : sent_ext st st.
Proof. exists []. split; [now rewrite app_nil_r | constructor]. Qed.

Lemma sent_ext_trans (a b c : State) :
  sent_ext a b -> sent_ext b c -> sent_ext a c.
Proof.
  intros (l1 & E1 & F1) (l2 & E2 & F2). exists (l1 ++ l2). split.
  - rewrite E2, E1, app_assoc. reflexivity.
  - apply Forall_app. split; assumption.
Qed.

Lemma preserves_ret {A} (a : A) : preserves (ret a).
Proof. intros env st. apply sent_ext_refl. Qed.

Lemma preserves_panic {A} : preserves (@panic A).
Proof. intros env st. apply sent_ext_refl. Qed.

Lemma preserves_out_of_fuel {A} : preserves (@out_of_fuel A).
Proof. intros env st. apply sent_ext_refl. Qed.

Lemma preserves_bind {A B} (c : M A) (k : A -> M B) :
  preserves c -> (forall a, preserves (k a)) -> preserves (bind c k).
Proof.
  intros Hc Hk env st. unfold bind. specialize (Hc env st).
  destruct (c env st) as [[a| |] s']; cbn [snd] in *; try exact Hc.
  eapply sent_ext_trans; [exact Hc | apply Hk].
Qed.

Lemma preserves_rng {A} (c : M A) (P : A -> Prop) : rng_only c P -> preserves c.
Proof.
  intros H env st. destruct (H env st) as (v & p & E & _). rewrite E.
  cbn [snd]. exists []. split; [|constructor].
  cbn [sent set_rng_pos]. now rewrite app_nil_r.
Qed.

Lemma preserves_ctxErr : preserves ctxErr.
Proof.
  intros env st. unfold ctxErr.
  destruct (ctx_done env) as [[n e]|]; [destruct (n <=? handed st)%nat|];
    apply sent_ext_refl.
Qed.

Lemma preserves_time_Now : preserves time_Now.
Proof.
  intros env st. exists []. split; [|constructor].
  cbn [snd time_Now sent set_clock]. now rewrite app_nil_r.
Qed.

Lemma preserves_time_Since_ms (start : Z) : preserves (time_Since_ms start).
Proof.
  unfold time_Since_ms. apply preserves_bind; [apply preserves_time_Now|].
  intros t. apply preserves_ret.
Qed.

Lemma preserves_Send (c : ChatCompletionChunkResponse) :
  notFailed c -> preserves (Send c).
Proof.
  intros H env st. exists [c]. split; [reflexivity|].
  constructor; [exact H | constructor].
Qed.

Lemma preserves_orPanic {A} (o : option A) : preserves (orPanic o).
Proof. destruct o; [apply preserves_ret | apply preserves_panic]. Qed.

Lemma notFailed_delta (delta : gostring) : notFailed (deltaChunk delta).
Proof. unfold notFailed, deltaChunk. cbn. discriminate. Qed.

Lemma notFailed_done (pt ct latency : Z) : notFailed (doneChunk pt ct latency).
Proof. unfold notFailed, doneChunk. cbn. discriminate. Qed.

Lemma preserves_streamLoop (cfg : Config) (out : gostring) (cs : Z) :
  forall fuel i, preserves (streamLoop fuel cfg out cs i).
Proof.
  induction fuel as [|f IH]; intros i; cbn [streamLoop].
  - apply preserves_out_of_fuel.
  - destruct (i <? len out); [|apply preserves_ret].
    apply preserves_bind; [apply preserves_ctxErr|]. intros [e|].
    + apply preserves_ret.
    + apply preserves_bind; [apply preserves_orPanic|]. intros delta.
      apply preserves_bind; [apply preserves_Send, notFailed_delta|].
      intros [e|]; [apply preserves_ret|].
      apply preserves_bind;
        [eapply preserves_rng; apply sleepStreamGap_rng|]. intros _.
      apply preserves_bind; [apply preserves_ctxErr|].
      intros [e|]; [apply preserves_ret | apply IH].
Qed.

Lemma preserves_pickTargetTokens (a b : Z) : preserves (pickTargetTokens a b).
Proof. eapply preserves_rng. apply pickTargetTokens_rng. Qed.

Lemma preserves_streamChunkSize (cfg : Config) : preserves (streamChunkSize cfg).
Proof.
  unfold streamChunkSize.
  repeat match goal with
         | |- preserves (if ?b then _ else _) => destruct b
         | |- preserves (ret _) => apply preserves_ret
         | |- preserves (bind _ _) => apply preserves_bind; [|intros ?]
         | |- preserves (RandIntn _) => eapply preserves_rng; apply RandIntn_rng
         end.
Qed.

Lemma preserves_streamPlan (cfg : Config) (req : ChatCompletionRequest) :
  preserves (streamPlan cfg req).
Proof.
  unfold streamPlan. apply preserves_bind.
  - destruct (Randomize cfg);
      [apply preserves_pickTargetTokens | apply preserves_ret].
  - intros eff. apply preserves_bind; [apply preserves_streamChunkSize|].
    intros cs. apply preserves_ret.
Qed.

Lemma preserves_streamBody (cfg : Config) (req : ChatCompletionRequest)
    (start : Z) :
  preserves (streamBody cfg req start).
Proof.
  unfold streamBody.
  apply preserves_bind; [eapply preserves_rng; apply shouldFail_rng|].
  intros [|].
  - apply preserves_bind; [eapply preserves_rng; apply pickGrpcErrorCode_rng|].
    intros c. apply preserves_ret.
  - apply preserves_bind; [eapply preserves_rng; apply jitterMs_rng|].
    intros j.
    apply preserves_bind; [eapply preserves_rng; apply ttftMs_rng|].
    intros t. apply preserves_bind.
    + match goal with
      | |- preserves (if ?b then _ else _) => destruct b
      end; [|apply preserves_ret].
      apply preserves_bind; [apply preserves_ret|]. intros _.
      apply preserves_ctxErr.
    + intros [e|]; [apply preserves_ret|].
      apply preserves_bind; [apply preserves_streamPlan|].
      intros [[prompt out] cs].
      apply preserves_bind; [apply preserves_streamLoop|].
      intros [e|]; [apply preserves_ret|].
      apply preserves_bind; [apply preserves_time_Since_ms|].
      intros latency. apply preserves_Send, notFailed_done.
Qed.

(** ** Reading the content chunks back *)

Lemma chunksOf_inOrder (cs : Z) :
  1 <= cs -> forall out, inOrder cs out (chunksOf cs out).
Proof.
  intros Hcs out k. revert out.
  induction k as [|k IH]; intros out Hk.
  - destruct out as [|c t]; [simpl in Hk; lia|].
    rewrite chunksOf_cons by (lia || discriminate). reflexivity.
  - destruct out as [|c t]; [simpl in Hk; lia|].
    rewrite chunksOf_cons in Hk |- * by (lia || discriminate).
    cbn [nth]. cbn [length] in Hk. rewrite IH by lia.
    rewrite skipn_skipn. f_equal. f_equal. lia.
Qed.

Lemma chunkProps_chunksOf (cs : Z) (out : gostring) :
  1 <= cs -> chunkProps cs out (chunksOf cs out).
Proof.
  intros H. unfold chunkProps.
  split; [exact H|]. split; [apply chunksOf_concat; exact H|].
  split; [apply chunksOf_count; exact H|].
  split; [apply chunksOf_sizes; exact H | apply chunksOf_inOrder; exact H].
Qed.

Lemma contentTexts_app (l1 l2 : list ChatCompletionChunkResponse) :
  contentTexts (l1 ++ l2) = contentTexts l1 ++ contentTexts l2.
Proof. unfold contentTexts. now rewrite filter_app, map_app. Qed.

Lemma contentTexts_deltas (l : list gostring) :
  contentTexts (map deltaChunk l) = l.
Proof.
  unfold contentTexts. induction l as [|c l IH]; [reflexivity|].
  cbn [map filter]. change (isDelta (deltaChunk c)) with true.
  cbn [map Text deltaChunk]. now rewrite IH.
Qed.

Lemma contentTexts_stream (l : list gostring) (c : ChatCompletionChunkResponse) :
  isDelta c = false -> contentTexts (map deltaChunk l ++ [c]) = l.
Proof.
  intros H. rewrite contentTexts_app, contentTexts_deltas.
  unfold contentTexts. cbn [filter]. rewrite H. cbn [map]. apply app_nil_r.
Qed.

Lemma gostring_eqb_eq (s t : gostring) : gostring_eqb s t = true <-> s = t.
Proof.
  revert t. induction s as [|c s IH]; intros [|d t]; cbn; split; intros H;
    try reflexivity; try discriminate.
  - apply andb_prop in H. destruct H as [H1 H2].
    apply Ascii.eqb_eq in H1. apply IH in H2. now subst.
  - inversion H; subst. rewrite Ascii.eqb_refl. cbn. now apply IH.
Qed.

Lemma gostring_eqb_refl (s : gostring) : gostring_eqb s s = true.
Proof. now apply gostring_eqb_eq. Qed.

Lemma gostring_eqb_neq (s t : gostring) : gostring_eqb s t = false <-> s <> t.
Proof.
  split.
  - intros H E. apply gostring_eqb_eq in E. congruence.
  - intros H. destruct (gostring_eqb s t) eqn:E; [|reflexivity].
    apply gostring_eqb_eq in E. contradiction.
Qed.

Ltac eqb_prop :=
  repeat match goal with
         | H : gostring_eqb _ _ = true |- _ => apply gostring_eqb_eq in H
         | H : gostring_eqb _ _ = false |- _ => apply gostring_eqb_neq in H
         end.

Lemma intact_map (l : list gostring) :
  forallb intact l = true -> map json.validString l = l.
Proof.
  induction l as [|c l IH]; intros H; [reflexivity|].
  cbn [forallb] in H. apply andb_prop in H. destruct H as [Hc Hl].
  apply gostring_eqb_eq in Hc. cbn [map]. now rewrite Hc, IH.
Qed.

Lemma sseContentTexts_frames (id : gostring) (created : Z) (model : gostring)
    (l : list gostring) (tl : list Frame) :
  sseContentTexts (map (contentFrame id created model) l ++ tl)
  = map json.validString l ++ sseContentTexts tl.
Proof.
  unfold sseContentTexts. induction l as [|c l IH]; [reflexivity|].
  cbn [map app filter].
  change (isContentFrame (contentFrame id created model c)) with true.
  cbn [map frameText contentFrame contentChunk json.Marshal DeltaContent app].
  now rewrite IH.
Qed.

Lemma sseContentTexts_body (id : gostring) (created : Z) (model : gostring)
    (l : list gostring) :
  sseContentTexts
    (roleFrame id created model
     :: map (contentFrame id created model) l
     ++ [lastFrame id created model; FrameDone])
  = map json.validString l.
Proof.
  change (sseContentTexts (?f :: ?r)) with (sseContentTexts r).
  rewrite sseContentTexts_frames. apply app_nil_r.
Qed.

(** A fixed debug size below the allocation limit is enough for the output
    to fit: a token budget is an [int32], four bytes a token. *)
Lemma outputFits_debug (cfg : Config) :
  DebugOutputChars cfg < Go.maxAlloc -> outputFits cfg.
Proof.
  intros H mt Hmt. unfold targetLen, Go.maxAlloc in *.
  unfold Go.is_int32, Go.min_int32, Go.max_int32 in Hmt.
  assert (Hs : forall m, 1 <= m <= 2 ^ 31 - 1 -> Go.int (m * 4) = m * 4).
  { intros m Hm. apply int_small. lia. }
  destruct (StrictTokenMode cfg).
  - destruct (mt <=? 0) eqn:E0; to_prop; rewrite Hs by lia;
      repeat break_if; to_prop; lia.
  - repeat break_if; to_prop; lia.
Qed.

(** ** The unary call as a whole *)





Lemma post_ctxErr (Q : option ctxError -> Prop) :
  (forall o, Q o) -> post ctxErr Q.
Proof. intros H env st. destruct (fst (ctxErr env st)); auto. Qed.






Lemma div32_run (a b : Z) (env : Env) (st : State) :
  b <> 0 -> div32 a b env st = (Val (Go.int32 (Z.quot a b)), st).
Proof.
  intros H. unfold div32. destruct (b =? 0) eqn:E; [|reflexivity].
  apply Z.eqb_eq in E. contradiction.
Qed.

(** A unary call on which no failure is injected and whose context is not
    done returns the output, its token accounting and the elapsed time. *)
Lemma unary_run (cfg : Config) (req : ChatCompletionRequest) (env : Env) :
  noInject cfg env -> ctx_done env = None -> tpsDivides cfg ->
  exists eff latency st',
    (Randomize cfg = false -> eff = baseTokens cfg req) /\
    0 <= latency /\
    let prompt := buildPromptForTokens req in
    let out := outputOf cfg prompt eff in
    let pt := Go.int32 (ApproxTokens prompt) in
    let ct := Go.int32 (ApproxTokens out) in
    ChatCompletion cfg req env init
    = (Val (Some (mkResponse out (bytes "stop") pt ct (Go.int32 (pt + ct))
                             latency), None), st').
Proof.
  intros Hno Hctx Htps.
  set (t0 := now init + Z.of_N (elapse env (clock_reads init))).
  set (st0 := set_clock 1 t0 init).
  destruct (shouldFail_noInject cfg env st0 Hno eq_refl) as (p1 & E1).
  set (prompt := buildPromptForTokens req).
  assert (Heff : rng_only
    (if Randomize cfg
     then pickTargetTokens (baseTokens cfg req)
                           (Z.of_nat (length (utf8.runes prompt)))
     else ret (baseTokens cfg req))
    (fun eff => Randomize cfg = false -> eff = baseTokens cfg req)).
  { destruct (Randomize cfg).
    - eapply rng_only_weaken; [apply pickTargetTokens_rng|]. discriminate.
    - apply rng_only_ret. reflexivity. }
  destruct (Heff env (set_rng_pos p1 st0)) as (eff & p2 & E2 & Hbase).
  set (out := outputOf cfg prompt eff).
  set (pt := Go.int32 (ApproxTokens prompt)).
  set (ct := Go.int32 (ApproxTokens out)).
  destruct (jitterMs_rng cfg env (set_rng_pos p2 (set_rng_pos p1 st0)))
    as (j & p3 & E3 & _).
  match type of E3 with
  | _ = (_, ?s) => destruct (ttftMs_rng cfg env s) as (t & p4 & E4 & _)
  end.
  match type of E4 with
  | _ = (_, ?s) => set (st4 := s) in *
  end.
  destruct (time_Since_ms_run t0 env st4) as (latency & k & tm & E6 & Hlat).
  { cbn [now set_clock set_rng_pos st4 st0]. lia. }
  exists eff, latency. eexists. split; [exact Hbase|]. split; [exact Hlat|].
  cbv zeta. fold prompt. fold out. fold pt. fold ct.
  unfold ChatCompletion.
  rewrite (bind_val _ _ _ _ _ _ (eq_refl : time_Now env init = (Val t0, st0))).
  rewrite (bind_val _ _ _ _ _ _ E1). cbv iota.
  fold (baseTokens cfg req). fold prompt.
  rewrite (bind_val _ _ _ _ _ _ E2). fold (outputOf cfg prompt eff).
  fold out. fold pt. fold ct.
  rewrite (bind_val _ _ _ _ _ _ E3).
  rewrite (bind_val _ _ _ _ _ _ E4).
  assert (Ecompute : forall c0, exists c1,
    (if 0 <? tokensPerSec cfg
     then q <- div32 (Go.int32 (ct * 1000)) (Go.int32 (tokensPerSec cfg)) ;;
          ret (Go.int (c0 + q))
     else ret c0) env st4 = (Val c1, st4)).
  { intros c0. destruct (0 <? tokensPerSec cfg) eqn:E.
    - apply Z.ltb_lt in E. destruct Htps as [H|H]; [lia|].
      eexists. rewrite (bind_val _ _ _ _ _ _ (div32_run _ _ _ _ H)).
      reflexivity.
    - eexists. reflexivity. }
  match goal with
  | |- bind (if _ then _ else ret ?c0) _ _ _ = _ =>
    destruct (Ecompute c0) as (c1 & E5)
  end.
  rewrite (bind_val _ _ _ _ _ _ E5).
  unfold sleepWithContext at 1.
  rewrite (bind_val _ _ _ _ _ _ (eq_refl : ret tt env st4 = (Val tt, st4))).
  assert (Ec : ctxErr env st4 = (Val None, st4))
    by (unfold ctxErr; rewrite Hctx; reflexivity).
  rewrite (bind_val _ _ _ _ _ _ Ec).
  rewrite (bind_val _ _ _ _ _ _ E6). reflexivity.
Qed.

(** ** Rounding: a fraction of a token budget stays within the budget *)

Lemma digits2_size (p : positive) : digits2_pos p = Pos.size p.
Proof. induction p; simpl; congruence. Qed.

Lemma Zdigits2_bounds (p : positive) :
  2 ^ (Zdigits2 (Z.pos p) - 1) <= Z.pos p < 2 ^ Zdigits2 (Z.pos p).
Proof.
  unfold Zdigits2. rewrite digits2_size.
  pose proof (Pos.size_gt p) as G. pose proof (Pos.size_le p) as L.
  apply Pos2Z.pos_lt_pos in G. apply Pos2Z.pos_le_pos in L.
  rewrite Pos2Z.inj_pow in G, L. change (Z.pos p~0) with (2 * Z.pos p) in L.
  assert (E : 2 ^ Z.pos (Pos.size p) = 2 * 2 ^ (Z.pos (Pos.size p) - 1)).
  { rewrite <- Z.pow_succ_r by lia. f_equal. lia. }
  lia.
Qed.

Lemma shr_1_m (r : shr_record) :
  0 <= shr_m r -> shr_m (shr_1 r) = shr_m r / 2.
Proof.
  destruct r as [m r s]. cbn [shr_m]. intros H. unfold shr_1.
  destruct m as [|[p|p|]|p]; cbn [shr_m]; try reflexivity.
  - change (Z.pos p~1) with (2 * Z.pos p + 1).
    apply Z.div_unique with (r := 1); lia.
  - change (Z.pos p~0) with (2 * Z.pos p).
    apply Z.div_unique with (r := 0); lia.
  - lia.
Qed.

Lemma iter_shr_m (p : positive) :
  forall r, 0 <= shr_m r ->
    shr_m (iter_pos shr_1 p r) = shr_m r / 2 ^ Z.pos p.
Proof.
  induction p as [p IH|p IH|]; intros r H; cbn [iter_pos].
  - assert (H1 : 0 <= shr_m (shr_1 r)) by (rewrite shr_1_m by lia; apply Z.div_pos; lia).
    assert (H2 : 0 <= shr_m (iter_pos shr_1 p (shr_1 r)))
      by (rewrite IH by lia; apply Z.div_pos; lia).
    rewrite IH, IH, shr_1_m by lia.
    rewrite !Z.div_div by lia. f_equal.
    rewrite Pos2Z.inj_xI. rewrite Z.pow_add_r, Z.pow_mul_r by lia.
    replace (2 ^ 2) with 4 by reflexivity.
    rewrite <- Z.pow_add_r by lia.
    replace (Z.pos p + Z.pos p) with (2 * Z.pos p) by lia.
    rewrite Z.pow_mul_r by lia. replace (2 ^ 2) with 4 by reflexivity. lia.
  - assert (H2 : 0 <= shr_m (iter_pos shr_1 p r))
      by (rewrite IH by lia; apply Z.div_pos; lia).
    rewrite IH, IH by lia. rewrite Z.div_div by lia. f_equal.
    rewrite Pos2Z.inj_xO. rewrite <- Z.pow_add_r by lia. f_equal. lia.
  - rewrite shr_1_m by lia. reflexivity.
Qed.

Lemma shr_spec (r : shr_record) (e n : Z) :
  0 <= shr_m r ->
  snd (shr r e n) = e + Z.max 0 n /\
  shr_m (fst (shr r e n)) = shr_m r / 2 ^ Z.max 0 n /\
  (n <= 0 -> fst (shr r e n) = r).
Proof.
  intros H. unfold shr. destruct n as [|p|p]; cbn [fst snd].
  - rewrite Z.max_l by lia. cbn. rewrite Z.div_1_r. split; [lia|]. auto.
  - rewrite Z.max_r by lia. split; [reflexivity|]. split; [|lia].
    apply iter_shr_m. exact H.
  - rewrite Z.max_l by lia. cbn. rewrite Z.div_1_r. split; [lia|]. auto.
Qed.

Lemma round_nearest_even_bounds (m : Z) (l : location) :
  m <= round_nearest_even m l <= m + 1.
Proof.
  unfold round_nearest_even. destruct l as [|[| |]]; try lia.
  destruct (Z.even m); lia.
Qed.

Lemma div_pow2_le (a n : Z) : 0 <= a -> 0 <= n -> a / 2 ^ n * 2 ^ n <= a.
Proof.
  intros Ha Hn. pose proof (Z.pow_pos_nonneg 2 n ltac:(lia) Hn).
  pose proof (Z.mul_div_le a (2 ^ n) ltac:(lia)). lia.
Qed.

Lemma binary_round_aux_bound (P : positive) (e : Z) :
  let n1 := Z.max 0 (fexp 53 1024 (Zdigits2 (Z.pos P) + e) - e) in
  match binary_round_aux 53 1024 false (Z.pos P) e loc_Exact with
  | S754_finite s m3 e3 =>
    s = false /\ e <= e3 /\ Z.pos m3 * 2 ^ (e3 - e) <= Z.pos P + 2 ^ n1
  | S754_zero s => s = false
  | _ => True
  end.
Proof.
  intros n1. unfold binary_round_aux, shr_fexp. cbn [shr_record_of_loc].
  set (n := fexp 53 1024 (Zdigits2 (Z.pos P) + e) - e) in *.
  set (r0 := {| shr_m := Z.pos P; shr_r := false; shr_s := false |}).
  destruct (shr_spec r0 e n ltac:(cbn; lia)) as (He1 & Hm1 & Hid).
  destruct (shr r0 e n) as [r1 e1]. cbn [fst snd] in *.
  fold n1 in He1, Hm1. cbn [shr_m r0] in Hm1.
  assert (Hn1 : 0 <= n1) by (unfold n1; lia).
  pose proof (Z.pow_pos_nonneg 2 n1 ltac:(lia) Hn1) as Hp1.
  assert (Hm1' : 0 <= shr_m r1) by (rewrite Hm1; apply Z.div_pos; lia).
  pose proof (round_nearest_even_bounds (shr_m r1) (loc_of_shr_record r1)) as Hr.
  set (m2 := round_nearest_even (shr_m r1) (loc_of_shr_record r1)) in *.
  assert (Hm2 : m2 * 2 ^ n1 <= Z.pos P + 2 ^ n1).
  { pose proof (div_pow2_le (Z.pos P) n1 ltac:(lia) Hn1). rewrite <- Hm1 in H.
    nia. }
  set (n3 := fexp 53 1024 (Zdigits2 m2 + e1) - e1).
  set (r2 := {| shr_m := m2; shr_r := false; shr_s := false |}).
  destruct (shr_spec r2 e1 n3 ltac:(cbn; lia)) as (He3 & Hm3 & _).
  destruct (shr r2 e1 n3) as [r3 e3]. cbn [fst snd] in *. cbn [shr_m r2] in Hm3.
  set (k := Z.max 0 n3) in *. assert (Hk : 0 <= k) by (unfold k; lia).
  pose proof (Z.pow_pos_nonneg 2 k ltac:(lia) Hk) as Hpk.
  pose proof (div_pow2_le m2 k ltac:(lia) Hk) as Hd. rewrite <- Hm3 in Hd.
  destruct (shr_m r3) as [|m3|m3] eqn:E3; [reflexivity| |exact I].
  destruct (e3 <=? 1024 - 53); [|exact I].
  split; [reflexivity|]. split; [lia|].
  replace (e3 - e) with (k + n1) by lia.
  rewrite Z.pow_add_r by lia. nia.
Qed.

Lemma iter_xO (k m : positive) : Z.pos (Pos.iter xO m k) = Z.pos m * 2 ^ Z.pos k.
Proof.
  induction k as [|k IH] using Pos.peano_ind.
  - cbn. lia.
  - rewrite Pos.iter_succ.
    change (Z.pos (Pos.iter xO m k)~0) with (2 * Z.pos (Pos.iter xO m k)).
    rewrite IH, Pos2Z.inj_succ, Z.pow_succ_r by lia. ring.
Qed.

Lemma pow2_lt_inv (a b : Z) : 0 <= b -> 2 ^ a < 2 ^ b -> a < b.
Proof. intros Hb H. apply (Z.pow_lt_mono_r_iff 2); lia. Qed.

Lemma pow2_le_lt_inv (a b x : Z) : 0 <= a -> 0 <= b -> 2 ^ a <= x -> x < 2 ^ b -> a < b.
Proof. intros Ha Hb H1 H2. apply pow2_lt_inv; lia. Qed.

Lemma pow2_pos (n : Z) : 0 <= n -> 0 < 2 ^ n.
Proof. intros H. apply Z.pow_pos_nonneg; lia. Qed.

(** The conversion of a positive [int32]: a float whose value exceeds [M]
    by at most one unit of its last place. *)
Lemma of_int_bound (M : Z) :
  1 <= M <= Go.max_int32 ->
  exists K, 22 <= K <= 52 /\ M * 2 ^ K < 2 ^ 53 /\
    match F64.of_int M with
    | S754_finite s ma ea =>
      s = false /\ - K <= ea /\ Z.pos ma * 2 ^ (ea + K) <= M * 2 ^ K + 1
    | _ => True
    end.
Proof.
  intros HM. unfold Go.max_int32 in HM.
  destruct M as [|p|p]; try lia.
  unfold F64.of_int, binary_normalize, binary_round, F64.prec, F64.emax.
  pose proof (Zdigits2_bounds p) as Hd. cbn [Zdigits2] in Hd.
  set (d := Z.pos (digits2_pos p)) in *.
  assert (Hd1 : 1 <= d) by (unfold d; lia).
  assert (Hd31 : d <= 31).
  { assert (d - 1 < 31); [|lia]. apply (pow2_le_lt_inv _ _ (Z.pos p)); lia. }
  assert (Ef : fexp 53 1024 (d + 0) = d - 53).
  { unfold fexp, emin. lia. }
  rewrite Ef. unfold shl_align.
  destruct (d - 53 - 0) as [|q|q] eqn:Eq; try lia.
  set (K := Z.pos q). assert (HK : K = 53 - d) by (unfold K; lia).
  exists K. split; [lia|].
  pose proof (iter_xO q p) as Hmz. fold K in Hmz.
  assert (Hhi : Z.pos p * 2 ^ K < 2 ^ 53).
  { pose proof (Z.pow_pos_nonneg 2 K ltac:(lia) ltac:(lia)).
    replace 53 with (d + K) by lia. rewrite Z.pow_add_r by lia. nia. }
  split; [exact Hhi|].
  set (mz := Pos.iter xO p q) in *.
  pose proof (binary_round_aux_bound mz (d - 53)) as B. cbv zeta in B.
  pose proof (Zdigits2_bounds mz) as HD.
  set (D := Zdigits2 (Z.pos mz)) in *.
  assert (HDpos : 1 <= D) by (unfold D; cbn; lia).
  pose proof (pow2_pos K ltac:(lia)) as HpK.
  assert (Hmzlo : 2 ^ 52 <= Z.pos mz).
  { rewrite Hmz. replace 52 with ((d - 1) + K) by lia.
    rewrite Z.pow_add_r by lia. nia. }
  assert (Hmzhi : Z.pos mz < 2 ^ 53).
  { rewrite Hmz. replace 53 with (d + K) by lia.
    rewrite Z.pow_add_r by lia. nia. }
  assert (ED : D = 53).
  { assert (D - 1 < 53) by (apply (pow2_le_lt_inv _ _ (Z.pos mz)); lia).
    assert (52 < D) by (apply (pow2_le_lt_inv _ _ (Z.pos mz)); lia). lia. }
  rewrite ED in B.
  replace (Z.max 0 (fexp 53 1024 (53 + (d - 53)) - (d - 53))) with 0 in B
    by (unfold fexp, emin; lia).
  destruct (binary_round_aux 53 1024 false (Z.pos mz) (d - 53) loc_Exact)
    as [s|s| |s ma ea]; try exact I.
  destruct B as (Hs & Hea & Hb). split; [exact Hs|]. split; [lia|].
  replace (ea + K) with (ea - (d - 53)) by lia. rewrite <- Hmz.
  change (2 ^ 0) with 1 in Hb. exact Hb.
Qed.

Lemma mul_of_int_trunc_le (M : Z) (c : float64) :
  1 <= M <= Go.max_int32 -> frac c ->
  forall z, F64.trunc (F64.mul (F64.of_int M) c) = Some z -> 0 <= z <= M.
Proof.
  intros HM (mc & ec & Ec & Hmc & Hec & Hc1) z Hz. subst c.
  destruct (of_int_bound M HM) as (K & HK & HMK' & Hx).
  unfold F64.mul, SFmul, F64.prec, F64.emax in Hz.
  destruct (F64.of_int M) as [s|s| |s ma ea].
  - cbn in Hz. inversion Hz. lia.
  - cbn in Hz. discriminate.
  - cbn in Hz. discriminate.
  - destruct Hx as (Hs & Hea & Hma). subst s. cbn [xorb] in Hz.
    set (L := - ec) in *. assert (HL : 52 <= L <= 57) by (unfold L; lia).
    set (a := ea + K) in *. assert (Ha : 0 <= a) by (unfold a; lia).
    pose proof (pow2_pos K ltac:(lia)) as HpK.
    pose proof (pow2_pos L ltac:(lia)) as HpL.
    pose proof (pow2_pos a Ha) as Hpa.
    assert (HMK : M * 2 ^ K + 1 <= 2 ^ 53).
    { lia. }
    assert (Ha53 : a <= 53).
    { assert (2 ^ a <= 2 ^ 53) by nia.
      destruct (Z.le_gt_cases a 53) as [?|Hgt]; [assumption|].
      assert (2 ^ 53 < 2 ^ a) by (apply Z.pow_lt_mono_r; lia). lia. }
    pose proof (binary_round_aux_bound (ma * mc) (ea + ec)) as B. cbv zeta in B.
    rewrite Pos2Z.inj_mul in B.
    pose proof (Zdigits2_bounds (ma * mc)) as HD. rewrite Pos2Z.inj_mul in HD.
    set (D := Zdigits2 (Z.pos ma * Z.pos mc)) in *.
    assert (HD1 : 1 <= D).
    { unfold D. rewrite <- Pos2Z.inj_mul. cbn. lia. }
    assert (HDa : D + a <= 106).
    { assert (HP : Z.pos ma * Z.pos mc * 2 ^ a < 2 ^ 53 * 2 ^ 53) by nia.
      assert (HP' : 2 ^ (D - 1) * 2 ^ a < 2 ^ 53 * 2 ^ 53) by nia.
      rewrite <- !Z.pow_add_r in HP' by lia.
      apply pow2_lt_inv in HP'; lia. }
    set (n1 := Z.max 0 (fexp 53 1024 (D + (ea + ec)) - (ea + ec))) in *.
    assert (Hn1 : 0 <= n1 /\ n1 + a <= 53).
    { unfold n1, fexp, emin. lia. }
    assert (Hpow : 2 ^ n1 * 2 ^ a <= 2 ^ 53).
    { rewrite <- Z.pow_add_r by lia. apply Z.pow_le_mono_r; lia. }
    change (Z.pos (ma * mc)) with (Z.pos ma * Z.pos mc) in Hz.
    destruct (binary_round_aux 53 1024 false (Z.pos ma * Z.pos mc) (ea + ec)
                               loc_Exact) as [s|s| |s m3 e3].
    + cbn in Hz. inversion Hz. lia.
    + cbn in Hz. discriminate.
    + cbn in Hz. discriminate.
    + destruct B as (Hs & He3 & Hb). subst s.
      set (t := e3 - (ea + ec)) in *. assert (Ht : 0 <= t) by (unfold t; lia).
      pose proof (pow2_pos t Ht) as Hpt.
      assert (HKL : 2 ^ L + 2 ^ 53 < 2 ^ K * 2 ^ L).
      { assert (HA : 2 ^ 22 <= 2 ^ K) by (apply Z.pow_le_mono_r; lia).
        assert (HB : 2 ^ 52 <= 2 ^ L) by (apply Z.pow_le_mono_r; lia).
        assert (2 ^ 22 * 2 ^ L <= 2 ^ K * 2 ^ L)
          by (apply Z.mul_le_mono_nonneg_r; lia).
        lia. }
      assert (Hkey : Z.pos m3 * (2 ^ t * 2 ^ a) < (M + 1) * (2 ^ K * 2 ^ L)).
      { assert (H1 : Z.pos m3 * 2 ^ t * 2 ^ a
                     <= (Z.pos ma * Z.pos mc + 2 ^ n1) * 2 ^ a)
          by (apply Z.mul_le_mono_nonneg_r; lia).
        assert (H2 : Z.pos ma * 2 ^ a * Z.pos mc <= (M * 2 ^ K + 1) * 2 ^ L).
        { apply Z.mul_le_mono_nonneg; lia. }
        replace (Z.pos m3 * (2 ^ t * 2 ^ a)) with (Z.pos m3 * 2 ^ t * 2 ^ a)
          by ring.
        replace ((Z.pos ma * Z.pos mc + 2 ^ n1) * 2 ^ a)
          with (Z.pos ma * 2 ^ a * Z.pos mc + 2 ^ n1 * 2 ^ a) in H1 by ring.
        replace ((M * 2 ^ K + 1) * 2 ^ L)
          with (M * (2 ^ K * 2 ^ L) + 2 ^ L) in H2 by ring.
        replace ((M + 1) * (2 ^ K * 2 ^ L))
          with (M * (2 ^ K * 2 ^ L) + 2 ^ K * 2 ^ L) by ring.
        clear - H1 H2 Hpow HKL.
        set (W := 2 ^ K * 2 ^ L) in *.
        set (U := Z.pos ma * 2 ^ a * Z.pos mc) in *.
        set (V := 2 ^ n1 * 2 ^ a) in *.
        set (Y := M * W) in *.
        set (X := Z.pos m3 * 2 ^ t * 2 ^ a) in *.
        lia. }
      assert (Etk : t + a = e3 + K + L) by (unfold t, a, L; lia).
      rewrite <- Z.pow_add_r in Hkey by lia. rewrite Etk in Hkey.
      unfold F64.trunc in Hz. cbv beta iota zeta in Hz.
      destruct (0 <=? e3) eqn:E3;
        (apply (f_equal (fun o => match o with Some v => v | None => 0 end))
           in Hz; cbv beta iota in Hz; subst z).
      * apply Z.leb_le in E3. pose proof (pow2_pos e3 E3) as Hpe.
        replace (2 ^ (e3 + K + L)) with (2 ^ e3 * (2 ^ K * 2 ^ L)) in Hkey.
        2:{ rewrite <- !Z.pow_add_r by lia. f_equal. lia. }
        rewrite Z.mul_assoc in Hkey.
        apply Z.mul_lt_mono_pos_r in Hkey; [|lia].
        split; [|lia]. apply Z.mul_nonneg_nonneg; lia.
      * apply Z.leb_gt in E3.
        replace (2 ^ K * 2 ^ L) with (2 ^ (- e3) * 2 ^ (e3 + K + L)) in Hkey.
        2:{ rewrite <- !Z.pow_add_r by lia. f_equal. lia. }
        pose proof (pow2_pos (e3 + K + L) ltac:(lia)) as HW.
        pose proof (pow2_pos (- e3) ltac:(lia)) as HE.
        rewrite Z.mul_assoc in Hkey.
        apply Z.mul_lt_mono_pos_r in Hkey; [|lia].
        split; [apply Z.div_pos; lia|].
        assert (Z.pos m3 / 2 ^ (- e3) < M + 1); [|lia].
        apply Z.div_lt_upper_bound; lia.
Qed.

Lemma frac_constants :
  frac F64.c0_05 /\ frac F64.c0_22 /\ frac F64.c0_62 /\ frac F64.c0_92 /\
  frac F64.c1_00.
Proof.
  repeat split; eexists _, _; (split; [reflexivity|]);
    repeat split; try (vm_compute; congruence).
Qed.

Lemma to_int32_frac_le (M : Z) (c : float64) :
  1 <= M <= Go.max_int32 -> frac c ->
  F64.to_int32 (F64.mul (F64.of_int M) c) <= M.
Proof.
  intros HM Hc. unfold F64.to_int32.
  pose proof (mul_of_int_trunc_le M c HM Hc) as H.
  destruct (F64.trunc (F64.mul (F64.of_int M) c)) as [z|].
  - specialize (H z eq_refl).
    destruct ((Go.min_int32 <=? z) && (z <=? Go.max_int32)); [lia|].
    unfold Go.min_int32. lia.
  - unfold Go.min_int32. lia.
Qed.

Lemma bucketRange_bounds (M : Z) (minF maxF : float64) :
  1 <= M <= Go.max_int32 -> frac minF -> frac maxF ->
  let '(minT, maxT) := bucketRange M minF maxF in
  1 <= minT <= maxT /\ maxT <= M.
Proof.
  intros HM Hlo Hhi. unfold bucketRange.
  pose proof (to_int32_frac_le M minF HM Hlo).
  pose proof (to_int32_frac_le M maxF HM Hhi). lia.
Qed.

(** The closure [pickFrac] returns the lower bound of the bucket plus the
    draw of the generator reduced to the size of the bucket. *)
Lemma pickFrac_run (M : Z) (minF maxF : float64) (env : Env) (st : State) :
  1 <= M <= Go.max_int32 -> frac minF -> frac maxF ->
  let '(minT, maxT) := bucketRange M minF maxF in
  exists v p,
    pickFrac M minF maxF env st = (Val v, set_rng_pos p st) /\
    v = minT + (if minT <? maxT
                then rng_int env (rng_pos st) mod (maxT - minT + 1) else 0).
Proof.
  intros HM Hlo Hhi.
  pose proof (bucketRange_bounds M minF maxF HM Hlo Hhi) as HB.
  unfold bucketRange in *. unfold pickFrac.
  set (A := F64.to_int32 (F64.mul (F64.of_int M) minF)) in *.
  set (B := F64.to_int32 (F64.mul (F64.of_int M) maxF)) in *.
  replace (if A <? 1 then 1 else A) with (Z.max 1 A)
    by (destruct (A <? 1) eqn:E; to_prop; lia).
  set (minT := Z.max 1 A) in *.
  replace (if B <? minT then minT else B) with (Z.max minT B)
    by (destruct (B <? minT) eqn:E; to_prop; lia).
  set (maxT := Z.max minT B) in *.
  unfold Go.max_int32 in HM.
  destruct (maxT =? minT) eqn:E; to_prop.
  - exists minT, (rng_pos st). rewrite set_rng_pos_self.
    split; [reflexivity|].
    replace (minT <? maxT) with false by (symmetry; apply Z.ltb_ge; lia). lia.
  - replace (minT <? maxT) with true by (symmetry; apply Z.ltb_lt; lia).
    rewrite (int32_small (maxT - minT)) by lia.
    rewrite (int32_small (maxT - minT + 1)) by lia.
    rewrite (int_small (maxT - minT + 1)) by lia.
    unfold bind, RandIntn.
    replace (maxT - minT + 1 <=? 0) with false
      by (symmetry; apply Z.leb_gt; lia).
    pose proof (Z.mod_pos_bound (rng_int env (rng_pos st)) (maxT - minT + 1)
                                ltac:(lia)) as Hr.
    eexists _, _. split; [reflexivity|]. cbv beta.
    rewrite (int32_small (rng_int env (rng_pos st) mod (maxT - minT + 1)))
      by lia.
    apply int32_small. lia.
Qed.

(** ** Text that [json.Marshal] leaves as it is *)

Lemma byte_val_bound (c : ascii) : 0 <= byte_val c < 256.
Proof.
  unfold byte_val. pose proof (N_ascii_bounded c). lia.
Qed.

Lemma byte_of_val (c : ascii) : byte_of (byte_val c) = c.
Proof.
  unfold byte_of. rewrite Z.mod_small by apply byte_val_bound.
  unfold byte_val. rewrite N2Z.id. apply ascii_N_embedding.
Qed.

Lemma runes_ascii (s : gostring) :
  strings.isASCII s = true -> utf8.runes s = map byte_val s.
Proof.
  unfold utf8.runes. induction s as [|c t IH]; intros H; [reflexivity|].
  cbn [strings.isASCII forallb] in H. apply andb_prop in H.
  destruct H as [Hc Ht]. cbn [utf8.runes_from utf8.DecodeRuneInString].
  rewrite Hc. cbn [Nat.sub map]. f_equal. apply IH. exact Ht.
Qed.

Lemma string_of_runes_ascii (s : gostring) :
  strings.isASCII s = true -> utf8.string_of_runes (map byte_val s) = s.
Proof.
  unfold utf8.string_of_runes. induction s as [|c t IH]; intros H;
    [reflexivity|].
  cbn [strings.isASCII forallb] in H. apply andb_prop in H.
  destruct H as [Hc Ht]. apply Z.ltb_lt in Hc.
  cbn [map concat]. rewrite IH by exact Ht.
  unfold utf8.EncodeRune. pose proof (byte_val_bound c).
  replace ((0 <=? byte_val c) && (byte_val c <=? 127)) with true.
  - rewrite byte_of_val. reflexivity.
  - symmetry. apply andb_true_intro. split; apply Z.leb_le; lia.
Qed.

Lemma isASCII_firstn (n : nat) (s : gostring) :
  strings.isASCII s = true -> strings.isASCII (firstn n s) = true.
Proof.
  unfold strings.isASCII. rewrite !forallb_forall. intros H c Hc.
  apply H. rewrite <- (firstn_skipn n s). apply in_or_app. now left.
Qed.

(** [json.Marshal] leaves ASCII text as it is. *)
Lemma validString_ascii (s : gostring) :
  strings.isASCII s = true -> json.validString s = s.
Proof.
  intros H. unfold json.validString.
  rewrite (runes_ascii s H). apply string_of_runes_ascii, H.
Qed.

Lemma fill_repeat (fuel : nat) :
  forall s target,
    exists j, (j <= fuel)%nat /\
      fill fuel s target = s ++ concat (repeat mock_token j).
Proof.
  induction fuel as [|f IH]; intros s target.
  - exists 0%nat. cbn. now rewrite app_nil_r.
  - cbn [fill]. destruct (len s <? target).
    + destruct (IH (s ++ mock_token) target) as (j & Hj & E).
      exists (S j). split; [lia|]. rewrite E. cbn [repeat concat].
      now rewrite <- app_assoc.
    + exists 0%nat. split; [lia|]. cbn. now rewrite app_nil_r.
Qed.

Lemma firstn_prefix {A} (n : nat) (l r : list A) :
  (n <= length l)%nat -> firstn n (l ++ r) = firstn n l.
Proof.
  intros H. rewrite firstn_app.
  replace (n - length l)%nat with 0%nat by lia.
  cbn [firstn]. apply app_nil_r.
Qed.

Lemma BuildOutput_repeat
    (prompt : gostring) (maxTokens : Z) (echoPrompt strictTokenMode : bool)
    (debugChars maxChars : Z) :
  let target := targetLen maxTokens strictTokenMode debugChars maxChars in
  let head := (if echoPrompt then echoPrefix prompt else []) ++ boilerplate in
  BuildOutput prompt maxTokens echoPrompt strictTokenMode debugChars maxChars
  = firstn (Z.to_nat target)
           (head ++ concat (repeat mock_token (Z.to_nat target))).
Proof.
  intros target head. unfold BuildOutput. fold target.
  assert (Ehead : (if echoPrompt
                   then bytes "Mock answer for: " ++
                        strconv_Quote (trim prompt 140) ++ LF ++ LF
                   else []) ++ boilerplate = head).
  { unfold head, echoPrefix. destruct echoPrompt; reflexivity. }
  rewrite Ehead.
  destruct (fill_repeat (Z.to_nat target) head target) as (j & Hj & E).
  pose proof (fill_reaches (Z.to_nat target) head target) as Hreach.
  pose proof (len_nonneg head) as Hh.
  specialize (Hreach ltac:(lia)). rewrite E in Hreach |- *.
  assert (Hlen : (Z.to_nat target
                  <= length (head ++ concat (repeat mock_token j)))%nat)
    by (unfold len in Hreach; lia).
  replace (Z.to_nat target) with (j + (Z.to_nat target - j))%nat at 3
    by lia.
  rewrite repeat_app, concat_app, app_assoc.
  symmetry. apply firstn_prefix. exact Hlen.
Qed.

Lemma isASCII_app (s t : gostring) :
  strings.isASCII (s ++ t) = strings.isASCII s && strings.isASCII t.
Proof. apply forallb_app. Qed.

Lemma isASCII_repeat_token (k : nat) :
  strings.isASCII (concat (repeat mock_token k)) = true.
Proof.
  induction k as [|k IH]; [reflexivity|].
  cbn [repeat concat]. rewrite isASCII_app, IH. reflexivity.
Qed.

Lemma BuildOutput_ascii (prompt : gostring) (maxTokens : Z) (strict : bool)
    (debugChars maxChars : Z) :
  strings.isASCII (BuildOutput prompt maxTokens false strict debugChars
                               maxChars) = true.
Proof.
  pose proof (BuildOutput_repeat prompt maxTokens false strict debugChars
                maxChars) as E.
  cbv zeta in E. rewrite E. apply isASCII_firstn.
  cbn [app]. rewrite isASCII_app, isASCII_repeat_token. reflexivity.
Qed.

Lemma isASCII_concat (l : list gostring) :
  strings.isASCII (concat l) = forallb strings.isASCII l.
Proof.
  induction l as [|c l IH]; [reflexivity|].
  cbn [concat forallb]. now rewrite isASCII_app, IH.
Qed.

(** No slice of an ASCII text is touched. *)
Lemma ascii_chunksIntact (cs : Z) (out : gostring) :
  1 <= cs -> strings.isASCII out = true -> chunksIntact cs out.
Proof.
  intros Hcs Hout. unfold chunksIntact.
  rewrite <- (chunksOf_concat cs out Hcs), isASCII_concat in Hout.
  rewrite forallb_forall in Hout. apply forallb_forall. intros c Hc.
  unfold intact. rewrite (validString_ascii c (Hout c Hc)).
  apply gostring_eqb_refl.
Qed.

(** * The claims *)

(** C3. A request that meets neither an injected failure nor a
    cancellation, over a transport that fails no message, completes. On the
    gRPC front end the content chunks it emits are the consecutive slices
    of the output of [BuildOutput] at the effective chunk size [cs]: their
    concatenation is the output, there are [ceil(len(output)/cs)] of them,
    none is empty, none is longer than [cs], and the [k]-th chunk is the
    [k]-th slice. On the text-event-stream front end the same slices are
    handed to [writeSSE], in order, between the role and the closing
    event; the texts the response carries are what [json.Marshal] makes of
    them, and they are those slices, with all the properties above,
    whenever no slice starts or ends inside a multi-byte character, as is
    the case when the prompt is not echoed (the output is ASCII then). *)
Theorem C3_content_chunks_reassemble_output
    (cfg : Config) (req : ChatCompletionRequest) (env : Env)
    (model prompt : gostring) (maxTokens chunkSizeArg : Z) :
  (Request_wf req -> Go.is_int (ChunkSize cfg) -> outputFits cfg ->
   noInject cfg env -> sendsSucceed env -> ctx_done env = None ->
   exists eff cs pt ct latency st',
     ChatCompletionStream cfg req env init = (Val None, st') /\
     (Randomize cfg = false ->
      eff = baseTokens cfg req /\ cs = baseChunkSize cfg) /\
     let out := outputOf cfg (buildPromptForTokens req) eff in
     chunkProps cs out (contentTexts (sent st')) /\
     sent st' = map deltaChunk (contentTexts (sent st'))
                ++ [doneChunk pt ct latency])
  /\
  (1 <= sseBaseChunkSize cfg chunkSizeArg <= Go.max_int ->
   len (outputOf cfg prompt maxTokens) < Go.maxAlloc ->
   writesSucceed env -> ctx_done env = None ->
   exists cs id created st',
     serveChatCompletionSSE model prompt maxTokens cfg chunkSizeArg env init
     = (Val tt, st') /\
     (Randomize cfg = false -> cs = sseBaseChunkSize cfg chunkSizeArg) /\
     let out := outputOf cfg prompt maxTokens in
     chunkProps cs out (chunksOf cs out) /\
     body st' = roleFrame id created model
                :: map (contentFrame id created model) (chunksOf cs out)
                ++ [lastFrame id created model; FrameDone] /\
     sseContentTexts (body st') = map json.validString (chunksOf cs out) /\
     (chunksIntact cs out ->
      chunkProps cs out (sseContentTexts (body st'))) /\
     (EchoPrompt cfg = false -> chunksIntact cs out)).
Proof.
  split.
  - intros Hreq Hcs Hfit Hno Hsend Hctx.
    destruct (stream_run cfg req env Hreq Hcs Hfit Hsend Hno)
      as (eff & cs & latency & st' & Heff & Hcsr & Hbase & Hlat & Hrun).
    { intros n e E. rewrite Hctx in E. discriminate. }
    cbv zeta in Hrun. rewrite Hctx in Hrun. cbn [loopOutcome fst snd] in Hrun.
    destruct Hrun as [Erun Hsent].
    exists eff, cs, (Go.int32 (ApproxTokens (buildPromptForTokens req))),
      (Go.int32 (ApproxTokens (outputOf cfg (buildPromptForTokens req) eff))),
      latency, st'.
    split; [exact Erun|]. split; [exact Hbase|]. cbv zeta.
    rewrite Hsent, contentTexts_stream by reflexivity.
    split; [apply chunkProps_chunksOf; lia | reflexivity].
  - intros Hbase Hfit Hw Hctx.
    destruct (serveChatCompletionSSE_run model prompt maxTokens cfg
                chunkSizeArg env Hbase Hfit Hw Hctx)
      as (cs & id & created & st' & Hcs & Hcsbase & Erun & _ & Hbody).
    exists cs, id, created, st'.
    split; [exact Erun|]. split; [exact Hcsbase|]. cbv zeta.
    split; [apply chunkProps_chunksOf; lia|].
    split; [exact Hbody|].
    rewrite Hbody, sseContentTexts_body. split; [reflexivity|]. split.
    + intros Hint. unfold chunksIntact in Hint. rewrite (intact_map _ Hint).
      apply chunkProps_chunksOf; lia.
    + intros Hecho. apply ascii_chunksIntact; [lia|].
      unfold outputOf. rewrite Hecho. apply BuildOutput_ascii.
Qed.

(** C1 (amended). With randomization disabled, for the same prompt text,
    the same positive max-token budget, the same configuration and the same
    effective chunk size, when no failure is injected on the gRPC path (the
    text-event-stream path has no error injection), neither call meets a
    cancellation or a transport failure, and no slice of the output at the
    chunk size starts or ends inside a multi-byte character, the two front
    ends synthesize the same output text and emit the same ordered sequence
    of content chunk texts. *)
Theorem C1_front_ends_agree
    (cfg : Config) (req : ChatCompletionRequest) (model : gostring)
    (chunkSizeArg : Z) (env1 env2 : Env) :
  Randomize cfg = false ->
  Request_wf req -> 0 < MaxTokens req ->
  Go.is_int (ChunkSize cfg) ->
  sseBaseChunkSize cfg chunkSizeArg = baseChunkSize cfg ->
  outputFits cfg ->
  noInject cfg env1 -> sendsSucceed env1 -> ctx_done env1 = None ->
  writesSucceed env2 -> ctx_done env2 = None ->
  chunksIntact (baseChunkSize cfg)
               (outputOf cfg (buildPromptForTokens req) (MaxTokens req)) ->
  exists st1 st2,
    ChatCompletionStream cfg req env1 init = (Val None, st1) /\
    serveChatCompletionSSE model (buildPromptForTokens req) (MaxTokens req)
                           cfg chunkSizeArg env2 init = (Val tt, st2) /\
    let out := outputOf cfg (buildPromptForTokens req) (MaxTokens req) in
    concat (contentTexts (sent st1)) = out /\
    concat (sseContentTexts (body st2)) = out /\
    contentTexts (sent st1) = sseContentTexts (body st2).
Proof.
  intros Hrand Hreq Hpos Hcs Hsame Hfit Hno Hsend Hctx1 Hw Hctx2 Hint.
  destruct (stream_run cfg req env1 Hreq Hcs Hfit Hsend Hno)
    as (eff & cs & latency & st1 & Heff & Hcsr & Hbase & Hlat & Hrun).
  { intros n e E. rewrite Hctx1 in E. discriminate. }
  destruct (Hbase Hrand) as [Eeff Ecs]. subst eff cs.
  cbv zeta in Hrun. rewrite Hctx1 in Hrun. cbn [loopOutcome fst snd] in Hrun.
  destruct Hrun as [Erun Hsent].
  assert (Ebt : baseTokens cfg req = MaxTokens req).
  { unfold baseTokens. destruct (MaxTokens req <=? 0) eqn:E; [|reflexivity].
    apply Z.leb_le in E. lia. }
  rewrite Ebt in *.
  destruct (serveChatCompletionSSE_run model (buildPromptForTokens req)
              (MaxTokens req) cfg chunkSizeArg env2)
    as (cs2 & id & created & st2 & Hcs2 & Hcsbase & Erun2 & _ & Hbody);
    [rewrite Hsame; exact Hcsr | apply outputOf_fits; assumption
     | exact Hw | exact Hctx2 |].
  rewrite (Hcsbase Hrand), Hsame in Hbody.
  exists st1, st2. split; [exact Erun|]. split; [exact Erun2|]. cbv zeta.
  rewrite Hsent, contentTexts_stream by reflexivity.
  rewrite Hbody, sseContentTexts_body, (intact_map _ Hint).
  split; [|split; [|reflexivity]]; apply chunksOf_concat; lia.
Qed.


Lemma chunksOf_nonempty (cs : Z) (out : gostring) :
  1 <= cs -> 1 <= len out -> (1 <= length (chunksOf cs out))%nat.
Proof.
  intros Hcs Hout. destruct out as [|c t]; [unfold len in Hout; simpl in Hout; lia|].
  rewrite chunksOf_cons by (lia || discriminate). cbn [length]. lia.
Qed.


(** C2 (amended). Whenever the stream returns an error, by cancellation as
    by any other cause, the deferred function hands exactly one "failed"
    event to the transport, as the last message, with the text of the
    error as its finish reason, and takes no notice of the result; no
    "failed" event goes out on a stream that returns no error. *)
Theorem C2_failed_event_after_every_abort
    (cfg : Config) (req : ChatCompletionRequest) (env : Env) :
  let '(r, st') := ChatCompletionStream cfg req env init in
  match r with
  | Val (Some e) =>
    exists l, sent st' = l ++ [failedChunk (Error e)] /\ Forall notFailed l
  | Val None => Forall notFailed (sent st')
  | _ => True
  end.
Proof.
  unfold ChatCompletionStream.
  set (t0 := now init + Z.of_N (elapse env (clock_reads init))).
  rewrite (bind_val _ _ _ _ _ _ (eq_refl : time_Now env init
                                   = (Val t0, set_clock 1 t0 init))).
  pose proof (preserves_streamBody cfg req t0 env (set_clock 1 t0 init)) as P.
  unfold bind.
  destruct (streamBody cfg req t0 env (set_clock 1 t0 init))
    as [[[e|]| |] st1]; cbn [snd] in P; try exact I.
  - destruct P as (l & E & F). cbn [sent set_clock init app] in E.
    unfold Send, ret. exists l. split; [|exact F].
    cbn [sent set_sent]. now rewrite E.
  - destruct P as (l & E & F). cbn [sent set_clock init app] in E.
    unfold ret. now rewrite E.
Qed.




Lemma ApproxTokens_bound (s : gostring) :
  len s < Go.maxAlloc -> 0 <= 4 * ApproxTokens s <= len s + 3.
Proof.
  intros H. pose proof (ApproxTokens_ceil s H) as C. cbv zeta in C.
  pose proof (runes_length_le s). unfold len in *. lia.
Qed.

(** Without the echo the output does not depend on the prompt. *)
Lemma BuildOutput_no_echo (p1 p2 : gostring) (maxTokens : Z) (strict : bool)
    (debugChars maxChars : Z) :
  BuildOutput p1 maxTokens false strict debugChars maxChars
  = BuildOutput p2 maxTokens false strict debugChars maxChars.
Proof. reflexivity. Qed.

(** C7. The unary scenario: user prompt "tell me a joke", a budget of 12
    tokens, strict token mode on, no echo, no debug size, the default cap,
    every delay knob 0, error rate 0, no randomization and no cancellation.
    The call returns the text [BuildOutput(prompt, 12, false, true, 0, 0)]
    with finish reason "stop", a latency that is not negative, prompt and
    completion tokens as [ApproxTokens] counts them, and their sum as the
    total. *)
Theorem C7_unary_scenario
    (cfg : Config) (req : ChatCompletionRequest) (env : Env) :
  UserPrompt req = bytes "tell me a joke" -> MaxTokens req = 12 ->
  StrictTokenMode cfg = true -> EchoPrompt cfg = false ->
  DebugOutputChars cfg = 0 -> MaxOutputChars cfg = 0 ->
  Randomize cfg = false ->
  BaseDelayMs cfg = 0 -> JitterMs cfg = 0 -> PerTokenDelayMs cfg = 0 ->
  TTFTMinMs cfg = 0 -> TTFTMaxMs cfg = 0 -> TokensPerSec cfg = 0 ->
  StreamDelayMinMs cfg = 0 -> StreamDelayMaxMs cfg = 0 ->
  ErrorRate cfg = F64.c0_0 ->
  ctx_done env = None ->
  len (buildPromptForTokens req) <= Go.max_int32 ->
  exists resp st',
    ChatCompletion cfg req env init = (Val (Some resp, None), st') /\
    OutputText resp = BuildOutput (buildPromptForTokens req) 12 false true 0 0 /\
    RespFinishReason resp = bytes "stop" /\
    0 <= RespLatencyMs resp /\
    RespPromptTokens resp = ApproxTokens (buildPromptForTokens req) /\
    RespCompletionTokens resp = ApproxTokens (OutputText resp) /\
    RespTotalTokens resp = RespPromptTokens resp + RespCompletionTokens resp.
Proof.
  intros Hup Hmt Hstrict Hecho Hdebug Hcap Hrand Hbase Hjit Hper Htmin Htmax
         Htps Hsmin Hsmax Hrate Hctx Hlen.
  assert (Hno : noInject cfg env).
  { unfold noInject. rewrite shouldFail_eq, Hrate. reflexivity. }
  destruct (unary_run cfg req env Hno Hctx) as (eff & latency & st' & Heff & Hlat & E).
  { left. unfold tokensPerSec, defaultInt. rewrite Htps. cbn. lia. }
  specialize (Heff Hrand). cbv zeta in E.
  assert (Eeff : eff = 12).
  { rewrite Heff. unfold baseTokens. rewrite Hmt. reflexivity. }
  rewrite Eeff in *. clear Eeff Heff.
  set (prompt := buildPromptForTokens req) in *.
  assert (Eout : outputOf cfg prompt 12 = BuildOutput prompt 12 false true 0 0).
  { unfold outputOf. now rewrite Hecho, Hstrict, Hdebug, Hcap. }
  rewrite Eout in E.
  set (out := BuildOutput prompt 12 false true 0 0) in *.
  assert (Hout : len out = 64) by (unfold out; now rewrite BuildOutput_len).
  unfold Go.max_int32 in Hlen.
  pose proof (ApproxTokens_bound prompt ltac:(unfold Go.maxAlloc; lia)) as Bp.
  pose proof (ApproxTokens_bound out ltac:(unfold Go.maxAlloc; lia)) as Bo.
  assert (Ept : Go.int32 (ApproxTokens prompt) = ApproxTokens prompt)
    by (apply int32_small; lia).
  assert (Ect : Go.int32 (ApproxTokens out) = ApproxTokens out)
    by (apply int32_small; lia).
  rewrite Ept, Ect in E.
  assert (Et : Go.int32 (ApproxTokens prompt + ApproxTokens out)
               = ApproxTokens prompt + ApproxTokens out)
    by (apply int32_small; lia).
  rewrite Et in E.
  eexists _, st'. split; [exact E|]. cbn [OutputText RespFinishReason
    RespLatencyMs RespPromptTokens RespCompletionTokens RespTotalTokens].
  repeat split; try reflexivity; exact Hlat.
Qed.

(** C10. A request to the text-event-stream handler whose [prompt] query
    parameter is empty or absent is answered with status 400; the body
    holds the plain-text message and no stream data: no role event, no
    content event, no terminal event and no [data: [DONE]] sentinel, and
    nothing is left in a buffer. *)
Theorem C10_missing_prompt_is_rejected
    (cfg : Config) (q : url.Values) (env : Env) :
  url.Get q (bytes "prompt") = [] ->
  exists st',
    ChatCompletionSSEHandler cfg q env init = (Val tt, st') /\
    status st' = Some 400 /\
    body st' = [FrameText (bytes "prompt is required" ++ LF)] /\
    Forall (fun f => isStreamFrame f = false) (body st') /\
    buffered st' = [] /\ sent st' = [].
Proof.
  intros H. unfold ChatCompletionSSEHandler. rewrite H.
  change (gostring_eqb [] []) with true. cbv iota.
  eexists. split; [reflexivity|]. cbn.
  repeat split. repeat constructor.
Qed.

(** C9. For every text (one the run-time can hold), [ApproxTokens] is the
    ceiling of a quarter of the rune length; the empty text counts 0; and
    the estimate does not decrease when the rune length grows. *)
Theorem C9_ApproxTokens_ceiling_monotone (s t : gostring) :
  len s < Go.maxAlloc -> len t < Go.maxAlloc ->
  ApproxTokens s = ceil_div (runeLength s) 4 /\
  ApproxTokens [] = 0 /\
  (runeLength s <= runeLength t -> ApproxTokens s <= ApproxTokens t).
Proof.
  intros Hs Ht.
  pose proof (ApproxTokens_ceil s Hs) as Cs.
  pose proof (ApproxTokens_ceil t Ht) as Ct. cbv zeta in Cs, Ct.
  fold (runeLength s) in Cs. fold (runeLength t) in Ct.
  split; [|split].
  - symmetry. apply ceil_div_unique; lia.
  - reflexivity.
  - intros Hle. lia.
Qed.

(** C4 (amended). When [maxTokens * 4] is a value of type [int] (always,
    outside strict token mode), the length of the result of [BuildOutput]
    is exactly the target clamped between the floor 64 and the ceiling:
    the target is [debugChars] if not zero, else 512, or [maxTokens * 4] in
    strict token mode (128 tokens when the caller gave none); the ceiling
    is [maxChars], 4096 when [maxChars] is 0, none when it is negative.
    This holds whatever the echo prefix. *)
Theorem C4_BuildOutput_length_is_clamped_target
    (prompt : gostring) (maxTokens : Z) (echoPrompt strictTokenMode : bool)
    (debugChars maxChars : Z) :
  (strictTokenMode = true -> maxTokens * 4 <= Go.max_int) ->
  len (BuildOutput prompt maxTokens echoPrompt strictTokenMode debugChars
                   maxChars)
  = clamp (spec_target strictTokenMode debugChars maxTokens) 64
          (spec_ceiling maxChars).
Proof.
  intros Hov. rewrite BuildOutput_len.
  unfold targetLen, clamp, spec_target, spec_ceiling, Go.max_int in *.
  destruct strictTokenMode.
  - specialize (Hov eq_refl).
    destruct (maxTokens <=? 0) eqn:E0; to_prop;
      rewrite int_small by lia; repeat break_if; to_prop; lia.
  - repeat break_if; to_prop; lia.
Qed.

(** C8. For every [int32] budget [maxTokens] and every prompt length,
    [pickTargetTokens] returns a value in [[1, M]], where [M] is
    [maxTokens] if positive and 128 otherwise: it selects one of the four
    buckets (short 5-22%, normal 22-62%, long 62-92%, maxed 92-100%) and
    returns the lower token bound of that bucket, floored at 1, plus the
    draw of the generator reduced to the number of values in the bucket. *)
Theorem C8_pickTargetTokens_within_budget
    (maxTokens promptRunes : Z) (env : Env) (st : State) :
  Go.is_int32 maxTokens ->
  let M := if 0 <? maxTokens then maxTokens else 128 in
  exists v p minF maxF,
    pickTargetTokens maxTokens promptRunes env st = (Val v, set_rng_pos p st) /\
    In (minF, maxF) buckets /\
    let '(minT, maxT) := bucketRange M minF maxF in
    1 <= minT <= maxT /\ maxT <= M /\
    v = minT + (if minT <? maxT
                then rng_int env (S (rng_pos st)) mod (maxT - minT + 1)
                else 0) /\
    minT <= v <= maxT /\ 1 <= v <= M.
Proof.
  clear strconv_Quote unicode_ToLower.
  intros Hmt M.
  assert (HM : 1 <= M <= Go.max_int32).
  { unfold M, Go.is_int32, Go.max_int32, Go.min_int32 in *.
    destruct (0 <? maxTokens) eqn:E; to_prop; lia. }
  unfold pickTargetTokens.
  replace (if maxTokens <=? 0 then 128 else maxTokens) with M
    by (unfold M; destruct (0 <? maxTokens) eqn:E1;
        destruct (maxTokens <=? 0) eqn:E2; to_prop; lia).
  destruct frac_constants as (F05 & F22 & F62 & F92 & F100).
  assert (Hgen : forall minF maxF, frac minF -> frac maxF ->
    In (minF, maxF) buckets ->
    exists v p minF' maxF',
      pickFrac M minF maxF env (set_rng_pos (S (rng_pos st)) st)
      = (Val v, set_rng_pos p st) /\
      In (minF', maxF') buckets /\
      let '(minT, maxT) := bucketRange M minF' maxF' in
      1 <= minT <= maxT /\ maxT <= M /\
      v = minT + (if minT <? maxT
                  then rng_int env (S (rng_pos st)) mod (maxT - minT + 1)
                  else 0) /\
      minT <= v <= maxT /\ 1 <= v <= M).
  { intros minF maxF Hlo Hhi Hin.
    pose proof (bucketRange_bounds M minF maxF HM Hlo Hhi) as HB.
    pose proof (pickFrac_run M minF maxF env (set_rng_pos (S (rng_pos st)) st)
                             HM Hlo Hhi) as HR.
    destruct (bucketRange M minF maxF) as [minT maxT] eqn:EB.
    destruct HR as (v & p & Erun & Ev). cbn [rng_pos set_rng_pos] in Ev.
    exists v, p, minF, maxF. split; [exact Erun|]. split; [exact Hin|].
    rewrite EB. split; [tauto|]. split; [tauto|]. split; [exact Ev|].
    destruct (minT <? maxT) eqn:E; to_prop.
    - pose proof (Z.mod_pos_bound (rng_int env (S (rng_pos st)))
                                  (maxT - minT + 1) ltac:(lia)). lia.
    - lia. }
  destruct (1200 <? promptRunes); [|destruct (600 <? promptRunes)];
    cbv beta iota zeta;
    unfold bind at 1; unfold RandFloat64 at 1;
    repeat match goal with
           | |- context [if ?b then pickFrac _ _ _ else _] => destruct b
           end;
    apply Hgen; auto; cbn; auto 6.
Qed.

(** * Further properties of the code *)

(** ** Strings *)

Lemma EncodeRune_len (r : Z) : 1 <= len (utf8.EncodeRune r) <= 4.
Proof.
  unfold utf8.EncodeRune, utf8.encode3, len.
  repeat match goal with
         | |- context [if ?b then _ else _] => destruct b
         end; cbn [length]; lia.
Qed.

Lemma string_of_runes_len (rs : list Z) :
  len (utf8.string_of_runes rs) <= 4 * Z.of_nat (length rs).
Proof.
  unfold utf8.string_of_runes. induction rs as [|r rs IH]; [cbn; lia|].
  cbn [map concat length]. rewrite len_app.
  pose proof (EncodeRune_len r). lia.
Qed.

(** ** Comparison of floats *)

Ltac cmp_cases :=
  repeat match goal with
         | H : context [Z.compare ?x ?y] |- _ =>
           destruct (Z.compare_spec x y); try discriminate H
         | |- context [Z.compare ?x ?y] =>
           destruct (Z.compare_spec x y)
         | H : context [Pos.compare ?x ?y] |- _ =>
           destruct (Pos.compare_spec x y); try discriminate H
         | |- context [Pos.compare ?x ?y] =>
           destruct (Pos.compare_spec x y)
         end.

Lemma SFltb_leb_trans (r a b : spec_float) :
  SFltb r a = true -> SFleb a b = true -> SFltb r b = true.
Proof.
  clear strconv_Quote unicode_ToLower.
  unfold SFltb, SFleb.
  destruct r as [sr|sr| |sr mr er], a as [sa|sa| |sa ma ea],
           b as [sb|sb| |sb mb eb]; cbn [SFcompare];
    try discriminate; try reflexivity;
    repeat match goal with s : bool |- _ => destruct s end;
    try discriminate; try reflexivity;
    change (Pos.compare_cont Eq) with Pos.compare;
    intros H1 H2; cmp_cases; subst; cbn [CompOpp] in *;
    try discriminate; try reflexivity; try lia.
Qed.

Lemma SFleb_trans (r a b : spec_float) :
  SFleb r a = true -> SFleb a b = true -> SFleb r b = true.
Proof.
  clear strconv_Quote unicode_ToLower.
  unfold SFleb.
  destruct r as [sr|sr| |sr mr er], a as [sa|sa| |sa ma ea],
           b as [sb|sb| |sb mb eb]; cbn [SFcompare];
    try discriminate; try reflexivity;
    repeat match goal with s : bool |- _ => destruct s end;
    try discriminate; try reflexivity;
    change (Pos.compare_cont Eq) with Pos.compare;
    intros H1 H2; cmp_cases; subst; cbn [CompOpp] in *;
    try discriminate; try reflexivity; try lia.
Qed.

(** ** Package mock *)

Lemma RandID_loop_run (env : Env) (n : nat) :
  forall b st,
    exists l,
      RandID_loop n b env st
      = (Val (b ++ l), set_rng_pos (rng_pos st + n) st) /\
      length l = n /\ Forall (fun c => In c letters) l.
Proof.
  induction n as [|n IH]; intros b st.
  - exists []. cbn [RandID_loop]. unfold ret.
    rewrite app_nil_r, Nat.add_0_r, set_rng_pos_self.
    split; [reflexivity|]. split; [reflexivity | constructor].
  - cbn [RandID_loop]. unfold bind at 1. unfold RandIntn.
    change (len letters <=? 0) with false. cbv beta iota.
    set (k := rng_int env (rng_pos st) mod len letters).
    assert (Hk : 0 <= k < len letters).
    { apply Z.mod_pos_bound. reflexivity. }
    destruct (IH (b ++ [nth (Z.to_nat k) letters Ascii.zero])
                 (set_rng_pos (S (rng_pos st)) st)) as (l & E & Hl & Hf).
    exists (nth (Z.to_nat k) letters Ascii.zero :: l).
    rewrite E. split; [|split].
    + rewrite <- app_assoc. cbn [app]. f_equal.
      unfold set_rng_pos. cbn. f_equal. lia.
    + cbn [length]. now rewrite Hl.
    + constructor; [|exact Hf]. apply nth_In. unfold len in Hk. lia.
Qed.

(** X1. [RandID] returns an identifier of exactly ten bytes, each of them
    one of the 36 letters of its alphabet (lower-case letters and digits);
    it makes exactly ten draws from the shared generator and touches
    nothing else. *)
Theorem RandID_ten_letters (env : Env) (st : State) :
  exists id,
    RandID env st = (Val id, set_rng_pos (rng_pos st + 10) st) /\
    len id = 10 /\ Forall (fun c => In c letters) id.
Proof.
  destruct (RandID_loop_run env 10 [] st) as (l & E & Hl & Hf).
  exists l. unfold RandID. rewrite E. cbn [app].
  split; [reflexivity|]. split; [unfold len; now rewrite Hl | exact Hf].
Qed.

(** X2. [trim(s, n)], for [0 <= n]: a text of at most [n] runes (so every
    text of at most [n] bytes) is returned as it is; a longer one becomes
    at most [4 * n] bytes followed by the three bytes of the ellipsis; on
    ASCII text the result is the first [n] bytes and the ellipsis. *)
Theorem trim_short_or_ellipsis (s : gostring) (n : Z) :
  0 <= n ->
  (runeLength s <= n -> trim s n = s) /\
  (len s <= n -> trim s n = s) /\
  (n < runeLength s ->
   exists t, trim s n = t ++ ellipsis /\ len t <= 4 * n) /\
  (strings.isASCII s = true -> n < len s ->
   trim s n = firstn (Z.to_nat n) s ++ ellipsis).
Proof.
  intros Hn. unfold trim, runeLength.
  pose proof (runes_length_le s) as Hle.
  split; [|split; [|split]].
  - intros H. apply Z.leb_le in H. now rewrite H.
  - intros H. unfold len in H.
    replace (Z.of_nat (length (utf8.runes s)) <=? n) with true;
      [reflexivity|]. symmetry. apply Z.leb_le. lia.
  - intros H. apply Z.leb_gt in H. rewrite H.
    eexists. split; [reflexivity|].
    etransitivity; [apply string_of_runes_len|].
    pose proof (firstn_le_length (Z.to_nat n) (utf8.runes s)).
    rewrite length_firstn. lia.
  - intros Ha H. rewrite runes_ascii by exact Ha.
    rewrite length_map. unfold len in H.
    replace (Z.of_nat (length s) <=? n) with false
      by (symmetry; apply Z.leb_gt; lia).
    rewrite firstn_map, string_of_runes_ascii; [reflexivity|].
    apply isASCII_firstn. exact Ha.
Qed.

(** X3. The text of [BuildOutput]: the first [target] bytes of the echo
    prefix (when asked for), the two boilerplate sentences and as many
    repetitions of "[mock-token] " as needed; nothing else is ever in
    the output. When the prefix and the boilerplate already reach the
    target, the output is cut inside them. *)
Theorem BuildOutput_filler
    (prompt : gostring) (maxTokens : Z) (echoPrompt strictTokenMode : bool)
    (debugChars maxChars : Z) :
  let target := targetLen maxTokens strictTokenMode debugChars maxChars in
  let head := (if echoPrompt then echoPrefix prompt else []) ++ boilerplate in
  BuildOutput prompt maxTokens echoPrompt strictTokenMode debugChars maxChars
  = firstn (Z.to_nat target)
           (head ++ concat (repeat mock_token (Z.to_nat target))) /\
  (target <= len head ->
   BuildOutput prompt maxTokens echoPrompt strictTokenMode debugChars maxChars
   = firstn (Z.to_nat target) head).
Proof.
  intros target head.
  pose proof (BuildOutput_repeat prompt maxTokens echoPrompt strictTokenMode
                debugChars maxChars) as E.
  cbv zeta in E. fold target in E. fold head in E.
  split; [exact E|].
  intros Hle. rewrite E. apply firstn_prefix. unfold len in Hle. lia.
Qed.

(** X4. [pickErrorStatus] and [pickGrpcErrorCode] choose the same failure
    class, 429 for [ResourceExhausted] and 500 for [Internal], and leave
    the generator in the same position, on the modes "429" and "500" and
    on every mode that [pickGrpcErrorCode] does not know (the mixed mode:
    one draw each); in particular [pickErrorStatus] returns 429 or 500. *)
Theorem pickErrorStatus_agrees_with_grpc
    (mode : gostring) (env : Env) (st : State) :
  mode = bytes "429" \/ mode = bytes "500"
  \/ ~ In (normalMode mode) grpcAliases ->
  exists c st',
    pickGrpcErrorCode mode env st = (Val c, st') /\
    pickErrorStatus mode env st = (Val (statusCode c), st').
Proof.
  clear strconv_Quote.
  intros [H|[H|H]].
  - subst mode. exists ResourceExhausted, st. split; reflexivity.
  - subst mode. exists Internal, st. split; reflexivity.
  - assert (Hne : forall a, In a grpcAliases ->
                            gostring_eqb (normalMode mode) a = false).
    { intros a Ha. apply gostring_eqb_neq. intros E. apply H.
      now rewrite E. }
    assert (H429 : gostring_eqb mode (bytes "429") = false).
    { apply gostring_eqb_neq. intros E. apply H. subst mode.
      cbv. tauto. }
    assert (H500 : gostring_eqb mode (bytes "500") = false).
    { apply gostring_eqb_neq. intros E. apply H. subst mode.
      cbv. tauto. }
    unfold pickGrpcErrorCode, pickErrorStatus. fold (normalMode mode).
    rewrite H429, H500.
    rewrite !Hne by (cbn; tauto). cbn [orb].
    unfold bind, RandIntn. cbn [Z.leb Z.compare].
    destruct (rng_int env (rng_pos st) mod 2 =? 0); eexists _, _;
      split; reflexivity.
Qed.

Lemma lastUserMessage_loop_app (n : nat) :
  forall l r, (n <= length l)%nat ->
    lastUserMessage_loop (l ++ r) n = lastUserMessage_loop l n.
Proof.
  induction n as [|i IH]; intros l r H; [reflexivity|].
  cbn [lastUserMessage_loop]. rewrite nth_error_app1 by lia.
  destruct (nth_error l i) as [m|]; [|reflexivity].
  destruct (gostring_eqb (Role m) (bytes "user")); [reflexivity|].
  apply IH. lia.
Qed.

Lemma lastUserMessage_loop_snoc (l : list ChatMessage) (x : ChatMessage) :
  lastUserMessage_loop (l ++ [x]) (length (l ++ [x]))
  = if isUser x then Content x
    else lastUserMessage_loop l (length l).
Proof.
  rewrite length_app. cbn [length]. rewrite Nat.add_1_r.
  cbn [lastUserMessage_loop].
  rewrite nth_error_app2, Nat.sub_diag by lia. cbn [nth_error].
  unfold isUser. destruct (gostring_eqb (Role x) (bytes "user"));
    [reflexivity|].
  apply lastUserMessage_loop_app. lia.
Qed.

(** X5. [lastUserMessage] returns the content of the last message whose
    role is "user", whatever comes before it, and the empty string when
    no message has that role. *)
Theorem lastUserMessage_last_user (req : ChatRequest) :
  (forall l1 m l2,
     Messages req = l1 ++ m :: l2 -> Role m = bytes "user" ->
     Forall (fun m' => Role m' <> bytes "user") l2 ->
     lastUserMessage req = Content m) /\
  (Forall (fun m => Role m <> bytes "user") (Messages req) ->
   lastUserMessage req = []).
Proof.
  unfold lastUserMessage. split.
  - intros l1 m l2 E Hm Hl2. rewrite E. clear E. revert Hl2.
    induction l2 as [|x l2 IH] using rev_ind; intros Hl2.
    + change (l1 ++ [m]) with (l1 ++ [m]).
      rewrite lastUserMessage_loop_snoc. unfold isUser.
      rewrite Hm. now rewrite gostring_eqb_refl.
    + apply Forall_app in Hl2. destruct Hl2 as [Hl2 Hx].
      inversion Hx as [|? ? Hx' _]; subst.
      replace (l1 ++ m :: l2 ++ [x]) with ((l1 ++ m :: l2) ++ [x])
        by (rewrite <- app_assoc; reflexivity).
      rewrite lastUserMessage_loop_snoc. unfold isUser.
      apply gostring_eqb_neq in Hx'. rewrite Hx'. apply IH. exact Hl2.
  - generalize (Messages req). intros l.
    induction l as [|x l IH] using rev_ind; intros H; [reflexivity|].
    apply Forall_app in H. destruct H as [Hl Hx].
    inversion Hx as [|? ? Hx' _]; subst.
    rewrite lastUserMessage_loop_snoc. unfold isUser.
    apply gostring_eqb_neq in Hx'. rewrite Hx'. apply IH. exact Hl.
Qed.

(** ** Package config *)

Lemma Atoi_is_int (s : gostring) (n : Z) :
  strconv.Atoi s = Some n -> Go.is_int n.
Proof.
  unfold strconv.Atoi.
  destruct (match s with
            | [] => (false, s)
            | c :: t => if byte_val c =? 45 then (true, t)
                        else if byte_val c =? 43 then (false, t)
                        else (false, s)
            end) as [neg ds].
  destruct ds as [|d ds]; [discriminate|].
  destruct (strconv.digits 0 (d :: ds)) as [v|]; [|discriminate].
  destruct (Go.is_intb (if neg then - v else v)) eqn:E; [|discriminate].
  intros H. inversion H; subst. unfold Go.is_intb in E.
  apply andb_prop in E. destruct E as [E1 E2].
  apply Z.leb_le in E1, E2. split; assumption.
Qed.

Lemma getEnvInt_is_int (getenv : Environ) (k : gostring) (def : Z) :
  Go.is_int def -> Go.is_int (getEnvInt getenv k def).
Proof.
  intros H. unfold getEnvInt.
  destruct (negb (gostring_eqb (getenv k) [])); [|exact H].
  destruct (strconv.Atoi (getenv k)) eqn:E; [|exact H].
  eapply Atoi_is_int; eauto.
Qed.

Ltac split_ands := repeat match goal with |- _ /\ _ => split end.

Lemma is_int_small (z : Z) : - 2 ^ 63 <= z < 2 ^ 63 -> Go.is_int z.
Proof. unfold Go.is_int, Go.min_int, Go.max_int. lia. Qed.



Lemma getEnvInt_eq (getenv : Environ) (k : gostring) (def : Z) :
  getEnvInt getenv k def
  = match strconv.Atoi (getenv k) with Some n => n | None => def end.
Proof.
  unfold getEnvInt. destruct (gostring_eqb (getenv k) []) eqn:E;
    [|reflexivity].
  apply gostring_eqb_eq in E. rewrite E. reflexivity.
Qed.

Ltac is_key := cbv; tauto.
Ltac not_key := cbv; intuition discriminate.

(** X6. [LoadConfig] falls back to its defaults: when no integer variable
    of the environment holds an integer (unset, empty, not a number or
    out of the range of [int]) and the other variables are not set, the
    configuration is port 8787, profile "default", preset "openai", error
    mode "mixed" at rate 0, 128 default tokens, chunks of 12 bytes, 120
    tokens per second, an output cap of 16384 bytes, strict token mode
    on, and every delay, the echo and the randomization off. *)
Theorem LoadConfig_defaults (getenv : Environ)
    (parse : gostring -> option float64) :
  (forall k, In k intKeys -> strconv.Atoi (getenv k) = None) ->
  (forall k, ~ In k intKeys -> getenv k = []) ->
  LoadConfig getenv parse = defaultConfig.
Proof.
  intros Hint Hunset. unfold LoadConfig.
  rewrite !getEnvInt_eq.
  rewrite (Hint (bytes "PORT")), (Hint (bytes "BASE_DELAY_MS")),
    (Hint (bytes "JITTER_MS")), (Hint (bytes "PER_TOKEN_DELAY_MS")),
    (Hint (bytes "DEFAULT_TOKENS")), (Hint (bytes "CHUNK_SIZE")),
    (Hint (bytes "STREAM_DELAY_MIN_MS")), (Hint (bytes "STREAM_DELAY_MAX_MS")),
    (Hint (bytes "TTFT_MIN_MS")), (Hint (bytes "TTFT_MAX_MS")),
    (Hint (bytes "TOKENS_PER_SEC")), (Hint (bytes "DEBUG_OUTPUT_CHARS")),
    (Hint (bytes "MAX_OUTPUT_CHARS")) by is_key.
  unfold getEnvStr, getEnvFloat, getBool.
  rewrite (Hunset (bytes "PROFILE")), (Hunset (bytes "PRESET")),
    (Hunset (bytes "ERROR_RATE")), (Hunset (bytes "ERROR_MODE")),
    (Hunset (bytes "ECHO_PROMPT")), (Hunset (bytes "RANDOMIZE")),
    (Hunset (bytes "STRICT_TOKEN_MODE")) by not_key.
  reflexivity.
Qed.

Lemma ApplyPresetOverrides_known (cfg : Config) :
  In (Preset cfg) presets ->
  ApplyPresetOverrides cfg = setPreset cfg 120 800 35 16 8 45 12288 \/
  ApplyPresetOverrides cfg = setPreset cfg 30 200 90 48 0 15 16384 \/
  ApplyPresetOverrides cfg = setPreset cfg 120 700 35 16 8 50 12288.
Proof.
  intros H. unfold ApplyPresetOverrides.
  destruct (gostring_eqb (Preset cfg) (bytes "openai")) eqn:E1; [tauto|].
  destruct (gostring_eqb (Preset cfg) (bytes "vllm")) eqn:E2; [tauto|].
  destruct (gostring_eqb (Preset cfg) (bytes "hybrid")) eqn:E3; [tauto|].
  apply gostring_eqb_neq in E1, E2, E3.
  cbn [In presets] in H. intuition congruence.
Qed.

Lemma ApplyPresetOverrides_unknown (cfg : Config) :
  ~ In (Preset cfg) presets -> ApplyPresetOverrides cfg = cfg.
Proof.
  intros H. unfold ApplyPresetOverrides.
  destruct (gostring_eqb (Preset cfg) (bytes "openai")) eqn:E1;
    [apply gostring_eqb_eq in E1; exfalso; apply H; rewrite E1; cbn; tauto|].
  destruct (gostring_eqb (Preset cfg) (bytes "vllm")) eqn:E2;
    [apply gostring_eqb_eq in E2; exfalso; apply H; rewrite E2; cbn; tauto|].
  destruct (gostring_eqb (Preset cfg) (bytes "hybrid")) eqn:E3;
    [apply gostring_eqb_eq in E3; exfalso; apply H; rewrite E3; cbn; tauto|].
  reflexivity.
Qed.

(** X7. [ApplyPresetOverrides] never touches the port, the profile, the
    preset, the base, jitter and per-token delays, the error settings, the
    default token budget, the echo and randomization switches and the
    debug size; applying it twice is applying it once. Under one of the
    presets "openai", "vllm" and "hybrid" it turns strict token mode on
    and leaves positive, ordered timing knobs (first-token delay, stream
    gap), a chunk size of 16 to 48, 35 to 90 tokens per second and an
    output cap of 12288 to 16384 bytes; under any other preset the
    configuration is left as it is. *)
Theorem ApplyPresetOverrides_frame_and_knobs (cfg : Config) :
  let c := ApplyPresetOverrides cfg in
  (Port c = Port cfg /\ Profile c = Profile cfg /\ Preset c = Preset cfg /\
   BaseDelayMs c = BaseDelayMs cfg /\ JitterMs c = JitterMs cfg /\
   PerTokenDelayMs c = PerTokenDelayMs cfg /\
   ErrorRate c = ErrorRate cfg /\ ErrorMode c = ErrorMode cfg /\
   DefaultTokens c = DefaultTokens cfg /\ EchoPrompt c = EchoPrompt cfg /\
   Randomize c = Randomize cfg /\
   DebugOutputChars c = DebugOutputChars cfg) /\
  ApplyPresetOverrides c = c /\
  (In (Preset cfg) presets ->
   StrictTokenMode c = true /\
   0 < TTFTMinMs c <= TTFTMaxMs c /\
   0 <= StreamDelayMinMs c <= StreamDelayMaxMs c /\
   16 <= ChunkSize c <= 48 /\ 35 <= TokensPerSec c <= 90 /\
   12288 <= MaxOutputChars c <= 16384) /\
  (~ In (Preset cfg) presets -> c = cfg).
Proof.
  intros c. split; [|split; [|split]].
  - unfold c, ApplyPresetOverrides.
    repeat match goal with
           | |- context [if ?b then _ else _] => destruct b
           end; repeat split.
  - unfold c, ApplyPresetOverrides.
    destruct (gostring_eqb (Preset cfg) (bytes "openai")) eqn:E1;
      [cbn [Preset setPreset]; rewrite E1; reflexivity|].
    destruct (gostring_eqb (Preset cfg) (bytes "vllm")) eqn:E2;
      [cbn [Preset setPreset]; rewrite E1, E2; reflexivity|].
    destruct (gostring_eqb (Preset cfg) (bytes "hybrid")) eqn:E3;
      [cbn [Preset setPreset]; rewrite E1, E2, E3; reflexivity|].
    now rewrite E1, E2, E3.
  - intros H. unfold c.
    destruct (ApplyPresetOverrides_known cfg H) as [E|[E|E]]; rewrite E;
      cbn [setPreset StrictTokenMode TTFTMinMs TTFTMaxMs StreamDelayMinMs
           StreamDelayMaxMs ChunkSize TokensPerSec MaxOutputChars];
      repeat split; lia.
  - apply ApplyPresetOverrides_unknown.
Qed.

Lemma getEnvInt_ext (g1 g2 : Environ) (k : gostring) (def : Z) :
  g1 k = g2 k -> getEnvInt g1 k def = getEnvInt g2 k def.
Proof. unfold getEnvInt. now intros ->. Qed.

Lemma getEnvStr_ext (g1 g2 : Environ) (k def : gostring) :
  g1 k = g2 k -> getEnvStr g1 k def = getEnvStr g2 k def.
Proof. unfold getEnvStr. now intros ->. Qed.

Lemma getEnvFloat_ext (g1 g2 : Environ) (parse : gostring -> option float64)
    (k : gostring) (def : float64) :
  g1 k = g2 k -> getEnvFloat g1 parse k def = getEnvFloat g2 parse k def.
Proof. unfold getEnvFloat. now intros ->. Qed.

Lemma getBool_ext (g1 g2 : Environ) (k : gostring) (def : bool) :
  g1 k = g2 k -> getBool g1 k def = getBool g2 k def.
Proof. unfold getBool. now intros ->. Qed.


(** X8. Under a known preset the service starts with the same
    configuration whatever the environment says about the first-token
    delays, the tokens per second, the chunk size, the stream gaps, the
    output cap and strict token mode: [main] applies the preset after
    reading the environment, so these eight variables are ignored. *)
Theorem main_cfg_preset_overrides_environment
    (getenv1 getenv2 : Environ) (parse : gostring -> option float64) :
  (forall k, ~ In k presetKeys -> getenv1 k = getenv2 k) ->
  In (Preset (LoadConfig getenv1 parse)) presets ->
  main_cfg getenv1 parse = main_cfg getenv2 parse.
Proof.
  intros Hsame Hp.
  assert (EP : Preset (LoadConfig getenv2 parse)
               = Preset (LoadConfig getenv1 parse)).
  { unfold LoadConfig. cbn [Preset]. f_equal. apply getEnvStr_ext.
    symmetry. apply Hsame. not_key. }
  assert (Eset : forall a b c d e f g,
    setPreset (LoadConfig getenv1 parse) a b c d e f g
    = setPreset (LoadConfig getenv2 parse) a b c d e f g).
  { intros. unfold setPreset, LoadConfig.
    cbn [Port Profile Preset BaseDelayMs JitterMs PerTokenDelayMs ErrorRate
         ErrorMode DefaultTokens EchoPrompt Randomize DebugOutputChars].
    rewrite (getEnvInt_ext getenv1 getenv2 (bytes "PORT"))
      by (apply Hsame; not_key).
    rewrite (getEnvStr_ext getenv1 getenv2 (bytes "PROFILE"))
      by (apply Hsame; not_key).
    rewrite (getEnvStr_ext getenv1 getenv2 (bytes "PRESET"))
      by (apply Hsame; not_key).
    rewrite (getEnvInt_ext getenv1 getenv2 (bytes "BASE_DELAY_MS"))
      by (apply Hsame; not_key).
    rewrite (getEnvInt_ext getenv1 getenv2 (bytes "JITTER_MS"))
      by (apply Hsame; not_key).
    rewrite (getEnvInt_ext getenv1 getenv2 (bytes "PER_TOKEN_DELAY_MS"))
      by (apply Hsame; not_key).
    rewrite (getEnvFloat_ext getenv1 getenv2 parse (bytes "ERROR_RATE"))
      by (apply Hsame; not_key).
    rewrite (getEnvStr_ext getenv1 getenv2 (bytes "ERROR_MODE"))
      by (apply Hsame; not_key).
    rewrite (getEnvInt_ext getenv1 getenv2 (bytes "DEFAULT_TOKENS"))
      by (apply Hsame; not_key).
    rewrite (getBool_ext getenv1 getenv2 (bytes "ECHO_PROMPT"))
      by (apply Hsame; not_key).
    rewrite (getBool_ext getenv1 getenv2 (bytes "RANDOMIZE"))
      by (apply Hsame; not_key).
    rewrite (getEnvInt_ext getenv1 getenv2 (bytes "DEBUG_OUTPUT_CHARS"))
      by (apply Hsame; not_key).
    reflexivity. }
  unfold main_cfg.
  assert (Hp2 : In (Preset (LoadConfig getenv2 parse)) presets)
    by now rewrite EP.
  unfold ApplyPresetOverrides. rewrite EP.
  repeat match goal with
         | |- context [if ?b then _ else _] => destruct b eqn:?
         end; try apply Eset.
  exfalso. cbn [In presets] in Hp.
  repeat match goal with
         | H : gostring_eqb _ _ = false |- _ => apply gostring_eqb_neq in H
         end.
  intuition congruence.
Qed.

Lemma targetLen_cap (maxTokens : Z) (strict : bool) (debugChars maxChars : Z) :
  0 < maxChars -> targetLen maxTokens strict debugChars maxChars <= maxChars.
Proof.
  intros H. unfold targetLen.
  replace (maxChars =? 0) with false by (symmetry; apply Z.eqb_neq; lia).
  replace (0 <? maxChars) with true by (symmetry; apply Z.ltb_lt; lia).
  cbn [andb].
  match goal with
  | |- (if maxChars <? ?t then _ else _) <= _ =>
    destruct (maxChars <? t) eqn:E; [lia | apply Z.ltb_ge in E; lia]
  end.
Qed.

(** X9. The configuration [main] starts the service with, under a known
    preset and whatever the environment: every [int] field is a 64-bit
    value, the chunk size is the preset's (16 at least), the output the
    configuration asks for never exceeds the preset's cap of 16384 bytes
    (so it is a string the run-time can hold) and the divisor of the
    unary call's generation time is not zero. *)
Theorem main_cfg_is_well_formed
    (getenv : Environ) (parse : gostring -> option float64) :
  In (Preset (LoadConfig getenv parse)) presets ->
  let c := main_cfg getenv parse in
  Config_wf c /\ 16 <= ChunkSize c /\ baseChunkSize c = ChunkSize c /\
  (forall maxTokens,
     targetLen maxTokens (StrictTokenMode c) (DebugOutputChars c)
               (MaxOutputChars c) <= 16384) /\
  outputFits c /\ tpsDivides c.
Proof.
  intros Hp c.
  assert (Hint : forall k def, - 2 ^ 63 <= def < 2 ^ 63 ->
                               Go.is_int (getEnvInt getenv k def)).
  { intros k def H. apply getEnvInt_is_int, is_int_small, H. }
  assert (Hcap : forall maxTokens,
    targetLen maxTokens (StrictTokenMode c) (DebugOutputChars c)
              (MaxOutputChars c) <= 16384).
  { intros mt. unfold c, main_cfg.
    destruct (ApplyPresetOverrides_known _ Hp) as [E|[E|E]]; rewrite E;
      cbn [setPreset StrictTokenMode DebugOutputChars MaxOutputChars];
      (etransitivity; [apply targetLen_cap; lia | lia]). }
  split; [|split; [|split; [|split; [exact Hcap|split]]]].
  - unfold c, main_cfg, Config_wf.
    destruct (ApplyPresetOverrides_known _ Hp) as [E|[E|E]]; rewrite E;
      unfold LoadConfig;
      cbn [setPreset BaseDelayMs JitterMs PerTokenDelayMs DefaultTokens
           ChunkSize StreamDelayMinMs StreamDelayMaxMs TTFTMinMs TTFTMaxMs
           TokensPerSec DebugOutputChars MaxOutputChars];
      split_ands; first [apply Hint | apply is_int_small]; lia.
  - unfold c, main_cfg.
    destruct (ApplyPresetOverrides_known _ Hp) as [E|[E|E]]; rewrite E;
      cbn [setPreset ChunkSize]; lia.
  - unfold c, main_cfg.
    destruct (ApplyPresetOverrides_known _ Hp) as [E|[E|E]]; rewrite E;
      reflexivity.
  - intros mt _. specialize (Hcap mt). unfold Go.maxAlloc. lia.
  - unfold c, main_cfg.
    destruct (ApplyPresetOverrides_known _ Hp) as [E|[E|E]]; rewrite E;
      right; vm_compute; discriminate.
Qed.

(** ** The timing knobs and the chunk size *)

Lemma defaultInt_0 (v : Z) : defaultInt v 0 = v.
Proof.
  unfold defaultInt. destruct (v =? 0) eqn:E; [|reflexivity].
  apply Z.eqb_eq in E. now subst.
Qed.

(** X10. [jitterMs], for a 64-bit [JitterMs]: the delay is between 0 and
    the configured jitter; a jitter that is zero or negative gives 0
    without a draw, a positive one makes at most one draw. *)
Theorem jitterMs_range (cfg : Config) (env : Env) (st : State) :
  Go.is_int (JitterMs cfg) ->
  exists v p,
    jitterMs cfg env st = (Val v, set_rng_pos p st) /\
    0 <= v <= Z.max 0 (JitterMs cfg) /\
    (rng_pos st <= p <= S (rng_pos st))%nat /\
    (JitterMs cfg <= 0 -> v = 0 /\ p = rng_pos st).
Proof.
  intros Hj. unfold jitterMs. rewrite defaultInt_0.
  unfold Go.is_int, Go.min_int, Go.max_int in Hj.
  destruct (JitterMs cfg <=? 0) eqn:E1.
  - apply Z.leb_le in E1. exists 0, (rng_pos st).
    rewrite set_rng_pos_self. unfold ret.
    split; [reflexivity|]. split; [lia|]. split; [lia|]. auto.
  - apply Z.leb_gt in E1. unfold RandIntn.
    destruct (Go.int (JitterMs cfg + 1) <=? 0) eqn:E2.
    + exists 0, (rng_pos st). rewrite set_rng_pos_self. unfold ret.
      split; [reflexivity|]. split; [lia|]. split; lia.
    + apply Z.leb_gt in E2.
      assert (Hlt : JitterMs cfg + 1 < 2 ^ 63).
      { destruct (Z.eq_dec (JitterMs cfg) (2 ^ 63 - 1)) as [e|]; [|lia].
        rewrite e in E2. vm_compute in E2. discriminate. }
      rewrite int_small in * by lia.
      pose proof (Z.mod_pos_bound (rng_int env (rng_pos st))
                                  (JitterMs cfg + 1) ltac:(lia)).
      eexists _, _. split; [reflexivity|]. split; [lia|]. split; lia.
Qed.

(** X11. [ttftMs], for 64-bit bounds: when neither bound is positive the
    first-token delay is 0 and no draw is made; otherwise the delay is
    positive and lies between the lower bound (the upper one when the
    lower one is not positive) and the larger of the two bounds, with at
    most one draw. *)
Theorem ttftMs_range (cfg : Config) (env : Env) (st : State) :
  Go.is_int (TTFTMinMs cfg) -> Go.is_int (TTFTMaxMs cfg) ->
  let lo := if TTFTMinMs cfg <=? 0 then TTFTMaxMs cfg else TTFTMinMs cfg in
  let hi := Z.max lo (TTFTMaxMs cfg) in
  exists v p,
    ttftMs cfg env st = (Val v, set_rng_pos p st) /\
    (rng_pos st <= p <= S (rng_pos st))%nat /\
    (TTFTMinMs cfg <= 0 -> TTFTMaxMs cfg <= 0 -> v = 0 /\ p = rng_pos st) /\
    (0 < TTFTMinMs cfg \/ 0 < TTFTMaxMs cfg -> 0 < lo /\ lo <= v <= hi).
Proof.
  intros Hmin Hmax lo hi. unfold ttftMs. rewrite !defaultInt_0.
  unfold Go.is_int, Go.min_int, Go.max_int in Hmin, Hmax.
  destruct ((TTFTMinMs cfg <=? 0) && (TTFTMaxMs cfg <=? 0)) eqn:E0.
  - to_prop. exists 0, (rng_pos st). rewrite set_rng_pos_self. unfold ret.
    split; [reflexivity|]. split; [lia|]. split; [auto|]. lia.
  - fold lo.
    assert (Hlo : 0 < lo <= Go.max_int).
    { unfold lo, Go.max_int.
      destruct (TTFTMinMs cfg <=? 0) eqn:E1; to_prop; lia. }
    set (mx := if TTFTMaxMs cfg <=? 0 then lo else TTFTMaxMs cfg).
    assert (Ehi : (if mx <? lo then lo else mx) = hi).
    { unfold mx, hi. destruct (TTFTMaxMs cfg <=? 0) eqn:E2;
        destruct (_ <? lo) eqn:E3; to_prop; lia. }
    rewrite Ehi.
    assert (Hhi : lo <= hi <= Go.max_int).
    { unfold hi, Go.max_int in *. lia. }
    unfold Go.max_int in *.
    destruct (hi =? lo) eqn:E4.
    + exists lo, (rng_pos st). rewrite set_rng_pos_self. unfold ret.
      split; [reflexivity|]. split; [lia|].
      split; [intros; to_prop; lia|]. apply Z.eqb_eq in E4. lia.
    + apply Z.eqb_neq in E4.
      rewrite (int_small (hi - lo)) by lia.
      rewrite (int_small (hi - lo + 1)) by lia.
      unfold bind, RandIntn.
      replace (hi - lo + 1 <=? 0) with false
        by (symmetry; apply Z.leb_gt; lia).
      pose proof (Z.mod_pos_bound (rng_int env (rng_pos st))
                                  (hi - lo + 1) ltac:(lia)).
      unfold ret. rewrite int_small by lia.
      eexists _, _. split; [reflexivity|]. split; [lia|].
      split; [intros; to_prop; lia|]. lia.
Qed.

(** X12. The two front ends vary the chunk size by the same rule: when
    the text-event-stream front end starts from the chunk size the stream
    starts from, both compute the same size from the same draw. This is
    so when the configured size is not negative and the request gives no
    size of its own or the configured one. *)
Theorem sseChunkSize_agrees_with_stream
    (cfg : Config) (chunkSizeArg : Z) (env : Env) (st : State) :
  (sseBaseChunkSize cfg chunkSizeArg = baseChunkSize cfg ->
   sseChunkSize cfg chunkSizeArg env st = streamChunkSize cfg env st) /\
  (0 <= ChunkSize cfg ->
   chunkSizeArg = 0 \/ chunkSizeArg = ChunkSize cfg ->
   sseBaseChunkSize cfg chunkSizeArg = baseChunkSize cfg).
Proof.
  split.
  - intros H. unfold sseChunkSize, streamChunkSize. cbv zeta.
    change (defaultInt chunkSizeArg (defaultInt (ChunkSize cfg) 12))
      with (sseBaseChunkSize cfg chunkSizeArg).
    change (if chunkSize cfg <=? 0 then 12 else chunkSize cfg)
      with (baseChunkSize cfg).
    rewrite H.
    destruct (Randomize cfg); destruct (1 <? baseChunkSize cfg);
      reflexivity.
  - intros Hc Harg.
    unfold sseBaseChunkSize, baseChunkSize, chunkSize, defaultInt.
    destruct Harg as [-> | ->]; cbn [Z.eqb];
      repeat break_if; to_prop; lia.
Qed.

(** X13. The chunk size of a stream (configured size at most 2^61): it
    is at least 1 and lies within [j] of the configured size (12 when
    none is configured), where [j] is a third of that size and at least
    1; without randomization, and for size 1, it is the configured size
    and no draw is made. *)
Theorem streamChunkSize_within_a_third
    (cfg : Config) (env : Env) (st : State) :
  baseChunkSize cfg <= 2 ^ 61 ->
  let base := baseChunkSize cfg in
  let j := Z.max 1 (base / 3) in
  exists cs p,
    streamChunkSize cfg env st = (Val cs, set_rng_pos p st) /\
    1 <= base /\ 1 <= cs /\ base - j <= cs <= base + j /\
    (Randomize cfg = false \/ base = 1 -> cs = base /\ p = rng_pos st).
Proof.
  clear strconv_Quote unicode_ToLower.
  intros Hb base j.
  assert (Hbase : 1 <= base).
  { unfold base, baseChunkSize. destruct (chunkSize cfg <=? 0) eqn:E;
      to_prop; lia. }
  fold base in Hb.
  pose proof (Z.mul_div_le base 3 ltac:(lia)) as Hdiv.
  pose proof (Z.div_pos base 3 ltac:(lia) ltac:(lia)) as Hdiv0.
  unfold streamChunkSize. cbv zeta.
  change (if chunkSize cfg <=? 0 then 12 else chunkSize cfg) with base.
  assert (Hsame : exists cs p,
    ret base env st = (Val cs, set_rng_pos p st) /\
    1 <= base /\ 1 <= cs /\ base - j <= cs <= base + j /\
    (cs = base /\ p = rng_pos st)).
  { exists base, (rng_pos st). rewrite set_rng_pos_self. unfold ret.
    split; [reflexivity|]. unfold j. lia. }
  destruct (Randomize cfg) eqn:ER.
  - destruct (1 <? base) eqn:E1.
    + apply Z.ltb_lt in E1.
      rewrite Z.quot_div_nonneg by lia.
      assert (Ej : (if base / 3 <? 1 then 1 else base / 3) = j).
      { unfold j. destruct (base / 3 <? 1) eqn:E; to_prop; lia. }
      rewrite Ej.
      assert (Hj : 1 <= j <= base - 1) by (unfold j; lia).
      rewrite (int_small (j * 2)) by lia.
      rewrite (int_small (j * 2 + 1)) by lia.
      rewrite (int_small (base - j)) by lia.
      unfold bind, RandIntn.
      replace (j * 2 + 1 <=? 0) with false
        by (symmetry; apply Z.leb_gt; lia).
      pose proof (Z.mod_pos_bound (rng_int env (rng_pos st))
                                  (j * 2 + 1) ltac:(lia)) as Hr.
      unfold ret. rewrite int_small by lia.
      replace (base - j + rng_int env (rng_pos st) mod (j * 2 + 1) <? 1)
        with false by (symmetry; apply Z.ltb_ge; lia).
      eexists _, _. split; [reflexivity|].
      split; [lia|]. split; [lia|]. split; [lia|].
      intros [H|H]; [discriminate | lia].
    + destruct Hsame as (cs & p & E & H1 & H2 & H3 & H4).
      exists cs, p. tauto.
  - destruct Hsame as (cs & p & E & H1 & H2 & H3 & H4).
    exists cs, p. tauto.
Qed.

(** ** The prompt *)

Lemma writeMessage_nil (b : gostring) (m : ChatMessage) :
  writeMessage b m = [] <-> b = [] /\ blank (Role m) /\ blank (Content m).
Proof.
  clear strconv_Quote unicode_ToLower.
  unfold writeMessage, blank.
  destruct (gostring_eqb (strings.TrimSpace (Role m)) []) eqn:Er;
    destruct (gostring_eqb (strings.TrimSpace (Content m)) []) eqn:Ec;
    cbn [andb]; eqb_prop.
  - tauto.
  - split; [|tauto]. intros H. apply app_eq_nil in H. destruct H as [H _].
    apply app_eq_nil in H. destruct H as [_ H]. discriminate.
  - split; [|tauto]. intros H. apply app_eq_nil in H. destruct H as [H _].
    apply app_eq_nil in H. destruct H as [_ H]. discriminate.
  - split; [|tauto]. intros H. apply app_eq_nil in H. destruct H as [H _].
    apply app_eq_nil in H. destruct H as [_ H]. discriminate.
Qed.

Lemma fold_writeMessage_nil (l : list ChatMessage) :
  forall b,
    fold_left writeMessage l b = [] <->
    b = [] /\ Forall (fun m => blank (Role m) /\ blank (Content m)) l.
Proof.
  clear strconv_Quote unicode_ToLower.
  induction l as [|m l IH]; intros b; cbn [fold_left].
  - split; [intros H; split; [exact H | constructor] | tauto].
  - rewrite IH, writeMessage_nil. split.
    + intros [[Hb Hm] Hl]. split; [exact Hb|]. now constructor.
    + intros [Hb H]. inversion H; subst. tauto.
Qed.

(** X14. [buildPromptForTokens] returns the empty prompt exactly when
    the system prompt, the user prompt and both the role and the content
    of every context message are blank (empty once trimmed). *)
Theorem buildPromptForTokens_empty_iff (req : ChatCompletionRequest) :
  buildPromptForTokens req = [] <->
  blank (SystemPrompt req) /\ blank (UserPrompt req) /\
  Forall (fun m => blank (Role m) /\ blank (Content m)) (Context req).
Proof.
  clear strconv_Quote unicode_ToLower.
  unfold buildPromptForTokens, blank. cbv zeta.
  destruct (gostring_eqb (strings.TrimSpace (SystemPrompt req)) []) eqn:Es;
    destruct (gostring_eqb (strings.TrimSpace (UserPrompt req)) []) eqn:Eu;
    cbn [negb]; eqb_prop.
  - rewrite fold_writeMessage_nil. tauto.
  - split; [|tauto]. intros H. apply app_eq_nil in H. destruct H as [_ H].
    discriminate.
  - rewrite fold_writeMessage_nil. split; [|tauto]. intros [H _].
    discriminate.
  - split; [|tauto]. intros H. apply app_eq_nil in H. destruct H as [_ H].
    discriminate.
Qed.

(** ** The unary call *)

Lemma ApproxTokens_ascii (s : gostring) :
  strings.isASCII s = true -> len s < Go.maxAlloc ->
  ApproxTokens s = (len s + 3) / 4.
Proof.
  intros Ha Hl. unfold ApproxTokens. destruct s as [|c t]; [reflexivity|].
  rewrite runes_ascii by exact Ha. rewrite length_map.
  fold (len (c :: t)). pose proof (len_nonneg (c :: t)).
  unfold Go.maxAlloc in Hl. rewrite int_small by lia.
  apply Z.quot_div_nonneg; lia.
Qed.

Lemma strict_tokens_of_output (prompt : gostring) (maxTokens : Z)
    (debugChars maxChars : Z) :
  16 <= maxTokens <= Go.max_int32 ->
  maxChars < 0 \/ 4 * maxTokens <= (if maxChars =? 0 then 4096 else maxChars) ->
  len (BuildOutput prompt maxTokens false true debugChars maxChars)
  = 4 * maxTokens /\
  ApproxTokens (BuildOutput prompt maxTokens false true debugChars maxChars)
  = maxTokens.
Proof.
  intros Hmt Hcap. unfold Go.max_int32 in Hmt.
  assert (Hlen : len (BuildOutput prompt maxTokens false true debugChars
                                  maxChars) = 4 * maxTokens).
  { rewrite BuildOutput_len. unfold targetLen.
    replace (maxTokens <=? 0) with false by (symmetry; apply Z.leb_gt; lia).
    rewrite int_small by lia.
    replace (maxTokens * 4 <? 64) with false
      by (symmetry; apply Z.ltb_ge; lia).
    destruct (maxChars =? 0) eqn:E0; to_prop.
    - subst. cbn [Z.ltb Z.compare andb].
      destruct (4096 <? maxTokens * 4) eqn:E; to_prop; lia.
    - destruct ((0 <? maxChars) && (maxChars <? maxTokens * 4)) eqn:E;
        to_prop; lia. }
  split; [exact Hlen|].
  rewrite ApproxTokens_ascii;
    [| apply BuildOutput_ascii | rewrite Hlen; unfold Go.maxAlloc; lia].
  rewrite Hlen. symmetry. apply Z.div_unique with (r := 3); lia.
Qed.

(** X15. In strict token mode, without echo and without randomization,
    the unary call reports exactly the budget it was asked for: for a
    budget of at least 16 tokens that stays under the output cap, the
    output is [4 * maxTokens] bytes long and the completion token count of
    the response is [maxTokens]. *)
Theorem unary_completion_tokens_equal_budget
    (cfg : Config) (req : ChatCompletionRequest) (env : Env) :
  noInject cfg env -> ctx_done env = None -> tpsDivides cfg ->
  Randomize cfg = false -> EchoPrompt cfg = false ->
  StrictTokenMode cfg = true ->
  16 <= MaxTokens req <= Go.max_int32 ->
  MaxOutputChars cfg < 0 \/
  4 * MaxTokens req
  <= (if MaxOutputChars cfg =? 0 then 4096 else MaxOutputChars cfg) ->
  exists resp st',
    ChatCompletion cfg req env init = (Val (Some resp, None), st') /\
    len (OutputText resp) = 4 * MaxTokens req /\
    RespCompletionTokens resp = MaxTokens req.
Proof.
  intros Hno Hctx Htps Hrand Hecho Hstrict Hmt Hcap.
  destruct (unary_run cfg req env Hno Hctx Htps)
    as (eff & latency & st' & Heff & _ & E).
  specialize (Heff Hrand). cbv zeta in E.
  assert (Eeff : eff = MaxTokens req).
  { rewrite Heff. unfold baseTokens.
    replace (MaxTokens req <=? 0) with false
      by (symmetry; apply Z.leb_gt; lia). reflexivity. }
  subst eff. rewrite Eeff in E. clear Eeff.
  unfold outputOf in E. rewrite Hecho, Hstrict in E.
  destruct (strict_tokens_of_output (buildPromptForTokens req)
              (MaxTokens req) (DebugOutputChars cfg) (MaxOutputChars cfg)
              Hmt Hcap) as [Hlen Htok].
  eexists _, st'. split; [exact E|].
  cbn [OutputText RespCompletionTokens]. split; [exact Hlen|].
  rewrite Htok. apply int32_small. unfold Go.max_int32 in Hmt. lia.
Qed.

(** The randomized budget stays within the requested one. *)
Lemma pickTargetTokens_range (maxTokens promptRunes : Z) :
  Go.is_int32 maxTokens ->
  rng_only (pickTargetTokens maxTokens promptRunes)
    (fun v => 1 <= v <= (if 0 <? maxTokens then maxTokens else 128)).
Proof.
  clear strconv_Quote unicode_ToLower.
  intros Hmt env st.
  set (M := if 0 <? maxTokens then maxTokens else 128).
  assert (HM : 1 <= M <= Go.max_int32).
  { unfold M, Go.is_int32, Go.max_int32, Go.min_int32 in *.
    destruct (0 <? maxTokens) eqn:E; to_prop; lia. }
  unfold pickTargetTokens.
  replace (if maxTokens <=? 0 then 128 else maxTokens) with M
    by (unfold M; destruct (0 <? maxTokens) eqn:E1;
        destruct (maxTokens <=? 0) eqn:E2; to_prop; lia).
  destruct frac_constants as (F05 & F22 & F62 & F92 & F100).
  assert (Hgen : forall minF maxF, frac minF -> frac maxF ->
    exists v p,
      pickFrac M minF maxF env (set_rng_pos (S (rng_pos st)) st)
      = (Val v, set_rng_pos p st) /\ 1 <= v <= M).
  { intros minF maxF Hlo Hhi.
    pose proof (bucketRange_bounds M minF maxF HM Hlo Hhi) as HB.
    pose proof (pickFrac_run M minF maxF env (set_rng_pos (S (rng_pos st)) st)
                             HM Hlo Hhi) as HR.
    destruct (bucketRange M minF maxF) as [minT maxT].
    destruct HR as (v & p & Erun & Ev). cbn [rng_pos set_rng_pos] in Ev.
    exists v, p. split; [exact Erun|].
    destruct (minT <? maxT) eqn:E; to_prop.
    - pose proof (Z.mod_pos_bound (rng_int env (S (rng_pos st)))
                                  (maxT - minT + 1) ltac:(lia)). lia.
    - lia. }
  destruct (1200 <? promptRunes); [|destruct (600 <? promptRunes)];
    cbv beta iota zeta;
    unfold bind at 1; unfold RandFloat64 at 1;
    repeat match goal with
           | |- context [if ?b then pickFrac _ _ _ else _] => destruct b
           end;
    apply Hgen; assumption.
Qed.

(** Once the generation time is known, a unary call whose context is not
    done measures the latency and returns the response. *)
Lemma unary_tail_run (cfg : Config) (env : Env) (out : gostring)
    (pt ct c0 t0 : Z) (st4 : State) :
  ctx_done env = None -> tpsDivides cfg -> t0 <= now st4 ->
  exists latency st',
    bind (if 0 <? tokensPerSec cfg
          then q <- div32 (Go.int32 (ct * 1000))
                          (Go.int32 (tokensPerSec cfg)) ;;
               ret (Go.int (c0 + q))
          else ret c0)
      (fun computeMs =>
         sleepWithContext (Milliseconds computeMs) ;;;
         e <- ctxErr ;;
         match e with
         | Some e => ret (None, Some (ErrContext e))
         | None =>
           latency <- time_Since_ms t0 ;;
           ret (Some (mkResponse out (bytes "stop") pt ct
                                 (Go.int32 (pt + ct)) latency), None)
         end) env st4
    = (Val (Some (mkResponse out (bytes "stop") pt ct (Go.int32 (pt + ct))
                             latency), None), st').
Proof.
  intros Hctx Htps Hnow.
  assert (Ecompute : exists c1,
    (if 0 <? tokensPerSec cfg
     then q <- div32 (Go.int32 (ct * 1000)) (Go.int32 (tokensPerSec cfg)) ;;
          ret (Go.int (c0 + q))
     else ret c0) env st4 = (Val c1, st4)).
  { destruct (0 <? tokensPerSec cfg) eqn:Et.
    - apply Z.ltb_lt in Et. destruct Htps as [H|H]; [lia|].
      eexists. rewrite (bind_val _ _ _ _ _ _ (div32_run _ _ _ _ H)).
      reflexivity.
    - eexists. reflexivity. }
  destruct Ecompute as (c1 & E5).
  destruct (time_Since_ms_run t0 env st4 Hnow) as (latency & k & tm & E6 & _).
  exists latency. eexists.
  rewrite (bind_val _ _ _ _ _ _ E5).
  unfold sleepWithContext at 1.
  rewrite (bind_val _ _ _ _ _ _ (eq_refl : ret tt env st4 = (Val tt, st4))).
  assert (Ec : ctxErr env st4 = (Val None, st4))
    by (unfold ctxErr; rewrite Hctx; reflexivity).
  rewrite (bind_val _ _ _ _ _ _ Ec).
  rewrite (bind_val _ _ _ _ _ _ E6). reflexivity.
Qed.

(** The unary call up to the generation time: the injector lets the call
    pass and the draws are made; what remains is the division by the
    tokens per second, the wait and the look at the context. *)
Lemma unary_prefix (cfg : Config) (req : ChatCompletionRequest) (env : Env) :
  noInject cfg env ->
  exists eff c0 p,
    (Randomize cfg = false -> eff = baseTokens cfg req) /\
    (Request_wf req -> Randomize cfg = true ->
     1 <= eff <= (if 0 <? baseTokens cfg req then baseTokens cfg req
                  else 128)) /\
    let t0 := now init + Z.of_N (elapse env (clock_reads init)) in
    let st4 := set_rng_pos p (set_clock 1 t0 init) in
    let prompt := buildPromptForTokens req in
    let out := outputOf cfg prompt eff in
    let pt := Go.int32 (ApproxTokens prompt) in
    let ct := Go.int32 (ApproxTokens out) in
    ChatCompletion cfg req env init
    = bind (if 0 <? tokensPerSec cfg
            then q <- div32 (Go.int32 (ct * 1000))
                            (Go.int32 (tokensPerSec cfg)) ;;
                 ret (Go.int (c0 + q))
            else ret c0)
        (fun computeMs =>
           sleepWithContext (Milliseconds computeMs) ;;;
           e <- ctxErr ;;
           match e with
           | Some e => ret (None, Some (ErrContext e))
           | None =>
             latency <- time_Since_ms t0 ;;
             ret (Some (mkResponse out (bytes "stop") pt ct
                                   (Go.int32 (pt + ct)) latency), None)
           end) env st4.
Proof.
  intros Hno.
  set (t0 := now init + Z.of_N (elapse env (clock_reads init))).
  set (st0 := set_clock 1 t0 init).
  destruct (shouldFail_noInject cfg env st0 Hno eq_refl) as (p1 & E1).
  set (prompt := buildPromptForTokens req).
  assert (Heff : exists eff p2,
    (if Randomize cfg
     then pickTargetTokens (baseTokens cfg req)
                           (Z.of_nat (length (utf8.runes prompt)))
     else ret (baseTokens cfg req)) env (set_rng_pos p1 st0)
    = (Val eff, set_rng_pos p2 (set_rng_pos p1 st0)) /\
    (Randomize cfg = false -> eff = baseTokens cfg req) /\
    (Request_wf req -> Randomize cfg = true ->
     1 <= eff <= (if 0 <? baseTokens cfg req then baseTokens cfg req
                  else 128))).
  { destruct (Randomize cfg).
    - destruct (pickTargetTokens_rng (baseTokens cfg req)
                  (Z.of_nat (length (utf8.runes prompt))) env
                  (set_rng_pos p1 st0)) as (eff & p2 & E & _).
      exists eff, p2. split; [exact E|]. split; [discriminate|].
      intros Hreq _.
      destruct (pickTargetTokens_range (baseTokens cfg req)
                  (Z.of_nat (length (utf8.runes prompt)))
                  (baseTokens_is_int32 cfg req Hreq) env
                  (set_rng_pos p1 st0)) as (v & p & E' & Hv).
      rewrite E in E'. inversion E'; subst. exact Hv.
    - exists (baseTokens cfg req), (rng_pos (set_rng_pos p1 st0)).
      rewrite set_rng_pos_self. split; [reflexivity|].
      split; [reflexivity | discriminate]. }
  destruct Heff as (eff & p2 & E2 & Hbase & Hrange).
  destruct (jitterMs_rng cfg env (set_rng_pos p2 (set_rng_pos p1 st0)))
    as (j & p3 & E3 & _).
  match type of E3 with
  | _ = (_, ?s) => destruct (ttftMs_rng cfg env s) as (t & p4 & E4 & _)
  end.
  exists eff. eexists. exists p4. split; [exact Hbase|].
  split; [exact Hrange|]. cbv zeta.
  fold t0. fold prompt.
  unfold ChatCompletion.
  rewrite (bind_val _ _ _ _ _ _ (eq_refl : time_Now env init = (Val t0, st0))).
  rewrite (bind_val _ _ _ _ _ _ E1). cbv iota.
  fold (baseTokens cfg req). fold prompt.
  rewrite (bind_val _ _ _ _ _ _ E2). fold (outputOf cfg prompt eff).
  rewrite (bind_val _ _ _ _ _ _ E3).
  rewrite (bind_val _ _ _ _ _ _ E4).
  reflexivity.
Qed.

(** X16. A unary call whose context is done when the simulated latency
    has passed returns the error of the context and no response; nothing
    is sent and the latency is not measured (the clock was read once, at
    entry). *)
Theorem unary_returns_context_error
    (cfg : Config) (req : ChatCompletionRequest) (env : Env) (e : ctxError) :
  noInject cfg env -> tpsDivides cfg -> ctx_done env = Some (0%nat, e) ->
  exists st',
    ChatCompletion cfg req env init
    = (Val (None, Some (ErrContext e)), st') /\
    sent st' = [] /\ clock_reads st' = 1%nat.
Proof.
  intros Hno Htps Hctx.
  destruct (unary_prefix cfg req env Hno) as (eff & c0 & p & _ & _ & E).
  cbv zeta in E. rewrite E. clear E.
  match goal with
  | |- exists st', bind _ _ env ?s = _ /\ _ => set (st4 := s)
  end.
  assert (Ecompute : exists c1,
    (if 0 <? tokensPerSec cfg
     then q <- div32 (Go.int32
                        (Go.int32 (ApproxTokens
                           (outputOf cfg (buildPromptForTokens req) eff))
                         * 1000))
                     (Go.int32 (tokensPerSec cfg)) ;;
          ret (Go.int (c0 + q))
     else ret c0) env st4 = (Val c1, st4)).
  { destruct (0 <? tokensPerSec cfg) eqn:Et.
    - apply Z.ltb_lt in Et. destruct Htps as [H|H]; [lia|].
      eexists. rewrite (bind_val _ _ _ _ _ _ (div32_run _ _ _ _ H)).
      reflexivity.
    - eexists. reflexivity. }
  destruct Ecompute as (c1 & E5).
  rewrite (bind_val _ _ _ _ _ _ E5).
  unfold sleepWithContext at 1.
  rewrite (bind_val _ _ _ _ _ _ (eq_refl : ret tt env st4 = (Val tt, st4))).
  assert (Ec : ctxErr env st4 = (Val (Some e), st4))
    by (unfold ctxErr; rewrite Hctx; reflexivity).
  rewrite (bind_val _ _ _ _ _ _ Ec).
  exists st4. split; [reflexivity|]. split; reflexivity.
Qed.

(** X17. The generation time of the unary call divides by
    [int32(tokensPerSec)]: when the configured tokens per second are
    positive and a multiple of 2^32, the divisor is 0 and the call panics
    (integer division by zero) instead of returning. *)
Theorem unary_panics_when_tps_wraps_to_zero
    (cfg : Config) (req : ChatCompletionRequest) (env : Env) :
  noInject cfg env ->
  0 < TokensPerSec cfg -> Go.int32 (TokensPerSec cfg) = 0 ->
  fst (ChatCompletion cfg req env init) = Panic.
Proof.
  intros Hno Hpos Hzero.
  destruct (unary_prefix cfg req env Hno) as (eff & c0 & p & _ & _ & E).
  cbv zeta in E. rewrite E. clear E.
  unfold tokensPerSec. rewrite defaultInt_0.
  replace (0 <? TokensPerSec cfg) with true
    by (symmetry; apply Z.ltb_lt; exact Hpos).
  rewrite Hzero. reflexivity.
Qed.

(** X18. The unary call never answers with more than the budget allows,
    with or without randomization: in strict token mode without echo, the
    output is at most [4 * M] bytes long (or 64, the floor of the sizing
    rules) and the completion token count of the response is at most [M]
    (or 16), where [M]
    is the budget of the request, or the default budget when the request
    gives none (128 when that is not positive either). *)
Theorem unary_respects_budget
    (cfg : Config) (req : ChatCompletionRequest) (env : Env) :
  Request_wf req -> noInject cfg env -> ctx_done env = None ->
  tpsDivides cfg ->
  StrictTokenMode cfg = true -> EchoPrompt cfg = false ->
  let M := if 0 <? baseTokens cfg req then baseTokens cfg req else 128 in
  exists resp st',
    ChatCompletion cfg req env init = (Val (Some resp, None), st') /\
    len (OutputText resp) <= Z.max 64 (4 * M) /\
    RespCompletionTokens resp <= Z.max 16 M.
Proof.
  intros Hreq Hno Hctx Htps Hstrict Hecho M.
  destruct (unary_prefix cfg req env Hno)
    as (eff & c0 & p & Hbase & Hrange & E).
  cbv zeta in E. rewrite E. clear E.
  specialize (Hrange Hreq).
  pose proof (baseTokens_is_int32 cfg req Hreq) as Hb.
  unfold Go.is_int32, Go.min_int32, Go.max_int32 in Hb.
  set (out := outputOf cfg (buildPromptForTokens req) eff).
  match goal with
  | |- exists resp st', bind _ _ env ?s = _ /\ _ =>
    destruct (unary_tail_run cfg env out
                (Go.int32 (ApproxTokens (buildPromptForTokens req)))
                (Go.int32 (ApproxTokens out)) c0
                (now init + Z.of_N (elapse env (clock_reads init))) s
                Hctx Htps) as (latency & st' & Erun);
      [cbn [now set_rng_pos set_clock]; lia|]
  end.
  eexists _, st'. split; [exact Erun|].
  cbn [OutputText RespCompletionTokens].
  assert (Heff : (if eff <=? 0 then 128 else eff) <= M /\
                 1 <= (if eff <=? 0 then 128 else eff)).
  { fold M in Hrange. destruct (Randomize cfg).
    - specialize (Hrange eq_refl).
      replace (eff <=? 0) with false by (symmetry; apply Z.leb_gt; lia).
      lia.
    - rewrite (Hbase eq_refl). unfold M.
      destruct (baseTokens cfg req <=? 0) eqn:E1;
        destruct (0 <? baseTokens cfg req) eqn:E2; to_prop; lia. }
  assert (HM : 1 <= M <= 2 ^ 31 - 1).
  { unfold M. destruct (0 <? baseTokens cfg req) eqn:E; to_prop; lia. }
  assert (Hlen : len out <= Z.max 64 (4 * M)).
  { unfold out, outputOf. rewrite BuildOutput_len, Hstrict.
    unfold targetLen. set (mt := if eff <=? 0 then 128 else eff) in *.
    rewrite int_small by lia.
    repeat break_if; to_prop; lia. }
  split; [exact Hlen|].
  assert (Hascii : strings.isASCII out = true).
  { unfold out, outputOf. rewrite Hecho. apply BuildOutput_ascii. }
  pose proof (len_nonneg out) as Hpos.
  rewrite ApproxTokens_ascii by (try exact Hascii; unfold Go.maxAlloc; lia).
  pose proof (Z.div_le_mono (len out + 3) (Z.max 64 (4 * M) + 3) 4
                ltac:(lia) ltac:(lia)) as H2.
  pose proof (Z.div_pos (len out + 3) 4 ltac:(lia) ltac:(lia)) as H0.
  assert (H3 : (Z.max 64 (4 * M) + 3) / 4 = Z.max 16 M).
  { symmetry. apply Z.div_unique with (r := 3); lia. }
  rewrite H3 in H2. rewrite int32_small by lia. exact H2.
Qed.

(** X19. Raising the error rate never lets a failing call pass: when the
    injector fails a call at some rate, it fails the same call (same
    draw of the generator) at every rate that is at least as large. *)
Theorem shouldFail_monotone_in_rate
    (rate1 rate2 : float64) (env : Env) (st : State) :
  F64.leb rate1 rate2 = true ->
  fst (shouldFail rate1 env st) = Val true ->
  fst (shouldFail rate2 env st) = Val true.
Proof.
  intros Hle H1. rewrite shouldFail_eq in *. unfold F64.leb, F64.ltb in *.
  destruct (SFleb rate2 F64.c0_0) eqn:E20.
  - rewrite (SFleb_trans _ _ _ Hle E20) in H1. discriminate.
  - destruct (SFleb F64.c1_00 rate2) eqn:E21; [reflexivity|].
    destruct (SFleb rate1 F64.c0_0); [discriminate|].
    destruct (SFleb F64.c1_00 rate1) eqn:E11.
    + rewrite (SFleb_trans _ _ _ E11 Hle) in E21. discriminate.
    + cbn [fst] in *. inversion H1 as [H]. rewrite H.
      now rewrite (SFltb_leb_trans _ _ _ H Hle).
Qed.

(** ** The streaming call *)

(** X20. The unary call and the stream of the same request agree: without
    randomization, when no failure is injected and nothing is cancelled,
    the content chunks of the stream concatenate to the output text of
    the unary response, and the "done" event, the last message of the
    stream, carries the finish reason and the prompt, completion and
    total token counts of the unary response. *)
Theorem unary_and_stream_agree
    (cfg : Config) (req : ChatCompletionRequest) (env1 env2 : Env) :
  Randomize cfg = false ->
  Request_wf req -> Go.is_int (ChunkSize cfg) -> outputFits cfg ->
  tpsDivides cfg ->
  noInject cfg env1 -> ctx_done env1 = None ->
  noInject cfg env2 -> sendsSucceed env2 -> ctx_done env2 = None ->
  exists resp st1 st2,
    ChatCompletion cfg req env1 init = (Val (Some resp, None), st1) /\
    ChatCompletionStream cfg req env2 init = (Val None, st2) /\
    concat (contentTexts (sent st2)) = OutputText resp /\
    let d := last (sent st2) (failedChunk []) in
    Type_ d = bytes "output_text.done" /\
    FinishReason d = RespFinishReason resp /\
    PromptTokens d = RespPromptTokens resp /\
    CompletionTokens d = RespCompletionTokens resp /\
    TotalTokens d = RespTotalTokens resp.
Proof.
  intros Hrand Hreq Hcs Hfit Htps Hno1 Hctx1 Hno2 Hsend Hctx2.
  destruct (unary_run cfg req env1 Hno1 Hctx1 Htps)
    as (eff1 & lat1 & st1 & Heff1 & _ & E1).
  destruct (stream_run cfg req env2 Hreq Hcs Hfit Hsend Hno2)
    as (eff2 & cs & lat2 & st2 & _ & Hcsr & Hbase & _ & Hrun).
  { intros n e E. rewrite Hctx2 in E. discriminate. }
  specialize (Heff1 Hrand). destruct (Hbase Hrand) as [Heff2 _].
  subst eff1 eff2. cbv zeta in E1, Hrun. rewrite Hctx2 in Hrun.
  cbn [loopOutcome fst snd] in Hrun. destruct Hrun as [E2 Hsent].
  eexists _, st1, st2. split; [exact E1|]. split; [exact E2|].
  cbn [OutputText RespFinishReason RespPromptTokens RespCompletionTokens
       RespTotalTokens].
  rewrite Hsent. split.
  - rewrite contentTexts_stream by reflexivity. apply chunksOf_concat. lia.
  - cbv zeta. rewrite last_last. repeat split.
Qed.

(** X21. A stream whose context is already done when the first chunk is
    due sends no content at all: the error of the context is returned and
    the only message handed to the transport is the "failed" event with
    the text of that error. *)
Theorem stream_cancelled_before_first_chunk
    (cfg : Config) (req : ChatCompletionRequest) (env : Env) (e : ctxError) :
  Request_wf req -> Go.is_int (ChunkSize cfg) -> noInject cfg env ->
  ctx_done env = Some (0%nat, e) ->
  exists st',
    ChatCompletionStream cfg req env init
    = (Val (Some (ErrContext e)), st') /\
    sent st' = [failedChunk (Error (ErrContext e))] /\
    contentTexts (sent st') = [].
Proof.
  intros Hreq Hcs Hno Hctx.
  set (t0 := now init + Z.of_N (elapse env (clock_reads init))).
  set (st0 := set_clock 1 t0 init).
  destruct (shouldFail_noInject cfg env st0 Hno eq_refl) as (p1 & E1).
  destruct (jitterMs_rng cfg env (set_rng_pos p1 st0)) as (j & p2 & E2 & _).
  destruct (ttftMs_rng cfg env (set_rng_pos p2 (set_rng_pos p1 st0)))
    as (t & p3 & E3 & _).
  set (st3 := set_rng_pos p3 (set_rng_pos p2 (set_rng_pos p1 st0))) in *.
  assert (Ec : forall st, ctxErr env st = (Val (Some e), st)).
  { intros st. unfold ctxErr. rewrite Hctx. reflexivity. }
  assert (Ebody : exists st5,
    streamBody cfg req t0 env st0 = (Val (Some (ErrContext e)), st5) /\
    sent st5 = []).
  { unfold streamBody.
    rewrite (bind_val _ _ _ _ _ _ E1). cbv iota.
    rewrite (bind_val _ _ _ _ _ _ E2).
    rewrite (bind_val _ _ _ _ _ _ E3). fold st3.
    match goal with
    | |- context [if 0 <? ?pre then _ else _] => destruct (0 <? pre)
    end.
    - unfold sleepWithContext at 1.
      erewrite (bind_val _ _ env st3);
        [| unfold bind at 1; unfold ret at 1; apply Ec].
      exists st3. split; reflexivity.
    - rewrite (bind_val _ _ _ _ _ _ (eq_refl : ret None env st3
                                               = (Val None, st3))).
      destruct (streamPlan_rng cfg req Hreq Hcs env st3)
        as (plan & p4 & E4 & eff & cs & Eplan & _).
      subst plan. rewrite (bind_val _ _ _ _ _ _ E4). cbv iota beta.
      set (out := outputOf cfg (buildPromptForTokens req) eff).
      pose proof (outputOf_nonempty cfg (buildPromptForTokens req) eff)
        as Hout. fold out in Hout.
      assert (El : streamLoop (S (length out)) cfg out cs 0 env
                              (set_rng_pos p4 st3)
                   = (Val (Some (ErrContext e)), set_rng_pos p4 st3)).
      { cbn [streamLoop].
        replace (0 <? len out) with true by (symmetry; apply Z.ltb_lt; lia).
        rewrite (bind_val _ _ _ _ _ _ (Ec _)). reflexivity. }
      rewrite (bind_val _ _ _ _ _ _ El).
      exists (set_rng_pos p4 st3). split; reflexivity. }
  destruct Ebody as (st5 & E5 & Hs5).
  unfold ChatCompletionStream.
  rewrite (bind_val _ _ _ _ _ _ (eq_refl : time_Now env init = (Val t0, st0))).
  rewrite (bind_val _ _ _ _ _ _ E5).
  unfold bind, Send, ret. eexists. split; [reflexivity|].
  cbn [sent set_sent]. rewrite Hs5. split; reflexivity.
Qed.





(** *** The grammar of the messages of a stream *)

Lemma onlyDeltas_nil : onlyDeltas [].
Proof. exists []. reflexivity. Qed.

Lemma onlyDeltas_app (l1 l2 : list ChatCompletionChunkResponse) :
  onlyDeltas l1 -> onlyDeltas l2 -> onlyDeltas (l1 ++ l2).
Proof.
  intros (d1 & ->) (d2 & ->). exists (d1 ++ d2). now rewrite map_app.
Qed.

Lemma prefixClosed_deltas {A} :
  prefixClosed (fun (_ : Res A) l => onlyDeltas l).
Proof.
  split; [|split].
  - intros r l ds H. apply onlyDeltas_app; [now exists ds | exact H].
  - intros ds. now exists ds.
  - intros ds. now exists ds.
Qed.

Lemma emits_ret {A} (a : A)
    (Q : Res A -> list ChatCompletionChunkResponse -> Prop) :
  Q (Val a) [] -> emits (ret a) Q.
Proof.
  intros H env st. exists []. cbn [ret fst snd].
  split; [now rewrite app_nil_r | exact H].
Qed.

Lemma emits_bind {A B} (c : M A) (k : A -> M B)
    (Q : Res B -> list ChatCompletionChunkResponse -> Prop) :
  emits c (fun _ l => onlyDeltas l) -> (forall a, emits (k a) Q) ->
  prefixClosed Q -> emits (bind c k) Q.
Proof.
  intros Hc Hk (Hpre & Hpanic & Hfuel) env st. unfold bind.
  destruct (Hc env st) as (l1 & E1 & (ds & ->)).
  destruct (c env st) as [[a| |] s1]; cbn [fst snd] in *.
  - destruct (Hk a env s1) as (l2 & E2 & H2).
    exists (map deltaChunk ds ++ l2). split.
    + rewrite E2, E1, app_assoc. reflexivity.
    + apply Hpre. exact H2.
  - exists (map deltaChunk ds). split; [exact E1 | apply Hpanic].
  - exists (map deltaChunk ds). split; [exact E1 | apply Hfuel].
Qed.

Lemma emits_rng {A} (c : M A) (P : A -> Prop) :
  rng_only c P -> emits c (fun _ l => onlyDeltas l).
Proof.
  intros H env st. destruct (H env st) as (v & p & E & _). rewrite E.
  exists []. cbn [fst snd sent set_rng_pos].
  split; [now rewrite app_nil_r | apply onlyDeltas_nil].
Qed.

Lemma emits_ctxErr : emits ctxErr (fun _ l => onlyDeltas l).
Proof.
  intros env st. exists []. split; [|apply onlyDeltas_nil].
  rewrite app_nil_r. unfold ctxErr.
  destruct (ctx_done env) as [[n e]|]; [destruct (n <=? handed st)%nat|];
    reflexivity.
Qed.

Lemma emits_time_Since_ms (start : Z) :
  emits (time_Since_ms start) (fun _ l => onlyDeltas l).
Proof.
  intros env st. exists []. split; [|apply onlyDeltas_nil].
  now rewrite app_nil_r.
Qed.

Lemma emits_orPanic {A} (o : option A) :
  emits (orPanic o) (fun _ l => onlyDeltas l).
Proof.
  intros env st. exists []. split; [|apply onlyDeltas_nil].
  rewrite app_nil_r. destruct o; reflexivity.
Qed.

Lemma emits_Send_delta (d : gostring) :
  emits (Send (deltaChunk d)) (fun _ l => onlyDeltas l).
Proof.
  intros env st. exists [deltaChunk d]. split; [reflexivity|].
  now exists [d].
Qed.

Lemma emits_streamLoop (cfg : Config) (out : gostring) (cs : Z) :
  forall fuel i,
    emits (streamLoop fuel cfg out cs i) (fun _ l => onlyDeltas l).
Proof.
  induction fuel as [|f IH]; intros i; cbn [streamLoop].
  - intros env st. exists []. split; [now rewrite app_nil_r|].
    apply onlyDeltas_nil.
  - destruct (i <? len out); [|apply emits_ret, onlyDeltas_nil].
    apply emits_bind; [apply emits_ctxErr | | apply prefixClosed_deltas].
    intros [e|]; [apply emits_ret, onlyDeltas_nil|].
    apply emits_bind; [apply emits_orPanic | | apply prefixClosed_deltas].
    intros delta.
    apply emits_bind; [apply emits_Send_delta | | apply prefixClosed_deltas].
    intros [e|]; [apply emits_ret, onlyDeltas_nil|].
    apply emits_bind;
      [eapply emits_rng; apply sleepStreamGap_rng | | apply prefixClosed_deltas].
    intros _.
    apply emits_bind; [apply emits_ctxErr | | apply prefixClosed_deltas].
    intros [e|]; [apply emits_ret, onlyDeltas_nil | apply IH].
Qed.

Lemma emits_streamChunkSize (cfg : Config) :
  emits (streamChunkSize cfg) (fun _ l => onlyDeltas l).
Proof.
  unfold streamChunkSize.
  repeat match goal with
         | |- emits (if ?b then _ else _) _ => destruct b
         | |- emits (ret _) _ => apply emits_ret, onlyDeltas_nil
         | |- emits (bind _ _) _ =>
           apply emits_bind; [| intros ? | apply prefixClosed_deltas]
         | |- emits (RandIntn _) _ => eapply emits_rng; apply RandIntn_rng
         end.
Qed.

Lemma emits_streamPlan (cfg : Config) (req : ChatCompletionRequest) :
  emits (streamPlan cfg req) (fun _ l => onlyDeltas l).
Proof.
  unfold streamPlan. apply emits_bind; [| | apply prefixClosed_deltas].
  - destruct (Randomize cfg);
      [eapply emits_rng; apply pickTargetTokens_rng
      | apply emits_ret, onlyDeltas_nil].
  - intros eff.
    apply emits_bind;
      [apply emits_streamChunkSize | | apply prefixClosed_deltas].
    intros cs. apply emits_ret, onlyDeltas_nil.
Qed.

Lemma prefixClosed_bodyMessages : prefixClosed bodyMessages.
Proof.
  split; [|split].
  - intros r l ds (ds' & tail & -> & H). exists (ds ++ ds'), tail.
    split; [now rewrite map_app, app_assoc | exact H].
  - intros ds. exists ds, []. split; [now rewrite app_nil_r | reflexivity].
  - intros ds. exists ds, []. split; [now rewrite app_nil_r | reflexivity].
Qed.

Lemma bodyMessages_error (e : error) : bodyMessages (Val (Some e)) [].
Proof. exists [], []. split; [reflexivity | now left]. Qed.

Lemma emits_streamBody (cfg : Config) (req : ChatCompletionRequest)
    (start : Z) :
  emits (streamBody cfg req start) bodyMessages.
Proof.
  unfold streamBody.
  apply emits_bind;
    [eapply emits_rng; apply shouldFail_rng | | apply prefixClosed_bodyMessages].
  intros [|].
  - apply emits_bind;
      [eapply emits_rng; apply pickGrpcErrorCode_rng |
       | apply prefixClosed_bodyMessages].
    intros c. apply emits_ret, bodyMessages_error.
  - apply emits_bind;
      [eapply emits_rng; apply jitterMs_rng | | apply prefixClosed_bodyMessages].
    intros j.
    apply emits_bind;
      [eapply emits_rng; apply ttftMs_rng | | apply prefixClosed_bodyMessages].
    intros t. apply emits_bind; [| | apply prefixClosed_bodyMessages].
    + match goal with
      | |- emits (if ?b then _ else _) _ => destruct b
      end; [|apply emits_ret, onlyDeltas_nil].
      apply emits_bind;
        [apply emits_ret, onlyDeltas_nil | | apply prefixClosed_deltas].
      intros _. apply emits_ctxErr.
    + intros [e|]; [apply emits_ret, bodyMessages_error|].
      apply emits_bind;
        [apply emits_streamPlan | | apply prefixClosed_bodyMessages].
      intros [[prompt out] cs].
      apply emits_bind;
        [apply emits_streamLoop | | apply prefixClosed_bodyMessages].
      intros [e|]; [apply emits_ret, bodyMessages_error|].
      apply emits_bind;
        [apply emits_time_Since_ms | | apply prefixClosed_bodyMessages].
      intros latency env st. eexists. split; [reflexivity|].
      exists []. eexists. split; [reflexivity|].
      cbn [Send fst]. destruct (send_err env (length (sent st)));
        cbn [option_map]; [right|]; eauto.
Qed.

(** X29. The grammar of a stream, in all surroundings (failing
    transport, cancellation, injected failure, randomization): the
    messages handed to the transport are content chunks, followed by
    "done" when the call returns no error, and by "failed" with the text
    of the error, or by "done" and then "failed", when it returns one;
    there is never more than one "done" and one "failed" event, and no
    content chunk follows a terminal event. *)
Theorem stream_message_grammar
    (cfg : Config) (req : ChatCompletionRequest) (env : Env) :
  let '(r, st') := ChatCompletionStream cfg req env init in
  exists ds tail,
    sent st' = map deltaChunk ds ++ tail /\
    match r with
    | Val None => exists pt ct latency, tail = [doneChunk pt ct latency]
    | Val (Some e) =>
      tail = [failedChunk (Error e)] \/
      exists pt ct latency,
        tail = [doneChunk pt ct latency; failedChunk (Error e)]
    | _ => tail = []
    end.
Proof.
  unfold ChatCompletionStream.
  set (t0 := now init + Z.of_N (elapse env (clock_reads init))).
  rewrite (bind_val _ _ _ _ _ _ (eq_refl : time_Now env init
                                   = (Val t0, set_clock 1 t0 init))).
  destruct (emits_streamBody cfg req t0 env (set_clock 1 t0 init))
    as (l & E & ds & tail & -> & H).
  cbn [sent set_clock init app] in E. unfold bind.
  destruct (streamBody cfg req t0 env (set_clock 1 t0 init))
    as [[[e|]| |] st1]; cbn [fst snd] in *.
  - unfold Send, ret. cbn [sent set_sent]. rewrite E.
    destruct H as [->|(pt & ct & latency & ->)].
    + exists ds. eexists. split; [rewrite app_nil_r; reflexivity|].
      now left.
    + exists ds. eexists. split; [rewrite <- app_assoc; reflexivity|].
      right. now exists pt, ct, latency.
  - unfold ret. exists ds, tail. split; [exact E | exact H].
  - exists ds, tail. split; [exact E | exact H].
  - exists ds, tail. split; [exact E | exact H].
Qed.

(** ** The text-event-stream front end *)

(** X24. When the response cannot be flushed ([w] is no [http.Flusher])
    the text-event-stream front end answers with status 500 and the
    plain-text message "streaming unsupported"; no event is written and
    no draw is made. *)
Theorem sse_streaming_unsupported
    (model prompt : gostring) (maxTokens : Z) (cfg : Config)
    (chunkSizeArg : Z) (env : Env) :
  can_flush env = false ->
  exists st',
    serveChatCompletionSSE model prompt maxTokens cfg chunkSizeArg env init
    = (Val tt, st') /\
    status st' = Some 500 /\
    content_type st' = bytes "text/plain; charset=utf-8" /\
    body st' = [FrameText (bytes "streaming unsupported" ++ LF)] /\
    Forall (fun f => isStreamFrame f = false) (body st') /\
    rng_pos st' = 0%nat.
Proof.
  intros H. unfold serveChatCompletionSSE. rewrite H. cbn [negb].
  eexists. split; [reflexivity|]. cbn.
  repeat split. repeat constructor.
Qed.

Lemma sseOutcome_cons (done : option (nat * ctxError)) (h : nat)
    (c : gostring) (cl : list gostring) :
  sseOutcome done h (c :: cl)
  = match done with
    | None => (true, c :: cl)
    | Some (n, e) =>
      if (n <=? h)%nat then (false, [])
      else (fst (sseOutcome done (S h) cl),
            c :: snd (sseOutcome done (S h) cl))
    end.
Proof.
  destruct done as [[n e]|]; [|reflexivity]. unfold sseOutcome.
  destruct (n <=? h)%nat eqn:E.
  - apply Nat.leb_le in E. replace (n - h)%nat with 0%nat by lia.
    reflexivity.
  - apply Nat.leb_gt in E.
    replace (n - h)%nat with (S (n - S h)) by lia. cbn [length].
    change (S (n - S h) <? S (length cl))%nat
      with (n - S h <? length cl)%nat.
    destruct (n - S h <? length cl)%nat; reflexivity.
Qed.

(** The content loop over a response that takes every write: the planned
    chunks go out in order until the context is seen done. *)
Lemma sseLoop_run_ctx (cfg : Config) (id : gostring) (created : Z)
    (model content : gostring) (cs : Z) (env : Env) :
  1 <= cs <= Go.max_int -> len content < Go.maxAlloc ->
  (forall k, io_err env k = false) ->
  forall fuel i st,
    0 <= i -> (i < len content -> i + cs <= Go.max_int) ->
    Z.max 0 (len content - i) < Z.of_nat fuel ->
    sent st = [] -> buffered st = [] -> status st = Some 200 ->
    let cl := chunksOf cs (skipn (Z.to_nat i) content) in
    let o := sseOutcome (ctx_done env) (length (body st)) cl in
    exists p k,
      sseLoop fuel cfg id created model content cs i env st
      = (Val (fst o),
         set_rng_pos p
           (set_io k []
              (body st ++ map (contentFrame id created model) (snd o))
              (Some 200) st)).
Proof.
  intros Hcs Hfit Hio. unfold Go.maxAlloc in Hfit.
  assert (Hsame : forall st : State,
    buffered st = [] -> status st = Some 200 ->
    set_rng_pos (rng_pos st)
      (set_io (io_ops st) [] (body st ++ []) (Some 200) st) = st).
  { intros st Hb Hs. rewrite app_nil_r. destruct st; cbn in *; subst.
    reflexivity. }
  induction fuel as [|f IH]; intros i st Hi Hov Hfuel Hsent Hbuf Hst cl o;
    [lia|].
  cbn [sseLoop]. destruct (i <? len content) eqn:Ei.
  - apply Z.ltb_lt in Ei. specialize (Hov Ei).
    assert (Hcl : cl = firstn (Z.to_nat cs) (skipn (Z.to_nat i) content)
                       :: chunksOf cs (skipn (Z.to_nat (i + cs)) content)).
    { unfold cl. rewrite chunksOf_cons; [|lia|apply skipn_nonempty; lia].
      rewrite skipn_next by lia. reflexivity. }
    set (c0 := firstn (Z.to_nat cs) (skipn (Z.to_nat i) content)) in *.
    set (cl' := chunksOf cs (skipn (Z.to_nat (i + cs)) content)) in *.
    unfold o. rewrite Hcl, sseOutcome_cons.
    set (st1 := set_io (S (S (io_ops st))) []
                       (body st ++ [contentFrame id created model c0])
                       (Some 200) st).
    destruct (sleepSSEStreamGap_rng cfg c0 env st1) as ([] & p1 & Egap & _).
    destruct (IH (i + cs) (set_rng_pos p1 st1)) as (p & k & E);
      [lia | unfold Go.max_int in *; lia | lia | exact Hsent | reflexivity
       | reflexivity |].
    fold cl' in E.
    assert (Hlen1 : length (body (set_rng_pos p1 st1)) = S (length (body st))).
    { cbn [body set_rng_pos set_io st1]. rewrite length_app. cbn [length].
      lia. }
    rewrite Hlen1 in E.
    assert (Hstep :
      bind (orPanic (slice content i
                (if len content <? Go.int (i + cs) then len content
                 else Go.int (i + cs))))
        (fun part =>
           bind (writeSSE (contentChunk id created model part))
             (fun ok =>
                if negb ok then ret false
                else
                  bind Flush
                    (fun ok =>
                       if negb ok then ret false
                       else
                         bind (sleepSSEStreamGap cfg part)
                           (fun _ =>
                              sseLoop f cfg id created model content cs
                                      (Go.int (i + cs)))))) env st
      = sseLoop f cfg id created model content cs (i + cs) env
                (set_rng_pos p1 st1)).
    { rewrite slice_chunk by lia. fold c0.
      unfold orPanic. unfold bind at 1. unfold ret at 1.
      unfold bind at 1. unfold writeSSE at 1. unfold Fprint at 1.
      rewrite Hio. cbn [negb].
      unfold bind at 1. unfold Flush at 1.
      cbn [io_ops set_io buffered body status]. rewrite Hio, Hbuf, Hst.
      cbn [negb app]. fold (contentFrame id created model c0).
      replace (set_io (S (S (io_ops st))) [] _ (Some 200)
                      (set_io (S (io_ops st))
                              [contentFrame id created model c0] (body st)
                              (Some 200) st))
        with st1 by reflexivity.
      unfold bind at 1. rewrite Egap.
      unfold Go.max_int in Hov. rewrite int_small by lia. reflexivity. }
    assert (Hh : handed st = length (body st)).
    { unfold handed. now rewrite Hsent. }
    unfold bind at 1. unfold ctxErr at 1. rewrite Hh.
    destruct (ctx_done env) as [[n e]|] eqn:Ed.
    + destruct (n <=? length (body st))%nat eqn:En.
      * exists (rng_pos st), (io_ops st). cbn [fst snd map].
        rewrite Hsame by assumption. reflexivity.
      * exists p, k. rewrite Hstep, E. cbn [fst snd map].
        cbn [body set_rng_pos set_io st1]. rewrite <- app_assoc.
        reflexivity.
    + exists p, k. rewrite Hstep, E. cbn [fst snd map sseOutcome].
      cbn [body set_rng_pos set_io st1]. rewrite <- app_assoc.
      reflexivity.
  - apply Z.ltb_ge in Ei. exists (rng_pos st), (io_ops st).
    unfold o, cl. rewrite skipn_empty by lia. rewrite chunksOf_nil.
    assert (Eo : sseOutcome (ctx_done env) (length (body st)) [] = (true, [])).
    { unfold sseOutcome. destruct (ctx_done env) as [[n e]|]; [|reflexivity].
      cbn [length]. reflexivity. }
    rewrite Eo. cbn [fst snd map]. rewrite Hsame by assumption.
    reflexivity.
Qed.

(** The text-event stream over a response that takes every write,
    whatever the context does. *)
Lemma serveChatCompletionSSE_run_ctx (model prompt : gostring)
    (maxTokens : Z) (cfg : Config) (chunkSize : Z) (env : Env) :
  1 <= sseBaseChunkSize cfg chunkSize <= Go.max_int ->
  len (outputOf cfg prompt maxTokens) < Go.maxAlloc ->
  writesSucceed env ->
  exists cs r created st',
    1 <= cs <= Go.max_int /\
    (Randomize cfg = false -> cs = sseBaseChunkSize cfg chunkSize) /\
    len r = 10 /\ Forall (fun c => In c letters) r /\
    let id := bytes "chatcmpl_mock_" ++ r in
    let o := sseOutcome (ctx_done env) 1
               (chunksOf cs (outputOf cfg prompt maxTokens)) in
    serveChatCompletionSSE model prompt maxTokens cfg chunkSize env init
    = (Val tt, st') /\
    status st' = Some 200 /\
    content_type st' = bytes "text/event-stream" /\
    buffered st' = [] /\
    body st' = roleFrame id created model
               :: map (contentFrame id created model) (snd o)
               ++ (if fst o
                   then [lastFrame id created model; FrameDone]
                   else []).
Proof.
  intros Hbase Hfit [Hflush Hio].
  set (st0 := set_content_type (bytes "text/event-stream") init).
  destruct (RandID_loop_run env 10 [] st0) as (r & E1 & Hr & Hletters).
  cbn [app] in E1. fold RandID in E1.
  set (id := bytes "chatcmpl_mock_" ++ r).
  set (st1 := set_rng_pos (rng_pos st0 + 10) st0) in *.
  set (t := now st1 + Z.of_N (elapse env (clock_reads st1))).
  set (created := Z.quot t 1000000000).
  set (st2 := set_clock (S (clock_reads st1)) t st1).
  destruct (sseChunkSize_rng cfg chunkSize Hbase env st2)
    as (cs & p3 & E3 & Hcs & Hcsbase).
  set (content := outputOf cfg prompt maxTokens) in *.
  set (st4 := set_io 2 [] [roleFrame id created model] (Some 200)
                     (set_rng_pos p3 st2)).
  destruct (sseLoop_run_ctx cfg id created model content cs env Hcs Hfit Hio
              (S (length content)) 0 st4)
    as (p5 & k5 & E5);
    [lia | lia | unfold len; lia | reflexivity | reflexivity | reflexivity |].
  cbn [Z.to_nat skipn] in E5. replace (skipn 0 content) with content in E5
    by reflexivity.
  cbn [body st4 set_io length] in E5.
  set (o := sseOutcome (ctx_done env) 1 (chunksOf cs content)) in *.
  assert (Erun : exists st',
    serveChatCompletionSSE model prompt maxTokens cfg chunkSize env init
    = (Val tt, st') /\
    status st' = Some 200 /\
    content_type st' = bytes "text/event-stream" /\
    buffered st' = [] /\
    body st' = roleFrame id created model
               :: map (contentFrame id created model) (snd o)
               ++ (if fst o
                   then [lastFrame id created model; FrameDone]
                   else [])).
  { unfold serveChatCompletionSSE. rewrite Hflush. cbn [negb].
    rewrite (bind_val _ _ _ _ _ _ (eq_refl : setContentType _ env init
                                             = (Val tt, st0))).
    rewrite (bind_val _ _ _ _ _ _ E1). fold id.
    rewrite (bind_val _ _ _ _ _ _ (eq_refl : time_Now env st1
                                             = (Val t, st2))).
    fold created.
    rewrite (bind_val _ _ _ _ _ _ E3).
    fold (outputOf cfg prompt maxTokens). fold content.
    unfold bind at 1. unfold writeSSE at 1. unfold Fprint at 1.
    rewrite Hio. cbn [negb].
    unfold bind at 1. unfold Flush at 1. rewrite Hio. cbn [negb].
    match goal with
    | |- exists st', bind _ _ env ?s = _ /\ _ =>
      replace s with st4 by reflexivity
    end.
    rewrite (bind_val _ _ _ _ _ _ E5).
    destruct (fst o).
    - cbn [negb].
      unfold bind at 1. unfold writeSSE at 1. unfold Fprint at 1.
      rewrite Hio. cbn [negb].
      unfold bind at 1. unfold Fprint at 1. rewrite Hio. cbn [negb].
      unfold bind at 1. unfold Flush at 1. rewrite Hio.
      unfold ret. eexists. split; [reflexivity|].
      cbn [status body buffered content_type set_io set_rng_pos st4 app].
      repeat split; rewrite <- ?app_assoc; reflexivity.
    - cbn [negb]. unfold ret. eexists. split; [reflexivity|].
      cbn [status body buffered content_type set_io set_rng_pos st4 app].
      repeat split; rewrite ?app_nil_r; reflexivity. }
  destruct Erun as (st' & Erun).
  exists cs, r, created, st'.
  split; [exact Hcs|]. split; [exact Hcsbase|].
  split; [unfold len; now rewrite Hr|]. split; [exact Hletters|].
  cbv zeta. fold id. fold content. fold o. exact Erun.
Qed.

(** X25. A chunk size that is negative when the content loop starts (a
    negative [chunk_size] of the request, or a negative configured size
    with none given) is not replaced by a default: once the role event
    has gone out with status 200, the first slice [content[0:end]] has a
    negative end and the handler panics. *)
Theorem sse_negative_chunk_size_panics
    (model prompt : gostring) (maxTokens : Z) (cfg : Config)
    (chunkSizeArg : Z) (env : Env) :
  Go.min_int <= sseBaseChunkSize cfg chunkSizeArg < 0 ->
  can_flush env = true -> io_err env 0%nat = false ->
  io_err env 1%nat = false ->
  (forall n e, ctx_done env = Some (n, e) -> (2 <= n)%nat) ->
  exists id created st',
    serveChatCompletionSSE model prompt maxTokens cfg chunkSizeArg env init
    = (Panic, st') /\
    status st' = Some 200 /\
    body st' = [roleFrame id created model].
Proof.
  intros Hneg Hflush Hio0 Hio1 Hctx. unfold Go.min_int in Hneg.
  set (st0 := set_content_type (bytes "text/event-stream") init).
  destruct (RandID_loop_rng 10 [] env st0) as (r & p1 & E1 & _).
  fold RandID in E1.
  set (id := bytes "chatcmpl_mock_" ++ r).
  set (t := now (set_rng_pos p1 st0)
            + Z.of_N (elapse env (clock_reads (set_rng_pos p1 st0)))).
  set (created := Z.quot t 1000000000).
  set (st2 := set_clock (S (clock_reads (set_rng_pos p1 st0))) t
                        (set_rng_pos p1 st0)).
  set (base := sseBaseChunkSize cfg chunkSizeArg) in *.
  assert (E3 : sseChunkSize cfg chunkSizeArg env st2 = (Val base, st2)).
  { unfold sseChunkSize. cbv zeta.
    change (defaultInt chunkSizeArg (defaultInt (ChunkSize cfg) 12))
      with base.
    replace (1 <? base) with false by (symmetry; apply Z.ltb_ge; lia).
    rewrite andb_false_r. reflexivity. }
  set (content := outputOf cfg prompt maxTokens).
  pose proof (outputOf_nonempty cfg prompt maxTokens) as Hout.
  fold content in Hout.
  set (st4 := set_io 2 [] [roleFrame id created model] (Some 200)
                     st2).
  assert (El : sseLoop (S (length content)) cfg id created model content
                       base 0 env st4 = (Panic, st4)).
  { cbn [sseLoop].
    replace (0 <? len content) with true by (symmetry; apply Z.ltb_lt; lia).
    assert (Ec : ctxErr env st4 = (Val None, st4)).
    { unfold ctxErr. destruct (ctx_done env) as [[n e]|] eqn:Ed;
        [|reflexivity].
      specialize (Hctx n e eq_refl).
      replace (n <=? handed st4)%nat with false; [reflexivity|].
      symmetry. apply Nat.leb_gt. cbn. lia. }
    rewrite (bind_val _ _ _ _ _ _ Ec).
    cbn [Z.add]. rewrite int_small by lia.
    replace (len content <? base) with false
      by (symmetry; apply Z.ltb_ge; lia).
    unfold slice.
    replace (0 <=? base) with false by (symmetry; apply Z.leb_gt; lia).
    reflexivity. }
  exists id, created, st4.
  unfold serveChatCompletionSSE. rewrite Hflush. cbn [negb].
  rewrite (bind_val _ _ _ _ _ _ (eq_refl : setContentType _ env init
                                           = (Val tt, st0))).
  rewrite (bind_val _ _ _ _ _ _ E1). fold id.
  rewrite (bind_val _ _ _ _ _ _ (eq_refl : time_Now env (set_rng_pos p1 st0)
                                           = (Val t, st2))).
  fold created.
  rewrite (bind_val _ _ _ _ _ _ E3).
  fold (outputOf cfg prompt maxTokens). fold content.
  unfold bind at 1. unfold writeSSE at 1. unfold Fprint at 1.
  change (io_ops st2) with 0%nat. rewrite Hio0. cbn [negb].
  unfold bind at 1. unfold Flush at 1.
  cbn [io_ops set_io]. rewrite Hio1. cbn [negb].
  match goal with
  | |- bind _ _ env ?s = _ /\ _ => replace s with st4 by reflexivity
  end.
  unfold bind at 1. rewrite El. split; [reflexivity|].
  split; reflexivity.
Qed.

(** X26. A text-event stream over a response that takes every write,
    whose context is done once [n] frames went out: the role event and
    the first [n - 1] planned slices were written and flushed, and the
    response carries what [json.Marshal] makes of those slices. When the
    context is done before the last slice ([n - 1] below the number of
    slices) the stream stops there without a word, with neither the
    closing event nor the [data: [DONE]] sentinel; otherwise it runs to
    its end. *)
Theorem sse_cancellation_stops_silently
    (model prompt : gostring) (maxTokens : Z) (cfg : Config)
    (chunkSizeArg : Z) (env : Env) (n : nat) (e : ctxError) :
  1 <= sseBaseChunkSize cfg chunkSizeArg <= Go.max_int ->
  len (outputOf cfg prompt maxTokens) < Go.maxAlloc ->
  writesSucceed env -> ctx_done env = Some (n, e) ->
  exists cs id created st',
    1 <= cs /\
    (Randomize cfg = false -> cs = sseBaseChunkSize cfg chunkSizeArg) /\
    serveChatCompletionSSE model prompt maxTokens cfg chunkSizeArg env init
    = (Val tt, st') /\
    let chunks := chunksOf cs (outputOf cfg prompt maxTokens) in
    body st' = roleFrame id created model
               :: map (contentFrame id created model) (firstn (n - 1) chunks)
               ++ (if (n - 1 <? length chunks)%nat then []
                   else [lastFrame id created model; FrameDone]) /\
    sseContentTexts (body st')
    = map json.validString (firstn (n - 1) chunks) /\
    ((n - 1 < length chunks)%nat ->
     ~ In FrameDone (body st') /\
     ~ In (lastFrame id created model) (body st')) /\
    buffered st' = [].
Proof.
  intros Hbase Hfit Hw Hctx.
  destruct (serveChatCompletionSSE_run_ctx model prompt maxTokens cfg
              chunkSizeArg env Hbase Hfit Hw)
    as (cs & r & created & st' & Hcs & Hcsbase & _ & _ & Hrun).
  cbv zeta in Hrun. destruct Hrun as (Erun & _ & _ & Hbuf & Hbody).
  exists cs, (bytes "chatcmpl_mock_" ++ r), created, st'.
  split; [lia|]. split; [exact Hcsbase|]. split; [exact Erun|]. cbv zeta.
  set (chunks := chunksOf cs (outputOf cfg prompt maxTokens)) in *.
  assert (Eo : sseOutcome (ctx_done env) 1 chunks
               = (negb (n - 1 <? length chunks)%nat, firstn (n - 1) chunks)).
  { rewrite Hctx. unfold sseOutcome.
    destruct (n - 1 <? length chunks)%nat eqn:E; [reflexivity|].
    apply Nat.ltb_ge in E. now rewrite firstn_all2. }
  rewrite Eo in Hbody. cbn [fst snd] in Hbody.
  assert (Hbody' :
            body st' = roleFrame (bytes "chatcmpl_mock_" ++ r) created model
                       :: map (contentFrame (bytes "chatcmpl_mock_" ++ r)
                                            created model)
                              (firstn (n - 1) chunks)
                       ++ (if (n - 1 <? length chunks)%nat then []
                           else [lastFrame (bytes "chatcmpl_mock_" ++ r)
                                           created model; FrameDone])).
  { rewrite Hbody. destruct (n - 1 <? length chunks)%nat; reflexivity. }
  clear Hbody Eo. split; [exact Hbody'|].
  split; [|split; [|exact Hbuf]].
  - rewrite Hbody'.
    change (sseContentTexts (?f :: ?l)) with (sseContentTexts l).
    rewrite sseContentTexts_frames.
    destruct (n - 1 <? length chunks)%nat; apply app_nil_r.
  - intros Hlt. apply Nat.ltb_lt in Hlt. rewrite Hlt, app_nil_r in Hbody'.
    rewrite Hbody'. split.
    + intros [H|H]; [discriminate|]. apply in_map_iff in H.
      destruct H as (x & H & _). discriminate.
    + intros [H|H]; [discriminate|]. apply in_map_iff in H.
      destruct H as (x & H & _). discriminate.
Qed.

(** X27. The envelope of a text-event stream that runs to its end: status
    200 with content type [text/event-stream]; every data event carries
    the same identifier, "chatcmpl_mock_" followed by ten letters of the
    alphabet of [RandID], the same creation time, the model that was
    asked for (as [json.Marshal] writes it) and the object name
    "chat.completion.chunk"; the
    [data: [DONE]] sentinel is the last frame and nothing stays in the
    buffer. *)
Theorem sse_stream_envelope
    (model prompt : gostring) (maxTokens : Z) (cfg : Config)
    (chunkSizeArg : Z) (env : Env) :
  1 <= sseBaseChunkSize cfg chunkSizeArg <= Go.max_int ->
  len (outputOf cfg prompt maxTokens) < Go.maxAlloc ->
  writesSucceed env -> ctx_done env = None ->
  exists r created st',
    serveChatCompletionSSE model prompt maxTokens cfg chunkSizeArg env init
    = (Val tt, st') /\
    status st' = Some 200 /\
    content_type st' = bytes "text/event-stream" /\
    buffered st' = [] /\
    len r = 10 /\ Forall (fun c => In c letters) r /\
    Forall (fun f =>
              f = FrameDone \/
              exists c, f = FrameData c /\
                ID c = bytes "chatcmpl_mock_" ++ r /\ Created c = created /\
                ChunkModel c = json.validString model /\
                Object c = bytes "chat.completion.chunk") (body st') /\
    last (body st') (FrameText []) = FrameDone.
Proof.
  intros Hbase Hfit Hw Hctx.
  destruct (serveChatCompletionSSE_run_ctx model prompt maxTokens cfg
              chunkSizeArg env Hbase Hfit Hw)
    as (cs & r & created & st' & _ & _ & Hr & Hletters & Hrun).
  cbv zeta in Hrun. rewrite Hctx in Hrun. cbn [sseOutcome fst snd] in Hrun.
  destruct Hrun as (Erun & Hst & Hct & Hbuf & Hbody).
  exists r, created, st'.
  split; [exact Erun|]. split; [exact Hst|]. split; [exact Hct|].
  split; [exact Hbuf|]. split; [exact Hr|]. split; [exact Hletters|].
  assert (Hid : json.validString (bytes "chatcmpl_mock_" ++ r)
                = bytes "chatcmpl_mock_" ++ r).
  { apply validString_ascii. rewrite isASCII_app.
    change (strings.isASCII (bytes "chatcmpl_mock_")) with true.
    cbn [andb]. unfold strings.isASCII. apply forallb_forall. intros c Hc.
    assert (Hall : forallb (fun c => byte_val c <? 128) letters = true)
      by reflexivity.
    rewrite forallb_forall in Hall. rewrite Forall_forall in Hletters.
    apply Hall, Hletters, Hc. }
  rewrite Hbody. split.
  - constructor;
      [right; eexists; split; [reflexivity|];
       cbn [json.Marshal ID Created ChunkModel Object roleChunk];
       rewrite Hid; repeat split|].
    apply Forall_app. split.
    + apply Forall_forall. intros f Hf. apply in_map_iff in Hf.
      destruct Hf as (x & <- & _). right. eexists. split; [reflexivity|].
      cbn [json.Marshal ID Created ChunkModel Object contentChunk].
      rewrite Hid. repeat split.
    + constructor;
        [right; eexists; split; [reflexivity|];
         cbn [json.Marshal ID Created ChunkModel Object lastChunk];
         rewrite Hid; repeat split|].
      constructor; [left; reflexivity | constructor].
  - rewrite app_comm_cons.
    change [lastFrame (bytes "chatcmpl_mock_" ++ r) created model;
            FrameDone]
      with ([lastFrame (bytes "chatcmpl_mock_" ++ r) created
                                  model] ++ [FrameDone]).
    rewrite app_assoc. apply last_last.
Qed.

Lemma queryInt_eq (v : gostring) (def : Z) :
  (if negb (gostring_eqb v [])
   then match strconv.Atoi v with Some n => n | None => def end
   else def)
  = match strconv.Atoi v with Some n => n | None => def end.
Proof.
  destruct (gostring_eqb v []) eqn:E; [|reflexivity].
  apply gostring_eqb_eq in E. subst v. reflexivity.
Qed.

(** X28. The handler of the text-event stream reads its query: with a
    prompt and randomization off, the stream is synthesized for the token
    budget of [max_tokens] and cut at [chunk_size], each falling back to
    the configured value ([DefaultTokens], [ChunkSize]) when the parameter
    is absent or is no integer; the response carries what [json.Marshal]
    makes of each slice, and every data event names the model of the
    query (as [json.Marshal] writes it), "mock-sse" when there is none. *)
Theorem sse_handler_reads_query
    (cfg : Config) (q : url.Values) (env : Env) (on oc : option Z) :
  url.Get q (bytes "prompt") <> [] ->
  strconv.Atoi (url.Get q (bytes "max_tokens")) = on ->
  strconv.Atoi (url.Get q (bytes "chunk_size")) = oc ->
  let prompt := url.Get q (bytes "prompt") in
  let model := if gostring_eqb (url.Get q (bytes "model")) []
               then bytes "mock-sse" else url.Get q (bytes "model") in
  let maxTokens := match on with Some n => n | None => DefaultTokens cfg end in
  let chunk := match oc with Some c => c | None => ChunkSize cfg end in
  Randomize cfg = false ->
  1 <= sseBaseChunkSize cfg chunk <= Go.max_int ->
  len (outputOf cfg prompt maxTokens) < Go.maxAlloc ->
  writesSucceed env -> ctx_done env = None ->
  exists st',
    ChatCompletionSSEHandler cfg q env init = (Val tt, st') /\
    status st' = Some 200 /\
    sseContentTexts (body st')
    = map json.validString
          (chunksOf (sseBaseChunkSize cfg chunk)
                    (outputOf cfg prompt maxTokens)) /\
    Forall (fun f => forall c, f = FrameData c ->
                               ChunkModel c = json.validString model)
           (body st').
Proof.
  intros Hp Hon Hoc prompt model maxTokens chunk Hrand Hbase Hfit Hw Hctx.
  destruct (serveChatCompletionSSE_run model prompt maxTokens cfg chunk env
              Hbase Hfit Hw Hctx)
    as (cs & id & created & st' & _ & Hcs & Erun & Hst & Hbody).
  specialize (Hcs Hrand). subst cs.
  exists st'. split; [|split; [exact Hst|split]].
  - unfold ChatCompletionSSEHandler. cbv zeta.
    apply gostring_eqb_neq in Hp. rewrite Hp.
    rewrite !queryInt_eq, Hon, Hoc. exact Erun.
  - rewrite Hbody. apply sseContentTexts_body.
  - rewrite Hbody. constructor; [intros c H; inversion H; reflexivity|].
    apply Forall_app. split.
    + apply Forall_forall. intros f Hf. apply in_map_iff in Hf.
      destruct Hf as (x & <- & _). intros c H. inversion H. reflexivity.
    + constructor; [intros c H; inversion H; reflexivity|].
      constructor; [intros c H; discriminate | constructor].
Qed.

(** *** The grammar of the frames of a text-event stream *)

Lemma writes_bind {A B} (c : M A) (k : A -> M B) (P : list Frame -> Prop)
    (Q : Res B -> list Frame -> Prop) :
  writes c (fun _ l => P l) -> (forall a, writes (k a) Q) ->
  (forall r l p, P p -> Q r l -> Q r (p ++ l)) ->
  (forall p, P p -> Q Panic p) -> (forall p, P p -> Q OutOfFuel p) ->
  writes (bind c k) Q.
Proof.
  intros Hc Hk Hpre Hpanic Hfuel env st. unfold bind.
  destruct (Hc env st) as (l1 & E1 & H1).
  destruct (c env st) as [[a| |] s1]; cbn [fst snd] in *.
  - destruct (Hk a env s1) as (l2 & E2 & H2). exists (l1 ++ l2). split.
    + rewrite E2, E1, app_assoc. reflexivity.
    + now apply Hpre.
  - exists l1. split; [exact E1 | now apply Hpanic].
  - exists l1. split; [exact E1 | now apply Hfuel].
Qed.

Lemma writes_bind_silent {A B} (c : M A) (k : A -> M B)
    (Q : Res B -> list Frame -> Prop) :
  writes c (fun _ l => l = []) -> (forall a, writes (k a) Q) ->
  Q Panic [] -> Q OutOfFuel [] -> writes (bind c k) Q.
Proof.
  intros Hc Hk Hpanic Hfuel.
  apply writes_bind with (P := fun l => l = []); try assumption.
  - intros r l p -> H. exact H.
  - intros p ->. exact Hpanic.
  - intros p ->. exact Hfuel.
Qed.

Lemma silent_ret {A} (a : A) : writes (ret a) (fun _ l => l = []).
Proof. intros env st. exists []. now rewrite app_nil_r. Qed.

Lemma silent_rng {A} (c : M A) (P : A -> Prop) :
  rng_only c P -> writes c (fun _ l => l = []).
Proof.
  intros H env st. destruct (H env st) as (v & p & E & _). rewrite E.
  exists []. unfold written. cbn [fst snd body buffered set_rng_pos].
  now rewrite app_nil_r.
Qed.

Lemma silent_ctxErr : writes ctxErr (fun _ l => l = []).
Proof.
  intros env st. exists []. rewrite app_nil_r. split; [|reflexivity].
  unfold ctxErr.
  destruct (ctx_done env) as [[n e]|]; [destruct (n <=? handed st)%nat|];
    reflexivity.
Qed.

Lemma silent_orPanic {A} (o : option A) : writes (orPanic o) (fun _ l => l = []).
Proof.
  intros env st. exists []. rewrite app_nil_r. destruct o; now split.
Qed.

Lemma silent_time_Now : writes time_Now (fun _ l => l = []).
Proof. intros env st. exists []. now rewrite app_nil_r. Qed.

Lemma silent_setContentType (v : gostring) :
  writes (setContentType v) (fun _ l => l = []).
Proof.
  intros env st. exists []. rewrite app_nil_r. unfold setContentType.
  destruct (status st); now split.
Qed.

Lemma silent_Flush : writes Flush (fun _ l => l = []).
Proof.
  intros env st. exists []. unfold Flush, written.
  destruct (io_err env (io_ops st)); cbn [fst snd body buffered set_io];
    now rewrite !app_nil_r.
Qed.

Lemma silent_sseChunkSize (cfg : Config) (chunkSize : Z) :
  writes (sseChunkSize cfg chunkSize) (fun _ l => l = []).
Proof.
  unfold sseChunkSize.
  match goal with
  | |- writes (if ?b then _ else _) _ => destruct b
  end; [|apply silent_ret].
  apply writes_bind_silent;
    [eapply silent_rng; apply RandIntn_rng | intros r; apply silent_ret
    | reflexivity | reflexivity].
Qed.

Lemma Fprint_writes (f : Frame) :
  writes (Fprint f)
    (fun r l => r = Val true /\ l = [f] \/ r = Val false /\ l = []).
Proof.
  intros env st. unfold Fprint, written.
  destruct (io_err env (io_ops st)); cbn [fst snd body buffered set_io].
  - exists []. rewrite app_nil_r. split; [reflexivity | now right].
  - exists [f]. rewrite app_assoc. split; [reflexivity | now left].
Qed.

Lemma writeSSE_writes (v : StreamChunk) :
  writes (writeSSE v)
    (fun r l => r = Val true /\ l = [FrameData (json.Marshal v)] \/
                r = Val false /\ l = []).
Proof. apply Fprint_writes. Qed.

Lemma sseFrames_nil (id : gostring) (created : Z) (model : gostring) :
  sseFrames id created model [].
Proof. exists [], []. split; [reflexivity | now left]. Qed.

Lemma sseFrames_cons (id : gostring) (created : Z) (model part : gostring)
    (l : list Frame) :
  sseFrames id created model l ->
  sseFrames id created model (contentFrame id created model part :: l).
Proof.
  intros (parts & tail & -> & H). exists (part :: parts), tail.
  split; [reflexivity | exact H].
Qed.

(** The end of the stream, after the content loop. *)
Lemma sse_closing_writes (id : gostring) (created : Z) (model : gostring) :
  writes (ok <- writeSSE (lastChunk id created model) ;;
          if negb ok then ret tt
          else
            ok <- Fprint FrameDone ;;
            if negb ok then ret tt
            else Flush ;;; ret tt)
    (fun _ l => sseTail id created model l).
Proof.
  intros env st. unfold bind at 1.
  destruct (writeSSE_writes (lastChunk id created model) env st)
    as (l1 & E1 & [[R1 ->]|[R1 ->]]);
    destruct (writeSSE (lastChunk id created model) env st)
      as [r1 s1]; cbn [fst snd] in *; subst r1; cbn [negb].
  - unfold bind at 1.
    destruct (Fprint_writes FrameDone env s1) as (l2 & E2 & [[R2 ->]|[R2 ->]]);
      destruct (Fprint FrameDone env s1) as [r2 s2]; cbn [fst snd] in *;
      subst r2; cbn [negb].
    + destruct (silent_Flush env s2) as (l3 & E3 & ->).
      unfold bind, ret. destruct (Flush env s2) as [[b| |] s3];
        cbn [fst snd] in *; eexists;
        (split; [rewrite E3, app_nil_r, E2, E1, <- app_assoc; reflexivity|]);
        right; right; reflexivity.
    + eexists. split; [unfold ret; cbn [snd]; rewrite E2, app_nil_r; exact E1|].
      right; left; reflexivity.
  - exists []. split; [exact E1 | now left].
Qed.

Lemma sseLoop_writes (cfg : Config) (id : gostring) (created : Z)
    (model content : gostring) (chunkSize : Z)
    (k : bool -> M unit) :
  (forall fin, writes (k fin) (fun _ l => sseTail id created model l)) ->
  forall fuel i,
    writes (fin <- sseLoop fuel cfg id created model content chunkSize i ;;
            k fin)
      (fun _ l => sseFrames id created model l).
Proof.
  intros Hk.
  assert (Hret : forall fin,
             writes (k fin) (fun _ l => sseFrames id created model l)).
  { intros fin env st. destruct (Hk fin env st) as (l & E & H).
    exists l. split; [exact E|]. exists [], l. now split. }
  assert (Hstop : forall fin,
             writes (fin' <- ret fin ;; k fin')
                    (fun _ l => sseFrames id created model l)).
  { intros fin env st. exact (Hret fin env st). }
  induction fuel as [|f IH]; intros i; cbn [sseLoop].
  - intros env st. exists []. split; [now rewrite app_nil_r|].
    apply sseFrames_nil.
  - destruct (i <? len content); [|apply Hstop].
    intros env st. unfold bind at 1. unfold bind at 1.
    destruct (silent_ctxErr env st) as (l0 & E0 & ->).
    rewrite app_nil_r in E0.
    destruct (ctxErr env st) as [[[e|]| |] s0]; cbn [fst snd] in *;
      try (exists []; split;
           [now rewrite app_nil_r | apply sseFrames_nil]).
    + destruct (Hret false env s0) as (l & E & H). exists l.
      split; [now rewrite <- E0 | exact H].
    + unfold bind at 1.
      match goal with
      | |- context [orPanic ?o] => destruct o as [part|]
      end; cbn [orPanic ret panic];
        [|exists []; split;
          [now rewrite app_nil_r | apply sseFrames_nil]].
      unfold bind at 1.
      destruct (writeSSE_writes (contentChunk id created model part)
                                env s0) as (l1 & E1 & [[R1 ->]|[R1 ->]]);
        destruct (writeSSE (contentChunk id created model part)
                           env s0) as [r1 s1]; cbn [fst snd] in *; subst r1;
        cbn [negb].
      * unfold bind at 1.
        destruct (silent_Flush env s1) as (l2 & E2 & ->).
        rewrite app_nil_r in E2.
        destruct (Flush env s1) as [[[|]| |] s2]; cbn [fst snd negb] in *.
        -- unfold bind at 1.
           destruct (silent_rng _ _ (sleepSSEStreamGap_rng cfg part) env s2)
             as (l3 & E3 & ->).
           rewrite app_nil_r in E3.
           destruct (sleepSSEStreamGap cfg part env s2) as [[u| |] s3];
             cbn [fst snd] in *.
           ++ destruct (IH (Go.int (i + chunkSize)) env s3) as (l & E & H).
              exists (contentFrame id created model part :: l). split.
              ** refine (eq_trans E _). rewrite E3, E2, E1, E0, <- app_assoc. reflexivity.
              ** apply sseFrames_cons, H.
           ++ exists [contentFrame id created model part]. split.
              ** rewrite E3, E2, E1, E0. reflexivity.
              ** apply sseFrames_cons, sseFrames_nil.
           ++ exists [contentFrame id created model part]. split.
              ** rewrite E3, E2, E1, E0. reflexivity.
              ** apply sseFrames_cons, sseFrames_nil.
        -- destruct (Hret false env s2) as (l & E & H).
           exists (contentFrame id created model part :: l). split.
           ++ refine (eq_trans E _). rewrite E2, E1, E0, <- app_assoc. reflexivity.
           ++ apply sseFrames_cons, H.
        -- exists [contentFrame id created model part]. split.
           ++ rewrite E2, E1, E0. reflexivity.
           ++ apply sseFrames_cons, sseFrames_nil.
        -- exists [contentFrame id created model part]. split.
           ++ rewrite E2, E1, E0. reflexivity.
           ++ apply sseFrames_cons, sseFrames_nil.
      * destruct (Hret false env s1) as (l & E & H). exists l. split.
        -- refine (eq_trans E _). rewrite E1, app_nil_r, E0. reflexivity.
        -- exact H.
Qed.

(** X30. The grammar of a text-event stream, whatever the writer, the
    flusher, the context and the generator do: the frames given to the
    response writer (what reaches the client is a prefix of them) are
    either the single plain-text line of the 500 answer, or nothing, or
    the role chunk followed by content chunks of one and the same id,
    time and model and then by nothing, by the closing chunk, or by the
    closing chunk and the [DONE] marker. The marker never comes without
    the closing chunk before it, and nothing follows it. *)
Theorem sse_frame_grammar
    (model prompt : gostring) (maxTokens : Z) (cfg : Config) (chunkSize : Z)
    (env : Env) :
  let st' := snd (serveChatCompletionSSE model prompt maxTokens cfg chunkSize
                                         env init) in
  written st' = [FrameText (bytes "streaming unsupported" ++ LF)] \/
  written st' = [] \/
  exists id created parts tail,
    written st' = roleFrame id created model
                  :: map (contentFrame id created model) parts ++ tail /\
    sseTail id created model tail.
Proof.
  cbv zeta. unfold serveChatCompletionSSE.
  destruct (can_flush env); cbn [negb]; [|left; reflexivity].
  right.
  set (Q := fun (_ : Res unit) (l : list Frame) =>
              l = [] \/
              exists id created rest,
                l = roleFrame id created model :: rest /\
                sseFrames id created model rest).
  match goal with
  | |- context [snd (?c env init)] =>
    cut (writes c Q);
      [intros H;
       destruct (H env init)
         as (l & E & [->|(id & created & rest & -> & parts & tail & -> & Ht)]);
       change (written init) with (@nil Frame) in E; cbn [app] in E;
       rewrite E;
       [left; reflexivity
       |right; exists id, created, parts, tail; split; [reflexivity | exact Ht]]|]
  end.
  apply writes_bind_silent;
    [apply silent_setContentType | intros _ | now left | now left].
  apply writes_bind_silent;
    [eapply silent_rng; apply RandID_loop_rng | intros r | now left | now left].
  apply writes_bind_silent;
    [apply silent_time_Now | intros t | now left | now left].
  apply writes_bind_silent;
    [apply silent_sseChunkSize | intros cs | now left | now left].
  set (id := bytes "chatcmpl_mock_" ++ r).
  set (created := Z.quot t 1000000000).
  intros env' st. unfold bind at 1.
  destruct (writeSSE_writes (roleChunk id created model) env' st)
    as (l1 & E1 & [[R1 ->]|[R1 ->]]);
    destruct (writeSSE (roleChunk id created model) env' st)
      as [r1 s1]; cbn [fst snd] in *; subst r1; cbn [negb];
    [|exists []; split; [exact E1 | now left]].
  unfold bind at 1.
  destruct (silent_Flush env' s1) as (l2 & E2 & ->). rewrite app_nil_r in E2.
  destruct (Flush env' s1) as [[[|]| |] s2]; cbn [fst snd negb] in *;
    try (exists [roleFrame id created model];
         split; [refine (eq_trans (_ : _ = written s2) _);
                 [reflexivity | rewrite E2; exact E1]|];
         right; exists id, created, [];
         split; [reflexivity | apply sseFrames_nil]).
  match goal with
  | |- context [bind (sseLoop ?fl _ _ _ _ ?content _ _) ?k] =>
    assert (Hk : forall fin,
               writes (k fin) (fun _ l => sseTail id created model l));
      [|destruct (sseLoop_writes cfg id created model content cs k Hk fl 0
                                 env' s2) as (l & E & H)]
  end.
  { intros [|]; cbn beta iota delta [negb].
    - apply sse_closing_writes.
    - intros e s. exists []. split; [now rewrite app_nil_r | now left]. }
  exists (roleFrame id created model :: l). split.
  - refine (eq_trans E _). rewrite E2, E1, <- app_assoc. reflexivity.
  - right. exists id, created, l. split; [reflexivity | exact H].
Qed.

End Simulator.

(** * Closed instances *)

(** The test configurations ask for outputs of at most 512 bytes. *)
Lemma streamCfg_fits : outputFits streamCfg.
Proof. apply outputFits_debug. vm_compute. reflexivity. Qed.

Lemma defaultsCfg_fits : outputFits defaultsCfg.
Proof. apply outputFits_debug. vm_compute. reflexivity. Qed.

Ltac closed :=
  repeat split; intros; vm_compute;
  first [reflexivity | discriminate | intros; discriminate | idtac].

(** C1: the stream of the test configuration and the text-event stream of
    the same prompt, budget and chunk size carry the same chunks. *)
Lemma C1_witness :
  exists st1 st2,
    ChatCompletionStream quoteASCII lowerASCII streamCfg streamReq quietEnv init
    = (Val None, st1) /\
    serveChatCompletionSSE quoteASCII (bytes "mock-sse")
      (buildPromptForTokens streamReq) (MaxTokens streamReq) streamCfg
      (ChunkSize streamCfg) quietEnv init = (Val tt, st2) /\
    let out := outputOf quoteASCII streamCfg (buildPromptForTokens streamReq)
                        (MaxTokens streamReq) in
    concat (contentTexts (sent st1)) = out /\
    concat (sseContentTexts (body st2)) = out /\
    contentTexts (sent st1) = sseContentTexts (body st2).
Proof.
  apply (C1_front_ends_agree quoteASCII lowerASCII streamCfg streamReq
           (bytes "mock-sse") (ChunkSize streamCfg) quietEnv quietEnv);
    try apply streamCfg_fits; closed.
Defined.

(** C1 as stated fails: with the budget left to the service (default 5
    tokens, strict token mode) the stream synthesizes 64 bytes in 10 chunks
    and the text-event stream 256 bytes in 37 chunks; and with error rate 1
    the stream sends no content chunk while the text-event stream, which
    has no error injection, sends them all. *)
Lemma C1_counterexample :
  (let g := ChatCompletionStream quoteASCII lowerASCII defaultsCfg defaultsReq
                                 quietEnv init in
   let h := serveChatCompletionSSE quoteASCII (bytes "mock-sse")
              (buildPromptForTokens defaultsReq) (MaxTokens defaultsReq)
              defaultsCfg (ChunkSize defaultsCfg) quietEnv init in
   fst g = Val None /\ fst h = Val tt /\
   length (contentTexts (sent (snd g))) = 10%nat /\
   length (sseContentTexts (body (snd h))) = 37%nat /\
   contentTexts (sent (snd g)) <> sseContentTexts (body (snd h)))
  /\
  (let g := ChatCompletionStream quoteASCII lowerASCII failingCfg streamReq
                                 quietEnv init in
   let h := serveChatCompletionSSE quoteASCII (bytes "mock-sse")
              (buildPromptForTokens streamReq) (MaxTokens streamReq)
              failingCfg (ChunkSize failingCfg) quietEnv init in
   contentTexts (sent (snd g)) = [] /\
   length (sseContentTexts (body (snd h))) = 74%nat /\
   contentTexts (sent (snd g)) <> sseContentTexts (body (snd h))).
Proof.
  cbv zeta. repeat split; try (vm_compute; reflexivity);
    intros H; apply (f_equal (@length gostring)) in H;
    vm_compute in H; discriminate.
Qed.

(** C2 as stated fails: the context of the test stream is cancelled once
    the first content chunk went out; the call returns the cancellation,
    and after that chunk a "failed" event was handed to the transport. *)
Lemma C2_counterexample :
  let r := ChatCompletionStream quoteASCII lowerASCII streamCfg streamReq
             (cancelAfter 1) init in
  fst r = Val (Some (ErrContext Canceled)) /\
  sent (snd r) = [deltaChunk (bytes "This is");
                  failedChunk (bytes "context canceled")].
Proof. cbv zeta. split; vm_compute; reflexivity. Qed.

(** C3: the test stream and the matching text-event stream, whose output
    is ASCII: every slice reaches the client as it is. *)
Lemma C3_witness :
  (exists eff cs pt ct latency st',
     ChatCompletionStream quoteASCII lowerASCII streamCfg streamReq quietEnv init
     = (Val None, st') /\
     (Randomize streamCfg = false ->
      eff = baseTokens streamCfg streamReq /\ cs = baseChunkSize streamCfg) /\
     let out := outputOf quoteASCII streamCfg (buildPromptForTokens streamReq)
                         eff in
     chunkProps cs out (contentTexts (sent st')) /\
     sent st' = map deltaChunk (contentTexts (sent st'))
                ++ [doneChunk pt ct latency])
  /\
  (exists st',
     serveChatCompletionSSE quoteASCII (bytes "mock-model") (bytes "sse prompt")
                            10 streamCfg 7 quietEnv init = (Val tt, st') /\
     let out := outputOf quoteASCII streamCfg (bytes "sse prompt") 10 in
     chunksIntact 7 out /\
     sseContentTexts (body st') = chunksOf 7 out /\
     chunkProps 7 out (sseContentTexts (body st'))).
Proof.
  pose proof (C3_content_chunks_reassemble_output quoteASCII lowerASCII
                streamCfg streamReq quietEnv (bytes "mock-model")
                (bytes "sse prompt") 10 7) as [G H].
  split.
  - apply G; try apply streamCfg_fits; closed.
  - destruct H as (cs & id & created & st' & Erun & Hcs & Hrun);
      [ vm_compute; split; discriminate
      | vm_compute; reflexivity
      | split; [reflexivity | intros k; reflexivity]
      | reflexivity
      | ].
    rewrite (Hcs eq_refl) in Hrun. cbv zeta in Hrun.
    change (sseBaseChunkSize streamCfg 7) with 7 in Hrun.
    destruct Hrun as (_ & _ & Htexts & Hprops & _).
    assert (Hint : chunksIntact 7 (outputOf quoteASCII streamCfg
                                            (bytes "sse prompt") 10))
      by (vm_compute; reflexivity).
    exists st'. split; [exact Erun|]. cbv zeta.
    split; [exact Hint|]. split; [|exact (Hprops Hint)].
    rewrite Htexts. apply intact_map, Hint.
Defined.

(** C3 as stated fails on the text-event-stream front end. With
    [ECHO_PROMPT] on and the chunk size 16 of the preset "openai", the
    request [GET /?prompt=aaaaaaaaaaaaa%C3%A9&max_tokens=16] synthesizes 64
    bytes in which the two bytes of the accented letter are the last byte
    of the second slice and the first byte of the third. [json.Marshal]
    writes U+FFFD for each of them: the response carries 18 bytes in each
    of these two events, 68 bytes in all, and the concatenation of the
    content texts is not the output. *)
Lemma C3_counterexample :
  let out := outputOf quoteASCII echoCfg accentPrompt 16 in
  let r := ChatCompletionSSEHandler quoteASCII echoCfg accentQuery quietEnv
                                    init in
  let texts := sseContentTexts (body (snd r)) in
  fst r = Val tt /\ status (snd r) = Some 200 /\
  len out = 64 /\
  chunksOf 16 out
  = [bytes "Mock answer for:";
     [byte_of 32; byte_of 34] ++ bytes "aaaaaaaaaaaaa" ++ [byte_of 195];
     [byte_of 169; byte_of 34] ++ LF ++ LF ++ bytes "This is a se";
     bytes "rver-streaming m"] /\
  texts
  = [bytes "Mock answer for:";
     [byte_of 32; byte_of 34] ++ bytes "aaaaaaaaaaaaa" ++ replacement;
     replacement ++ [byte_of 34] ++ LF ++ LF ++ bytes "This is a se";
     bytes "rver-streaming m"] /\
  len (nth 1 texts []) = 18 /\
  len (concat texts) = 68 /\
  concat texts <> out /\
  ~ chunkProps 16 out texts.
Proof.
  cbv zeta. repeat split; try (vm_compute; reflexivity).
  - intros H. apply (f_equal (@length ascii)) in H.
    vm_compute in H. discriminate.
  - intros (_ & H & _). apply (f_equal (@length ascii)) in H.
    vm_compute in H. discriminate.
Qed.

(** C4: the sizing of the cross-protocol test (10 tokens, strict, cap 256)
    gives 64 bytes. *)
Lemma C4_witness :
  len (BuildOutput quoteASCII (bytes "sse prompt") 10 false true 0 256)
  = clamp (spec_target true 0 10) 64 (spec_ceiling 256).
Proof.
  apply (C4_BuildOutput_length_is_clamped_target quoteASCII
           (bytes "sse prompt") 10 false true 0 256).
  intros _. vm_compute. discriminate.
Defined.

(** C4 as stated fails where [maxTokens * 4] overflows: a budget of 2^61
    tokens in strict token mode, with the default cap, gives 64 bytes and
    not the 4096 of the clamp. *)
Lemma C4_counterexample :
  len (BuildOutput quoteASCII [] (2 ^ 61) false true 0 0) = 64 /\
  clamp (spec_target true 0 (2 ^ 61)) 64 (spec_ceiling 0) = 4096 /\
  len (BuildOutput quoteASCII [] (2 ^ 61) false true 0 0)
  <> clamp (spec_target true 0 (2 ^ 61)) 64 (spec_ceiling 0).
Proof. repeat split; vm_compute; congruence. Qed.



(** C7: the unary test of the repository, in strict token mode. *)
Lemma C7_witness :
  exists resp st',
    ChatCompletion quoteASCII lowerASCII unaryCfg unaryReq quietEnv init
    = (Val (Some resp, None), st') /\
    OutputText resp
    = BuildOutput quoteASCII (buildPromptForTokens unaryReq) 12 false true 0 0 /\
    RespFinishReason resp = bytes "stop" /\
    0 <= RespLatencyMs resp /\
    RespPromptTokens resp = ApproxTokens (buildPromptForTokens unaryReq) /\
    RespCompletionTokens resp = ApproxTokens (OutputText resp) /\
    RespTotalTokens resp = RespPromptTokens resp + RespCompletionTokens resp.
Proof.
  apply (C7_unary_scenario quoteASCII lowerASCII unaryCfg unaryReq quietEnv);
    closed.
Defined.

(** C8: a budget of 128 tokens, a short prompt, the draws of [quietEnv]:
    the short bucket, 6 to 28 tokens, and its lower bound. *)
Lemma C8_witness :
  exists v p minF maxF,
    pickTargetTokens 128 14 quietEnv init = (Val v, set_rng_pos p init) /\
    In (minF, maxF) buckets /\
    let '(minT, maxT) := bucketRange 128 minF maxF in
    1 <= minT <= maxT /\ maxT <= 128 /\
    v = minT + (if minT <? maxT
                then rng_int quietEnv (S (rng_pos init)) mod (maxT - minT + 1)
                else 0) /\
    minT <= v <= maxT /\ 1 <= v <= 128.
Proof.
  apply (C8_pickTargetTokens_within_budget 128 14 quietEnv init). closed.
Defined.

(** C9: two prompts. *)
Lemma C9_witness :
  ApproxTokens (bytes "tell me a joke")
  = ceil_div (runeLength (bytes "tell me a joke")) 4 /\
  ApproxTokens [] = 0 /\
  (runeLength (bytes "tell me a joke")
   <= runeLength (bytes "stream this content") ->
   ApproxTokens (bytes "tell me a joke")
   <= ApproxTokens (bytes "stream this content")).
Proof.
  apply (C9_ApproxTokens_ceiling_monotone (bytes "tell me a joke")
           (bytes "stream this content")); vm_compute; reflexivity.
Defined.

(** C10: a query without [prompt], and one whose [prompt] is empty. *)
Lemma C10_witness :
  (exists st',
     ChatCompletionSSEHandler quoteASCII streamCfg
       [(bytes "model", bytes "m")] quietEnv init = (Val tt, st') /\
     status st' = Some 400 /\
     body st' = [FrameText (bytes "prompt is required" ++ LF)] /\
     Forall (fun f => isStreamFrame f = false) (body st') /\
     buffered st' = [] /\ sent st' = [])
  /\
  (exists st',
     ChatCompletionSSEHandler quoteASCII streamCfg
       [(bytes "prompt", []); (bytes "max_tokens", bytes "6")] quietEnv init
     = (Val tt, st') /\
     status st' = Some 400 /\
     body st' = [FrameText (bytes "prompt is required" ++ LF)] /\
     Forall (fun f => isStreamFrame f = false) (body st') /\
     buffered st' = [] /\ sent st' = []).
Proof.
  split.
  - apply (C10_missing_prompt_is_rejected quoteASCII streamCfg
             [(bytes "model", bytes "m")] quietEnv). reflexivity.
  - apply (C10_missing_prompt_is_rejected quoteASCII streamCfg
             [(bytes "prompt", []); (bytes "max_tokens", bytes "6")] quietEnv).
    reflexivity.
Defined.

(** * Closed instances of the further properties *)

(** X2: a short text and a long one. *)
Lemma trim_short_or_ellipsis_witness :
  trim (bytes "tell me a joke") 14 = bytes "tell me a joke" /\
  trim (bytes "tell me a joke") 4 = bytes "tell" ++ ellipsis.
Proof.
  split.
  - destruct (trim_short_or_ellipsis (bytes "tell me a joke") 14)
      as (_ & H & _); [lia|].
    apply H. vm_compute. discriminate.
  - destruct (trim_short_or_ellipsis (bytes "tell me a joke") 4)
      as (_ & _ & _ & H); [lia|].
    apply H; vm_compute; reflexivity.
Defined.

(** X3: a target of 64 bytes is cut inside the boilerplate. *)
Lemma BuildOutput_filler_witness :
  BuildOutput quoteASCII (bytes "sse prompt") 0 false false 64 0
  = firstn 64 boilerplate.
Proof.
  destruct (BuildOutput_filler quoteASCII (bytes "sse prompt") 0 false false
              64 0) as [_ H].
  apply H. vm_compute. discriminate.
Defined.

(** X4: the mixed mode. *)
Lemma pickErrorStatus_agrees_with_grpc_witness :
  exists c st',
    pickGrpcErrorCode lowerASCII (bytes "mixed") quietEnv init = (Val c, st') /\
    pickErrorStatus (bytes "mixed") quietEnv init = (Val (statusCode c), st').
Proof.
  apply (pickErrorStatus_agrees_with_grpc lowerASCII (bytes "mixed") quietEnv
           init).
  right. right. vm_compute. intuition discriminate.
Defined.

(** X5: the last of two user messages. *)
Lemma lastUserMessage_last_user_witness :
  lastUserMessage chatReq = bytes "second".
Proof.
  destruct (lastUserMessage_last_user chatReq) as [H _].
  apply (H [mkChatMessage (bytes "user") (bytes "first");
            mkChatMessage (bytes "assistant") (bytes "answer")]
           (mkChatMessage (bytes "user") (bytes "second"))
           [mkChatMessage (bytes "system") (bytes "note")]);
    [reflexivity | reflexivity |].
  repeat constructor. vm_compute. discriminate.
Defined.

(** X6: the empty environment. *)
Lemma LoadConfig_defaults_witness :
  LoadConfig lowerASCII emptyEnviron parseNone = defaultConfig.
Proof.
  apply (LoadConfig_defaults lowerASCII emptyEnviron parseNone);
    intros k _; reflexivity.
Defined.

(** X7: the preset "vllm", and a configuration without preset. *)
Lemma ApplyPresetOverrides_frame_and_knobs_witness :
  (StrictTokenMode (ApplyPresetOverrides vllmCfg) = true /\
   0 < TTFTMinMs (ApplyPresetOverrides vllmCfg)
     <= TTFTMaxMs (ApplyPresetOverrides vllmCfg) /\
   0 <= StreamDelayMinMs (ApplyPresetOverrides vllmCfg)
     <= StreamDelayMaxMs (ApplyPresetOverrides vllmCfg) /\
   16 <= ChunkSize (ApplyPresetOverrides vllmCfg) <= 48 /\
   35 <= TokensPerSec (ApplyPresetOverrides vllmCfg) <= 90 /\
   12288 <= MaxOutputChars (ApplyPresetOverrides vllmCfg) <= 16384) /\
  ApplyPresetOverrides streamCfg = streamCfg.
Proof.
  split.
  - destruct (ApplyPresetOverrides_frame_and_knobs vllmCfg) as (_ & _ & H & _).
    apply H. vm_compute. tauto.
  - destruct (ApplyPresetOverrides_frame_and_knobs streamCfg)
      as (_ & _ & _ & H).
    apply H. vm_compute. intuition discriminate.
Defined.

(** X8: [CHUNK_SIZE=99] under the default preset. *)
Lemma main_cfg_preset_overrides_environment_witness :
  main_cfg lowerASCII emptyEnviron parseNone
  = main_cfg lowerASCII chunkEnviron parseNone.
Proof.
  apply (main_cfg_preset_overrides_environment lowerASCII emptyEnviron
           chunkEnviron parseNone).
  - intros k Hk. unfold emptyEnviron, chunkEnviron.
    destruct (gostring_eqb k (bytes "CHUNK_SIZE")) eqn:E; [|reflexivity].
    exfalso. apply Hk. apply gostring_eqb_eq in E. subst k.
    vm_compute. tauto.
  - vm_compute. tauto.
Defined.

(** X9: the empty environment. *)
Lemma main_cfg_is_well_formed_witness :
  let c := main_cfg lowerASCII emptyEnviron parseNone in
  Config_wf c /\ 16 <= ChunkSize c /\ baseChunkSize c = ChunkSize c /\
  (forall maxTokens,
     targetLen maxTokens (StrictTokenMode c) (DebugOutputChars c)
               (MaxOutputChars c) <= 16384) /\
  outputFits c /\ tpsDivides c.
Proof.
  apply (main_cfg_is_well_formed lowerASCII emptyEnviron parseNone).
  vm_compute. tauto.
Defined.

(** X10: a jitter of 5 ms. *)
Lemma jitterMs_range_witness :
  exists v p,
    jitterMs timedCfg quietEnv init = (Val v, set_rng_pos p init) /\
    0 <= v <= Z.max 0 (JitterMs timedCfg) /\
    (rng_pos init <= p <= S (rng_pos init))%nat /\
    (JitterMs timedCfg <= 0 -> v = 0 /\ p = rng_pos init).
Proof.
  apply (jitterMs_range timedCfg quietEnv init).
  vm_compute. split; discriminate.
Defined.

(** X11: a first-token delay between 100 and 300 ms. *)
Lemma ttftMs_range_witness :
  let lo := if TTFTMinMs timedCfg <=? 0 then TTFTMaxMs timedCfg
            else TTFTMinMs timedCfg in
  let hi := Z.max lo (TTFTMaxMs timedCfg) in
  exists v p,
    ttftMs timedCfg quietEnv init = (Val v, set_rng_pos p init) /\
    (rng_pos init <= p <= S (rng_pos init))%nat /\
    (TTFTMinMs timedCfg <= 0 -> TTFTMaxMs timedCfg <= 0 ->
     v = 0 /\ p = rng_pos init) /\
    (0 < TTFTMinMs timedCfg \/ 0 < TTFTMaxMs timedCfg ->
     0 < lo /\ lo <= v <= hi).
Proof.
  apply (ttftMs_range timedCfg quietEnv init);
    vm_compute; split; discriminate.
Defined.

(** X12: the chunk size of the test stream, given again in the request. *)
Lemma sseChunkSize_agrees_with_stream_witness :
  sseChunkSize streamCfg 7 quietEnv init = streamChunkSize streamCfg quietEnv init.
Proof.
  destruct (sseChunkSize_agrees_with_stream streamCfg 7 quietEnv init)
    as [H1 H2].
  apply H1. apply H2; [vm_compute; discriminate | right; reflexivity].
Defined.

(** X13: a randomized chunk size around 7. *)
Lemma streamChunkSize_within_a_third_witness :
  let base := baseChunkSize timedCfg in
  let j := Z.max 1 (base / 3) in
  exists cs p,
    streamChunkSize timedCfg quietEnv init = (Val cs, set_rng_pos p init) /\
    1 <= base /\ 1 <= cs /\ base - j <= cs <= base + j /\
    (Randomize timedCfg = false \/ base = 1 -> cs = base /\ p = rng_pos init).
Proof.
  apply (streamChunkSize_within_a_third timedCfg quietEnv init).
  vm_compute. discriminate.
Defined.

(** X14: a request of blanks. *)
Lemma buildPromptForTokens_empty_iff_witness :
  buildPromptForTokens
    (mkRequest (bytes "m") (bytes "  ") []
               [mkChatMessage (bytes " ") []] 5) = [].
Proof.
  apply (buildPromptForTokens_empty_iff
           (mkRequest (bytes "m") (bytes "  ") []
                      [mkChatMessage (bytes " ") []] 5)).
  split; [vm_compute; reflexivity|]. split; [vm_compute; reflexivity|].
  repeat constructor.
Defined.

(** X15: a budget of 32 tokens in strict token mode. *)
Lemma unary_completion_tokens_equal_budget_witness :
  exists resp st',
    ChatCompletion quoteASCII lowerASCII unaryCfg budgetReq quietEnv init
    = (Val (Some resp, None), st') /\
    len (OutputText resp) = 4 * MaxTokens budgetReq /\
    RespCompletionTokens resp = MaxTokens budgetReq.
Proof.
  apply (unary_completion_tokens_equal_budget quoteASCII lowerASCII unaryCfg
           budgetReq quietEnv);
    try reflexivity.
  - left. vm_compute. discriminate.
  - vm_compute. split; discriminate.
  - right. vm_compute. discriminate.
Defined.

(** X16: the context of the test request is cancelled at once. *)
Lemma unary_returns_context_error_witness :
  exists st',
    ChatCompletion quoteASCII lowerASCII streamCfg streamReq (cancelAfter 0)
                   init
    = (Val (None, Some (ErrContext Canceled)), st') /\
    sent st' = [] /\ clock_reads st' = 1%nat.
Proof.
  apply (unary_returns_context_error quoteASCII lowerASCII streamCfg streamReq
           (cancelAfter 0) Canceled);
    [reflexivity | left; vm_compute; discriminate | reflexivity].
Defined.

(** X17: 2^32 tokens per second. *)
Lemma unary_panics_when_tps_wraps_to_zero_witness :
  fst (ChatCompletion quoteASCII lowerASCII wrapTpsCfg streamReq quietEnv init)
  = Panic.
Proof.
  apply (unary_panics_when_tps_wraps_to_zero quoteASCII lowerASCII wrapTpsCfg
           streamReq quietEnv); reflexivity.
Defined.

(** X18: a randomized answer to a budget of 32 tokens. *)
Lemma unary_respects_budget_witness :
  let M := if 0 <? baseTokens randomCfg budgetReq
           then baseTokens randomCfg budgetReq else 128 in
  exists resp st',
    ChatCompletion quoteASCII lowerASCII randomCfg budgetReq quietEnv init
    = (Val (Some resp, None), st') /\
    len (OutputText resp) <= Z.max 64 (4 * M) /\
    RespCompletionTokens resp <= Z.max 16 M.
Proof.
  apply (unary_respects_budget quoteASCII lowerASCII randomCfg budgetReq
           quietEnv);
    try reflexivity.
  - vm_compute. split; discriminate.
  - left. vm_compute. discriminate.
Defined.

(** X19: a call that fails at rate 0.05 fails at rate 0.22. *)
Lemma shouldFail_monotone_in_rate_witness :
  fst (shouldFail F64.c0_22 quietEnv init) = Val true.
Proof.
  apply (shouldFail_monotone_in_rate F64.c0_05 F64.c0_22 quietEnv init);
    vm_compute; reflexivity.
Defined.

(** X20: the test request, unary and streamed. *)
Lemma unary_and_stream_agree_witness :
  exists resp st1 st2,
    ChatCompletion quoteASCII lowerASCII streamCfg streamReq quietEnv init
    = (Val (Some resp, None), st1) /\
    ChatCompletionStream quoteASCII lowerASCII streamCfg streamReq quietEnv
                         init = (Val None, st2) /\
    concat (contentTexts (sent st2)) = OutputText resp /\
    let d := last (sent st2) (failedChunk []) in
    Type_ d = bytes "output_text.done" /\
    FinishReason d = RespFinishReason resp /\
    PromptTokens d = RespPromptTokens resp /\
    CompletionTokens d = RespCompletionTokens resp /\
    TotalTokens d = RespTotalTokens resp.
Proof.
  apply (unary_and_stream_agree quoteASCII lowerASCII streamCfg streamReq
           quietEnv quietEnv);
    try reflexivity; try apply streamCfg_fits.
  - vm_compute. split; discriminate.
  - vm_compute. split; discriminate.
  - left. vm_compute. discriminate.
  - intros k. reflexivity.
Defined.

(** X21: the stream of the test request, cancelled before it starts. *)
Lemma stream_cancelled_before_first_chunk_witness :
  exists st',
    ChatCompletionStream quoteASCII lowerASCII streamCfg streamReq
                         (cancelAfter 0) init
    = (Val (Some (ErrContext Canceled)), st') /\
    sent st' = [failedChunk (Error (ErrContext Canceled))] /\
    contentTexts (sent st') = [].
Proof.
  apply (stream_cancelled_before_first_chunk quoteASCII lowerASCII streamCfg
           streamReq (cancelAfter 0) Canceled);
    try reflexivity; vm_compute; split; discriminate.
Defined.



(** X24: a response that cannot be flushed. *)
Lemma sse_streaming_unsupported_witness :
  exists st',
    serveChatCompletionSSE quoteASCII (bytes "mock-model") (bytes "sse prompt")
                           10 streamCfg 7 noFlushEnv init = (Val tt, st') /\
    status st' = Some 500 /\
    content_type st' = bytes "text/plain; charset=utf-8" /\
    body st' = [FrameText (bytes "streaming unsupported" ++ LF)] /\
    Forall (fun f => isStreamFrame f = false) (body st') /\
    rng_pos st' = 0%nat.
Proof.
  apply (sse_streaming_unsupported quoteASCII (bytes "mock-model")
           (bytes "sse prompt") 10 streamCfg 7 noFlushEnv).
  reflexivity.
Defined.

(** X25: [chunk_size=-5]. *)
Lemma sse_negative_chunk_size_panics_witness :
  exists id created st',
    serveChatCompletionSSE quoteASCII (bytes "mock-model") (bytes "sse prompt")
                           10 streamCfg (-5) quietEnv init = (Panic, st') /\
    status st' = Some 200 /\
    body st' = [roleFrame id created (bytes "mock-model")].
Proof.
  apply (sse_negative_chunk_size_panics quoteASCII (bytes "mock-model")
           (bytes "sse prompt") 10 streamCfg (-5) quietEnv);
    try reflexivity.
  - vm_compute. split; [discriminate | reflexivity].
  - intros n e H. discriminate H.
Defined.

(** X26: the context is done once three frames went out. *)
Lemma sse_cancellation_stops_silently_witness :
  exists st',
    serveChatCompletionSSE quoteASCII (bytes "mock-model") (bytes "sse prompt")
                           10 streamCfg 7 (cancelAfter 3) init
    = (Val tt, st') /\
    sseContentTexts (body st') = [bytes "This is"; bytes " a serv"] /\
    ~ In FrameDone (body st').
Proof.
  destruct (sse_cancellation_stops_silently quoteASCII (bytes "mock-model")
              (bytes "sse prompt") 10 streamCfg 7 (cancelAfter 3) 3 Canceled)
    as (cs & id & created & st' & _ & Hbase & E & Hrun);
    [ vm_compute; split; discriminate
    | vm_compute; reflexivity
    | split; [reflexivity | intros k; reflexivity]
    | reflexivity
    | ].
  rewrite (Hbase eq_refl) in Hrun. cbv zeta in Hrun.
  destruct Hrun as (_ & Hc & Hd & _).
  exists st'. split; [exact E|]. split.
  - rewrite Hc. vm_compute. reflexivity.
  - apply Hd. apply Nat.ltb_lt. vm_compute. reflexivity.
Defined.

(** X27: the text-event stream of the cross-protocol test. *)
Lemma sse_stream_envelope_witness :
  exists r created st',
    serveChatCompletionSSE quoteASCII (bytes "mock-model") (bytes "sse prompt")
                           10 streamCfg 7 quietEnv init = (Val tt, st') /\
    status st' = Some 200 /\
    content_type st' = bytes "text/event-stream" /\
    buffered st' = [] /\
    len r = 10 /\ Forall (fun c => In c letters) r /\
    Forall (fun f =>
              f = FrameDone \/
              exists c, f = FrameData c /\
                ID c = bytes "chatcmpl_mock_" ++ r /\ Created c = created /\
                ChunkModel c = json.validString (bytes "mock-model") /\
                Object c = bytes "chat.completion.chunk") (body st') /\
    last (body st') (FrameText []) = FrameDone.
Proof.
  apply (sse_stream_envelope quoteASCII (bytes "mock-model")
           (bytes "sse prompt") 10 streamCfg 7 quietEnv);
    [ vm_compute; split; discriminate
    | vm_compute; reflexivity
    | split; [reflexivity | intros k; reflexivity]
    | reflexivity ].
Defined.

(** X28: the query of the handler test. *)
Lemma sse_handler_reads_query_witness :
  let prompt := url.Get sseQuery (bytes "prompt") in
  let model := if gostring_eqb (url.Get sseQuery (bytes "model")) []
               then bytes "mock-sse" else url.Get sseQuery (bytes "model") in
  let maxTokens := match Some 10 with
                   | Some n => n
                   | None => DefaultTokens streamCfg
                   end in
  let chunk := match Some 7 with
               | Some c => c
               | None => ChunkSize streamCfg
               end in
  exists st',
    ChatCompletionSSEHandler quoteASCII streamCfg sseQuery quietEnv init
    = (Val tt, st') /\
    status st' = Some 200 /\
    sseContentTexts (body st')
    = map json.validString
          (chunksOf (sseBaseChunkSize streamCfg chunk)
                    (outputOf quoteASCII streamCfg prompt maxTokens)) /\
    Forall (fun f => forall c, f = FrameData c ->
                               ChunkModel c = json.validString model)
           (body st').
Proof.
  apply (sse_handler_reads_query quoteASCII streamCfg sseQuery quietEnv
           (Some 10) (Some 7));
    [ vm_compute; discriminate
    | vm_compute; reflexivity
    | vm_compute; reflexivity
    | reflexivity
    | vm_compute; split; discriminate
    | vm_compute; reflexivity
    | split; [reflexivity | intros k; reflexivity]
    | reflexivity ].
Defined.
